(** * dicom2nifti.py: scanning, output-path naming and conversion dispatch

    A shallow embedding of [src/dicom2nifti.py] (class
    [DicomToNiftiConverter]) and the properties of its folder scan, its
    output-path resolver, its path-name sanitizer and its dcm2niix
    dispatcher.

    Python [str] values are sequences of Unicode code points; they are
    modelled as lists of [N].  The Python built-ins and the [os.path] and
    [pathlib] functions the program calls are modelled after their CPython
    (POSIX) definitions. *)

From Stdlib Require Import Ascii String.
From Stdlib Require Import List NArith ZArith Bool Lia.
From Stdlib Require Import Sorting.Sorted Sorting.Permutation.
Import ListNotations.

Set Implicit Arguments.
Set Warnings "-register-all".

(* ================================================================= *)
(** ** Python strings *)

Module PyStr.

(** A code point. *)
Definition char := N.

(** A Python [str]. *)
Definition str := list char.

(** The [str] written by an ASCII literal. *)
Definition lit (s : string) : str :=
  map N_of_ascii (list_ascii_of_string s).
Arguments lit s%_string.

Definition char_eqb (a b : char) : bool := N.eqb a b.
Arguments char_eqb : simpl never.

Fixpoint str_eqb (a b : str) : bool :=
  match a, b with
  | [], [] => true
  | x :: a', y :: b' => char_eqb x y && str_eqb a' b'
  | _, _ => false
  end.

(** Truth value of a [str]: non-empty. *)
Definition truthy (s : str) : bool :=
  match s with [] => false | _ :: _ => true end.

(** [c.isspace()] for one code point (CPython [_PyUnicode_IsWhitespace]). *)
Definition is_space (c : char) : bool :=
  ((9 <=? c) && (c <=? 13) || (28 <=? c) && (c <=? 32)
   || (c =? 133) || (c =? 160) || (c =? 5760)
   || (8192 <=? c) && (c <=? 8202)
   || (c =? 8232) || (c =? 8233) || (c =? 8239) || (c =? 8287)
   || (c =? 12288))%N.

(** [s.replace(old, new)] where [old] and [new] are single characters. *)
Definition replace (old new : char) (s : str) : str :=
  map (fun c => if char_eqb c old then new else c) s.

(** [s.startswith(p)]. *)
Fixpoint startswith (p s : str) : bool :=
  match p, s with
  | [], _ => true
  | x :: p', y :: s' => char_eqb x y && startswith p' s'
  | _ :: _, [] => false
  end.

(** [s.endswith(p)]. *)
Definition endswith (p s : str) : bool := startswith (rev p) (rev s).

(** [sub in s]. *)
Fixpoint contains (sub s : str) : bool :=
  startswith sub s ||
  match s with
  | [] => false
  | _ :: s' => contains sub s'
  end.

(** [sep.join(parts)]. *)
Fixpoint join (sep : str) (parts : list str) : str :=
  match parts with
  | [] => []
  | [p] => p
  | p :: rest => p ++ sep ++ join sep rest
  end.

Definition push (c : char) (ws : list str) : list str :=
  match ws with
  | [] => [[c]]
  | w :: ws' => (c :: w) :: ws'
  end.

Definition head_is_word (s : str) : bool :=
  match s with
  | [] => false
  | c :: _ => negb (is_space c)
  end.

(** [s.split()]: the maximal runs of non-whitespace characters. *)
Fixpoint split (s : str) : list str :=
  match s with
  | [] => []
  | c :: s' =>
      if is_space c then split s'
      else if head_is_word s' then push c (split s')
      else [c] :: split s'
  end.

(** [s.split(sep)] for a one-character separator. *)
Fixpoint split_on (sep : char) (s : str) : list str :=
  match s with
  | [] => [[]]
  | c :: s' =>
      if char_eqb c sep then [] :: split_on sep s'
      else push c (split_on sep s')
  end.

Fixpoint lstrip (s : str) : str :=
  match s with
  | [] => []
  | c :: s' => if is_space c then lstrip s' else s
  end.

Definition rstrip (s : str) : str := rev (lstrip (rev s)).

(** [s.strip()]. *)
Definition strip (s : str) : str := rstrip (lstrip s).

(** [s.rstrip(c)] for a one-character argument. *)
Fixpoint lstrip_char (c : char) (s : str) : str :=
  match s with
  | [] => []
  | x :: s' => if char_eqb x c then lstrip_char c s' else s
  end.

Definition rstrip_char (c : char) (s : str) : str :=
  rev (lstrip_char c (rev s)).

(** [a <= b] on [str]: lexicographic on code points. *)
Fixpoint leb (a b : str) : bool :=
  match a, b with
  | [], _ => true
  | _ :: _, [] => false
  | x :: a', y :: b' =>
      if N.ltb x y then true
      else if N.eqb x y then leb a' b'
      else false
  end.

Definition le (a b : str) : Prop := leb a b = true.

Fixpoint insert_sorted (x : str) (l : list str) : list str :=
  match l with
  | [] => [x]
  | y :: l' => if leb x y then x :: l else y :: insert_sorted x l'
  end.

(** [sorted(l)] on a list of [str]. *)
Fixpoint sorted (l : list str) : list str :=
  match l with
  | [] => []
  | x :: l' => insert_sorted x (sorted l')
  end.

End PyStr.
Import PyStr.

(* ================================================================= *)
(** ** [os.path] (posixpath) *)

Module OsPath.

Definition sep : char := 47%N.
Definition curdir : str := lit ".".
Definition pardir : str := lit "..".

(** [os.path.join(a, b)]. *)
Definition join (a b : str) : str :=
  if startswith [sep] b then b
  else if negb (truthy a) || endswith [sep] a then a ++ b
  else a ++ [sep] ++ b.

(** [os.path.join] applied to one or more parts. *)
Definition join_all (parts : list str) : str :=
  match parts with
  | [] => []
  | a :: rest => fold_left join rest a
  end.

(** [(p[:i], p[i:])] with [i = p.rfind('/') + 1]. *)
Fixpoint rsplit (p : str) : str * str :=
  match p with
  | [] => ([], [])
  | c :: p' =>
      let (h, t) := rsplit p' in
      if truthy h then (c :: h, t)
      else if char_eqb c sep then ([c], t)
      else ([], c :: t)
  end.

(** [os.path.dirname(p)]. *)
Definition dirname (p : str) : str :=
  let head := fst (rsplit p) in
  if truthy head && negb (forallb (char_eqb sep) head)
  then rstrip_char sep head
  else head.

(** [os.path.basename(p)]. *)
Definition basename (p : str) : str := snd (rsplit p).

Definition isabs (p : str) : bool := startswith [sep] p.

Definition norm_step (initial_slashes : nat) (new_comps : list str)
    (comp : str) : list str :=
  if negb (truthy comp) || str_eqb comp curdir then new_comps
  else if negb (str_eqb comp pardir)
          || (Nat.eqb initial_slashes 0 && negb (0 <? length new_comps))
          || ((0 <? length new_comps) && str_eqb (last new_comps []) pardir)
  then new_comps ++ [comp]
  else removelast new_comps.

(** [os.path.normpath(path)]. *)
Definition normpath (path : str) : str :=
  if negb (truthy path) then curdir
  else
    let initial_slashes :=
      if startswith [sep] path then
        if startswith [sep; sep] path && negb (startswith [sep; sep; sep] path)
        then 2 else 1
      else 0 in
    let comps := split_on sep path in
    let new_comps := fold_left (norm_step initial_slashes) comps [] in
    let p := repeat sep initial_slashes ++ PyStr.join [sep] new_comps in
    if truthy p then p else curdir.

(** [os.path.abspath(path)] in a process whose working directory is [cwd]. *)
Definition abspath (cwd path : str) : str :=
  normpath (if isabs path then path else join cwd path).

Fixpoint common_len (a b : list str) : nat :=
  match a, b with
  | x :: a', y :: b' => if str_eqb x y then S (common_len a' b') else 0
  | _, _ => 0
  end.

(** [os.path.relpath(path, start)]; [None] is the [ValueError] raised for
    an empty [path]. *)
Definition relpath (cwd path start : str) : option str :=
  if negb (truthy path) then None
  else
    let start_list := filter truthy (split_on sep (abspath cwd start)) in
    let path_list := filter truthy (split_on sep (abspath cwd path)) in
    let i := common_len start_list path_list in
    let rel_list := repeat pardir (length start_list - i) ++ skipn i path_list in
    match rel_list with
    | [] => Some curdir
    | _ => Some (join_all rel_list)
    end.

End OsPath.

(* ================================================================= *)
(** ** [pathlib.PurePosixPath] *)

Module PathLib.

(** A parsed path: its root (empty, one slash or two slashes) and its
    segments. *)
Record Path := mkPath { root : str; tail : list str }.

Definition splitroot (p : str) : str * str :=
  match p with
  | a :: p1 =>
      if char_eqb a OsPath.sep then
        match p1 with
        | b :: p2 =>
            if char_eqb b OsPath.sep then
              if startswith [OsPath.sep] p2 then ([OsPath.sep], p1)
              else ([OsPath.sep; OsPath.sep], p2)
            else ([OsPath.sep], p1)
        | [] => ([OsPath.sep], p1)
        end
      else ([], p)
  | [] => ([], p)
  end.

(** [Path(s)]. *)
Definition parse (s : str) : Path :=
  let (r, rel) := splitroot s in
  mkPath r (filter (fun x => truthy x && negb (str_eqb x OsPath.curdir))
                   (split_on OsPath.sep rel)).

(** [str(p)]. *)
Definition to_str (p : Path) : str :=
  let s := root p ++ PyStr.join [OsPath.sep] (tail p) in
  if truthy s then s else OsPath.curdir.

(** [p / s]. *)
Definition truediv (p : Path) (s : str) : Path :=
  parse (OsPath.join (to_str p) s).

End PathLib.
Import PathLib.

(* ================================================================= *)
(** ** Dictionaries and sets *)

Module Dict.

(** A Python [dict] with [str] keys: the entries in insertion order. *)
Definition dict (V : Type) := list (str * V).

Fixpoint get {V} (k : str) (d : dict V) : option V :=
  match d with
  | [] => None
  | (k', v) :: d' => if str_eqb k k' then Some v else get k d'
  end.

(** [d[k] = v]: an existing key keeps its position. *)
Fixpoint set {V} (k : str) (v : V) (d : dict V) : dict V :=
  match d with
  | [] => [(k, v)]
  | (k', v') :: d' =>
      if str_eqb k k' then (k', v) :: d' else (k', v') :: set k v d'
  end.

Definition keys {V} (d : dict V) : list str := map fst d.
Definition values {V} (d : dict V) : list V := map snd d.

Definition is_empty {V} (d : dict V) : bool :=
  match d with [] => true | _ :: _ => false end.

(** A Python [set] of [str], in insertion order. *)
Definition pyset := list str.

Definition mem (x : str) (s : pyset) : bool := existsb (str_eqb x) s.

(** [s.add(x)]. *)
Definition add (x : str) (s : pyset) : pyset :=
  if mem x s then s else s ++ [x].

End Dict.
Import Dict.

(* ================================================================= *)
(** ** The input tree as the scan sees it *)

(** The header of a file as [pydicom.dcmread(..., stop_before_pixels=True,
    force=True)] returns it: each attribute the program reads is absent or
    holds the [str()] of its value. *)
Record Dataset := mkDataset {
  PatientID : option str;
  StudyDate : option str;
  StudyDescription : option str;
  SeriesInstanceUID : option str;
  SeriesDescription : option str
}.

(** What reading a file by its path gives.  [read_magic p] is the result of
    opening [p], seeking to offset 128 and reading four bytes; [dcmread p]
    is the parsed header.  [None] stands for a raised exception. *)
Record FileSystem := mkFileSystem {
  read_magic : str -> option (list N);
  dcmread : str -> option Dataset
}.

(** A directory: its name, its sub-directories and the names of its files,
    in listing order. *)
Inductive Dir := mkDir (dname : str) (subdirs : list Dir) (files : list str).

Definition dname (d : Dir) : str := match d with mkDir n _ _ => n end.
Definition subdirs (d : Dir) : list Dir := match d with mkDir _ s _ => s end.
Definition files (d : Dir) : list str := match d with mkDir _ _ f => f end.

(** [os.walk(top)], top-down: one [(root, dirs, files)] triple per
    directory. *)
Fixpoint os_walk (top : str) (d : Dir) : list (str * list str * list str) :=
  match d with
  | mkDir _ subs fs =>
      (top, map dname subs, fs)
      :: flat_map (fun sd => os_walk (OsPath.join top (dname sd)) sd) subs
  end.

(* ================================================================= *)
(** ** [DicomFolder] and [DicomToNiftiConverter] *)

Record DicomFolder := mkDicomFolder {
  folder_path : str;
  folder_name : str;
  patient_id : str;
  study_date : str;
  study_description : str;
  series_count : nat;
  file_count : nat;
  series_descriptions : list str
}.

Record Converter := mkConverter {
  input_dir : Path;
  output_dir : Path;
  compress : bool;
  use_dcm2niix : bool;
  organize_by_folder : bool;
  include_patient_info : bool;
  dicom_folders : dict DicomFolder
}.

(** The bytes [b'DICM']. *)
Definition DICM : list N := [68; 73; 67; 77]%N.

Definition bytes_eqb (a b : list N) : bool := str_eqb a b.

(** [_is_dicom_file]. *)
Definition _is_dicom_file (fs : FileSystem) (file_path : str) : bool :=
  match read_magic fs file_path with
  | None => false
  | Some magic =>
      if bytes_eqb magic DICM then true
      else
        match dcmread fs file_path with
        | None => false
        | Some dcm =>
            match SeriesInstanceUID dcm with Some _ => true | None => false end
        end
  end.

(** One iteration of the sampling loop of [_analyze_dicom_folder] on the
    pair [(series_set, series_uids)]. *)
Definition sample_file (fs : FileSystem) (acc : pyset * pyset)
    (file_path : str) : pyset * pyset :=
  let (series_set, series_uids) := acc in
  match dcmread fs file_path with
  | None => acc
  | Some d =>
      let series_uids :=
        match SeriesInstanceUID d with
        | Some uid => add uid series_uids
        | None => series_uids
        end in
      let series_set :=
        match SeriesDescription d with
        | Some v =>
            let desc := strip v in
            if truthy desc then add desc series_set else series_set
        | None => series_set
        end in
      (series_set, series_uids)
  end.

Definition getattr (field : option str) (default : str) : str :=
  match field with Some v => v | None => default end.

(** [_analyze_dicom_folder]; [None] when the first file cannot be read. *)
Definition _analyze_dicom_folder (fs : FileSystem) (folder_path : str)
    (dicom_files : list str) : option DicomFolder :=
  match dicom_files with
  | [] => None
  | first :: _ =>
      match dcmread fs first with
      | None => None
      | Some dcm =>
          let (series_set, series_uids) :=
            fold_left (sample_file fs) (firstn 100 dicom_files) ([], []) in
          Some (mkDicomFolder
            folder_path
            (OsPath.basename folder_path)
            (strip (getattr (PatientID dcm) (lit "Unknown")))
            (strip (getattr (StudyDate dcm) (lit "")))
            (strip (getattr (StudyDescription dcm) (lit "")))
            (match series_uids with
             | [] => length series_set
             | _ => length series_uids
             end)
            (length dicom_files)
            (sorted series_set))
      end
  end.

(** The body of the [os.walk] loop of [scan_dicom_folders]. *)
Definition scan_dir (fs : FileSystem) (folders : dict DicomFolder)
    (entry : str * list str * list str) : dict DicomFolder :=
  let '(root, _, files) := entry in
  let dicom_files := filter (_is_dicom_file fs) (map (OsPath.join root) files) in
  match dicom_files with
  | [] => folders
  | _ =>
      match _analyze_dicom_folder fs root dicom_files with
      | Some folder_info => Dict.set root folder_info folders
      | None => folders
      end
  end.

(** [scan_dicom_folders] on an input directory whose content is [tree]. *)
Definition scan_dicom_folders (fs : FileSystem) (self : Converter)
    (tree : Dir) : dict DicomFolder :=
  fold_left (scan_dir fs) (os_walk (to_str (input_dir self)) tree) [].

(** The string of the seven invalid characters; 34 is the double quote. *)
Definition invalid_chars : str := lit "<>:" ++ [34%N] ++ lit "|?*".

Definition underscore : char := 95%N.

(** [_clean_path_name]. *)
Definition _clean_path_name (name : str) : str :=
  let name := fold_left (fun n c => replace c underscore n) invalid_chars name in
  let name := PyStr.join (lit " ") (split name) in
  strip name.

(** Exceptions (the subclasses of [Exception]). *)
Inductive exn := ValueError | OSError (msg : str) | Exception (msg : str).

Inductive result (A : Type) := Ok (a : A) | Raise (e : exn).
Arguments Ok {A} a.
Arguments Raise {A} e.

(** [_get_output_subdir]; [cwd] is the working directory of the process,
    which [os.path.relpath] consults for relative arguments. *)
Definition _get_output_subdir (cwd : str) (self : Converter)
    (folder_info : DicomFolder) : result Path :=
  if organize_by_folder self then
    match OsPath.relpath cwd (folder_path folder_info)
                         (to_str (input_dir self)) with
    | None => Raise ValueError
    | Some rel_path =>
        let rel_path := _clean_path_name rel_path in
        let rel_path :=
          if include_patient_info self && truthy (patient_id folder_info) then
            if negb (contains (patient_id folder_info) rel_path) then
              let parent := OsPath.dirname rel_path in
              let folder_name := OsPath.basename rel_path in
              let parts :=
                (if truthy (patient_id folder_info)
                 then [_clean_path_name (patient_id folder_info)] else [])
                ++ (if truthy (study_date folder_info)
                    then [study_date folder_info] else [])
                ++ [folder_name] in
              let new_folder_name := PyStr.join [underscore] parts in
              if truthy parent then OsPath.join parent new_folder_name
              else new_folder_name
            else rel_path
          else rel_path in
        Ok (truediv (output_dir self) rel_path)
    end
  else Ok (output_dir self).

(* ================================================================= *)
(** ** Conversion: state, log and the operating system *)

Record CompletedProcess := mkCompletedProcess {
  returncode : Z;
  stderr : str
}.

(** The records the conversion pass logs. *)
Inductive LogRecord :=
| InfoConverting (idx total : nat) (folder_name : str)
| InfoSuccess (generated : nat)
| ErrorConvertFailed (e : exn)
| WarnNoFolders
| DebugCommand (cmd : list str)
| WarnDcm2niix (stderr : str).

(** The lines the program writes with [print], one constructor for each
    [print] call of [_print_summary] (source lines 419 to 448),
    [print_folder_structure] (lines 453 to 470) and [main] (line 553),
    carrying the values the call formats into the line. *)
Inductive Printed :=
| PrintRule (blank_line_before : bool)
    (* 70 equals signs: lines 419, 448, 453, 470 with a blank line before,
       lines 421, 455 without *)
| PrintSummaryTitle                               (* line 420 *)
| PrintStatsTitle                                 (* line 427 *)
| PrintStatFolders (total_folders : nat)          (* line 428 *)
| PrintStatSuccess (success_folders : nat)        (* line 429 *)
| PrintStatFiles (total_files : nat)              (* line 430 *)
| PrintOutputDir (output_dir : str)               (* line 432 *)
| PrintDetailsTitle                               (* line 433 *)
| PrintConverted (rel_path : str)                 (* line 441 *)
| PrintFile (filename : str)                      (* line 444 *)
| PrintFailed (rel_path : str)                    (* line 446 *)
| PrintStructureTitle                             (* line 454 *)
| PrintFolder (rel_path : str)                    (* line 459 *)
| PrintPatientId (patient_id : str)               (* line 460 *)
| PrintStudyDate (study_date : str)               (* line 461 *)
| PrintStudyDescription (study_description : str) (* line 462 *)
| PrintFileCount (file_count : nat)               (* line 463 *)
| PrintSeriesCount (series_count : nat)           (* line 464 *)
| PrintSeries (is_last : bool) (desc : str)       (* line 468 *)
| PrintStart.                                     (* line 553 *)

Section Conversion.

(** The state of the machine outside the program (the output tree, the
    installed tools). *)
Variable World : Type.

Record St := mkSt { world : World; log : list LogRecord }.

(** A computation that reads and writes the state and returns or raises. *)
Definition M (A : Type) := St -> St * result A.

Definition ret {A} (a : A) : M A := fun s => (s, Ok a).

Definition bind {A B} (m : M A) (k : A -> M B) : M B :=
  fun s =>
    match m s with
    | (s', Ok a) => k a s'
    | (s', Raise e) => (s', Raise e)
    end.

(** [try: m; ok(...) except Exception as e: handler(e)]. *)
Definition try_except {A B} (m : M A) (ok : A -> M B) (handler : exn -> M B)
    : M B :=
  fun s =>
    match m s with
    | (s', Ok a) => ok a s'
    | (s', Raise e) => handler e s'
    end.

Definition emit (r : LogRecord) : M unit :=
  fun s => (mkSt (world s) (log s ++ [r]), Ok tt).

(** Lift an operation on the world. *)
Definition lift {A} (op : World -> World * result A) : M A :=
  fun s => let (w, r) := op (world s) in (mkSt w (log s), r).

Definition raise_result {A} (r : result A) : M A := fun s => (s, r).

(** What the program asks of the operating system:
    [mkdir p] is [p.mkdir(parents=True, exist_ok=True)];
    [subprocess_run cmd] is [subprocess.run(cmd, capture_output=True,
    text=True)]; [listdir d] gives the names of the entries of directory
    [d] in the order [Path.glob] meets them; [_convert_with_python] is the
    SimpleITK strategy, whose behaviour is left open; [print_raises p w]
    is the exception that [print] raises for the line [p] on machine [w]
    (a [UnicodeEncodeError] where standard output cannot encode the text,
    as for a name with a code point from U+D800 to U+DFFF; an [OSError]
    from the stream),
    [None] when the line is written.  What is written is not recorded. *)
Record OS := mkOS {
  mkdir : Path -> World -> World * result unit;
  subprocess_run : list str -> World -> World * result CompletedProcess;
  listdir : str -> World -> list str;
  _convert_with_python : str -> str -> DicomFolder -> M (list str);
  print_raises : Printed -> World -> option exn
}.

End Conversion.

Arguments ret {World A} a.
Arguments emit {World} r.
Arguments raise_result {World A} r.

Notation "x <- c1 ;; c2" := (bind c1 (fun x => c2))
  (at level 61, c1 at next level, right associativity).
Notation "c1 ;;; c2" := (bind c1 (fun _ => c2))
  (at level 61, right associativity).

Section Dispatcher.

Context {World : Type}.
Variable os : OS World.
Variable cwd : str.

(** [output_path.glob(pattern)] for the patterns [*.nii.gz] and [*.nii],
    as the list of [str(f)]. *)
Definition glob (output_folder : str) (suffix : str) (w : World) : list str :=
  map (fun name => to_str (truediv (parse output_folder) name))
      (filter (endswith suffix) (listdir os output_folder w)).

(** The [filename_format] of [_convert_with_dcm2niix]. *)
Definition filename_format (self : Converter) : str :=
  if include_patient_info self then lit "%p_%s_%d" else lit "%s_%d".

(** The [cmd] of [_convert_with_dcm2niix]. *)
Definition dcm2niix_cmd (self : Converter) (input_folder output_folder : str)
    : list str :=
  [lit "dcm2niix";
   lit "-z"; if compress self then lit "y" else lit "n";
   lit "-f"; filename_format self;
   lit "-o"; output_folder;
   lit "-b"; lit "y";
   input_folder].

Definition nifti_suffix (self : Converter) : str :=
  if compress self then lit ".nii.gz" else lit ".nii".

(** [_convert_with_dcm2niix]. *)
Definition _convert_with_dcm2niix (self : Converter)
    (input_folder output_folder : str) (folder_info : DicomFolder)
    : M World (list str) :=
  let cmd := dcm2niix_cmd self input_folder output_folder in
  emit (DebugCommand cmd) ;;;
  completed <- lift (subprocess_run os cmd) ;;
  (if negb (Z.eqb (returncode completed) 0)
   then emit (WarnDcm2niix (stderr completed))
   else ret tt) ;;;
  fun s => (s, Ok (glob output_folder (nifti_suffix self) (world s))).

(** [_convert_folder]. *)
Definition _convert_folder (self : Converter) (folder_info : DicomFolder)
    : M World (str * list str) :=
  output_subdir <- raise_result (_get_output_subdir cwd self folder_info) ;;
  lift (mkdir os output_subdir) ;;;
  converted_files <-
    (if use_dcm2niix self
     then _convert_with_dcm2niix self (folder_path folder_info)
                                (to_str output_subdir) folder_info
     else _convert_with_python os (folder_path folder_info)
                              (to_str output_subdir) folder_info) ;;
  ret (to_str output_subdir, converted_files).

(** The body of the loop of [convert_all], on the [idx]-th item. *)
Definition convert_item (self : Converter) (total idx : nat)
    (item : str * DicomFolder) (results : dict (list str))
    : M World (dict (list str)) :=
  let (folder_path, folder_info) := item in
  emit (InfoConverting idx total (folder_name folder_info)) ;;;
  try_except (_convert_folder self folder_info)
    (fun r =>
       let (output_subdir, converted_files) := r in
       let results := Dict.set output_subdir converted_files results in
       emit (InfoSuccess (length converted_files)) ;;;
       ret results)
    (fun e =>
       emit (ErrorConvertFailed e) ;;;
       ret (Dict.set folder_path [] results)).

Fixpoint convert_loop (self : Converter) (total idx : nat)
    (items : list (str * DicomFolder)) (results : dict (list str))
    : M World (dict (list str)) :=
  match items with
  | [] => ret results
  | item :: rest =>
      results <- convert_item self total idx item results ;;
      convert_loop self total (S idx) rest results
  end.

(** [print(...)]. *)
Definition print (p : Printed) : M World unit :=
  fun s =>
    match print_raises os p (world s) with
    | Some e => (s, Raise e)
    | None => (s, Ok tt)
    end.

(** The text [_print_summary] puts in place of the relative path [.]:
    an opening parenthesis, the code points U+6839 U+76EE U+5F55 and a
    closing parenthesis. *)
Definition root_label : str := [40; 26681; 30446; 24405; 41]%N.

(** [for f in files: print(... os.path.basename(f) ...)]. *)
Fixpoint print_files (files : list str) : M World unit :=
  match files with
  | [] => ret tt
  | f :: rest =>
      let filename := OsPath.basename f in
      print (PrintFile filename) ;;;
      print_files rest
  end.

(** [for output_folder, files in results.items(): ...] of
    [_print_summary]; [os.path.relpath] raises [ValueError] for an empty
    [output_folder]. *)
Fixpoint print_results (self : Converter) (items : dict (list str))
    : M World unit :=
  match items with
  | [] => ret tt
  | (output_folder, files) :: rest =>
      rel_path <-
        raise_result
          (match OsPath.relpath cwd output_folder
                                (to_str (output_dir self)) with
           | None => Raise ValueError
           | Some rel_path => Ok rel_path
           end) ;;
      let rel_path :=
        if str_eqb rel_path (lit ".") then root_label else rel_path in
      (match files with
       | _ :: _ =>
           print (PrintConverted rel_path) ;;;
           print_files files
       | [] => print (PrintFailed rel_path)
       end) ;;;
      print_results self rest
  end.

(** [_print_summary]. *)
Definition _print_summary (self : Converter) (results : dict (list str))
    : M World unit :=
  print (PrintRule true) ;;;
  print PrintSummaryTitle ;;;
  print (PrintRule false) ;;;
  let total_folders := length results in
  let total_files := list_sum (map (@length str) (Dict.values results)) in
  let success_folders :=
    length (filter (fun fl => 0 <? length fl) (Dict.values results)) in
  print PrintStatsTitle ;;;
  print (PrintStatFolders total_folders) ;;;
  print (PrintStatSuccess success_folders) ;;;
  print (PrintStatFiles total_files) ;;;
  print (PrintOutputDir (to_str (output_dir self))) ;;;
  print PrintDetailsTitle ;;;
  print_results self results ;;;
  print (PrintRule true).

(** [convert_all]; [tree] is the content of the input directory, read
    through [fs] when the scan has not been run yet. *)
Definition convert_all (fs : FileSystem) (tree : Dir) (self : Converter)
    : M World (dict (list str)) :=
  let folders :=
    if Dict.is_empty (dicom_folders self)
    then scan_dicom_folders fs self tree
    else dicom_folders self in
  if Dict.is_empty folders then
    emit WarnNoFolders ;;; ret []
  else
    results <- convert_loop self (length folders) 1 folders [] ;;
    _print_summary self results ;;;
    ret results.

End Dispatcher.

(* ================================================================= *)
(** ** Predicates used in the statements *)

(** The character [_clean_path_name] leaves in place of [c]. *)
Definition sanitize_char (c : char) : char :=
  if existsb (char_eqb c) invalid_chars then underscore else c.

Definition not_space (c : char) : bool := negb (is_space c).

(** Two adjacent whitespace characters somewhere in [s]. *)
Fixpoint has_space_run (s : str) : bool :=
  match s with
  | [] => false
  | x :: t =>
      match t with
      | [] => false
      | y :: _ => (is_space x && is_space y) || has_space_run t
      end
  end.

(** A word of [split]: non-empty and free of whitespace. *)
Definition is_word (w : str) : Prop :=
  w <> [] /\ forallb not_space w = true.

(** The entries of a dictionary stored under key [k]. *)
Definition entries_at {V} (k : str) (d : dict V) : list (str * V) :=
  filter (fun e => str_eqb k (fst e)) d.

(** The directories reachable from a directory [d] whose path is [top], each
    with its own path. *)
Inductive reaches : str -> Dir -> str -> Dir -> Prop :=
| reaches_here top d : reaches top d top d
| reaches_below top d sd p d' :
    In sd (subdirs d) ->
    reaches (OsPath.join top (dname sd)) sd p d' ->
    reaches top d p d'.

(** The paths of the imaging files directly under the directory [d] of path
    [p]. *)
Definition imaging_files (fs : FileSystem) (p : str) (d : Dir) : list str :=
  filter (_is_dicom_file fs) (map (OsPath.join p) (files d)).

(** The roots [os.walk] yields. *)
Definition walk_roots (top : str) (d : Dir) : list str :=
  map (fun e => fst (fst e)) (os_walk top d).

(** A file name: non-empty, without a slash. *)
Definition valid_name (n : str) : bool :=
  truthy n && negb (existsb (char_eqb OsPath.sep) n).

Fixpoint distinct (l : list str) : bool :=
  match l with
  | [] => true
  | x :: l' => negb (mem x l') && distinct l'
  end.

(** A snapshot of a real tree: the sub-directories of a directory have
    valid, pairwise different names. *)
Fixpoint wf_dir (d : Dir) : bool :=
  match d with
  | mkDir _ subs _ =>
      distinct (map dname subs)
      && forallb (fun sd => valid_name (dname sd) && wf_dir sd) subs
  end.

(** The scan property as the specification words it: every reachable
    directory with an imaging file has exactly one entry, whose file count
    is the number of its imaging files. *)
Definition scan_complete (fs : FileSystem) (self : Converter) (tree : Dir)
    : Prop :=
  forall p d,
    reaches (to_str (input_dir self)) tree p d ->
    imaging_files fs p d <> [] ->
    exists info,
      entries_at p (scan_dicom_folders fs self tree) = [(p, info)]
      /\ file_count info = length (imaging_files fs p d).

(** The separator [os.path.join] puts after [a]. *)
Definition joiner (a : str) : str :=
  if negb (truthy a) || endswith [OsPath.sep] a then [] else [OsPath.sep].

(** What the sampling loop keeps true of [series_set]. *)
Definition descriptions_ok (s : pyset) : Prop := NoDup s /\ ~ In [] s.

(** What the loop of [convert_all] keeps true of [results] in flat mode:
    the keys are distinct and every entry stored under another key than the
    output directory holds the empty list. *)
Definition flat_results (outkey : str) (results : dict (list str)) : Prop :=
  NoDup (Dict.keys results)
  /\ forall k v, In (k, v) results -> k <> outkey -> v = [].

(* ================================================================= *)
(** ** Concrete inputs *)

Module Demo.

(** An input tree: [P001/ScanA] holds three imaging files and a text
    file; [bad] holds one file with the DICM signature whose header
    cannot be parsed. *)
Definition tree : Dir :=
  mkDir (lit "in")
    [ mkDir (lit "P001")
        [ mkDir (lit "ScanA") []
            [lit "1.dcm"; lit "2.dcm"; lit "3.dcm"; lit "notes.txt"] ]
        [];
      mkDir (lit "bad") [] [lit "x.dcm"] ]
    [lit "README"].

(** Two of its directories, with their paths. *)
Definition scan_a_dir : Dir :=
  mkDir (lit "ScanA") []
        [lit "1.dcm"; lit "2.dcm"; lit "3.dcm"; lit "notes.txt"].

Definition bad : str := lit "/data/in/bad".

Definition bad_dir : Dir := mkDir (lit "bad") [] [lit "x.dcm"].

Definition header (desc : str) : Dataset :=
  mkDataset (Some (lit "P001 ")) (Some (lit "20240101")) None
            (Some (lit "1.2.840.1")) (Some desc).

Definition no_header : Dataset := mkDataset None None None None None.

Definition fs : FileSystem :=
  mkFileSystem
    (fun p =>
       if endswith (lit ".dcm") p then Some DICM
       else if endswith (lit ".txt") p then Some (lit "note")
       else None)
    (fun p =>
       if str_eqb p (lit "/data/in/bad/x.dcm") then None
       else if endswith (lit "1.dcm") p then Some (header (lit " T2 "))
       else if endswith (lit ".dcm") p then Some (header (lit "T1"))
       else Some no_header).

Definition self : Converter :=
  mkConverter (parse (lit "/data/in")) (parse (lit "/data/out"))
              true true true true [].

Definition scan_a : str := lit "/data/in/P001/ScanA".

Definition scan_a_info : DicomFolder :=
  mkDicomFolder scan_a (lit "ScanA") (lit "P001") (lit "20240101") (lit "")
                1 3 [lit "T1"; lit "T2"].

Definition digit (n : nat) : char := N.of_nat (48 + n).

(** The file [IMnnn]. *)
Definition image_name (i : nat) : str :=
  lit "/big/IM"
  ++ [digit (i / 100); digit ((i / 10) mod 10); digit (i mod 10)].

(** 150 imaging files. *)
Definition many_files : list str := map image_name (seq 0 150).

(** Files [IM000] to [IM099] belong to series T1, the later ones to a
    series LATE. *)
Definition many_fs : FileSystem :=
  mkFileSystem
    (fun _ => Some DICM)
    (fun p =>
       if startswith (lit "/big/IM0") p
       then Some (mkDataset (Some (lit "P7")) None None
                            (Some (lit "1.1")) (Some (lit "T1")))
       else Some (mkDataset (Some (lit "P8")) None None
                            (Some (lit "1.2")) (Some (lit "LATE")))).

Definition many_info : DicomFolder :=
  mkDicomFolder (lit "/big") (lit "big") (lit "P7") (lit "") (lit "")
                1 150 [lit "T1"].

End Demo.

(** A small machine for running the conversion pass: the world maps each
    existing directory to the names of its entries.  Creating
    [/data/out/locked] is refused; the converter writes one volume and its
    sidecar, named after the source folder, into the destination, and exits
    with status 1 unless the source folder is [ScanA]. *)
Module Toy.

Definition World := dict (list str).

Definition entries (d : str) (w : World) : list str :=
  match Dict.get d w with Some l => l | None => [] end.

Definition mkdir (p : Path) (w : World) : World * result unit :=
  if str_eqb (to_str p) (lit "/data/out/locked")
  then (w, Raise (OSError (lit "Permission denied")))
  else
    match Dict.get (to_str p) w with
    | Some _ => (w, Ok tt)
    | None => (Dict.set (to_str p) [] w, Ok tt)
    end.

Definition subprocess_run (cmd : list str) (w : World)
    : World * result CompletedProcess :=
  let compressed := str_eqb (nth 2 cmd []) (lit "y") in
  let out := nth 6 cmd [] in
  let src := OsPath.basename (nth 9 cmd []) in
  let volume := src ++ (if compressed then lit ".nii.gz" else lit ".nii") in
  let w' := Dict.set out (entries out w ++ [volume; src ++ lit ".json"]) w in
  (w', Ok (if str_eqb src (lit "ScanA")
           then mkCompletedProcess 0 (lit "")
           else mkCompletedProcess 1 (lit "Warning: slices skipped"))).

Definition os : OS World :=
  mkOS mkdir subprocess_run entries (fun _ _ _ => ret []) (fun _ _ => None).

Definition cwd : str := lit "/home/user".

Definition start : St World := mkSt [] [].

(** A second folder of the same patient, and a folder whose destination
    cannot be created. *)
Definition scan_b_info : DicomFolder :=
  mkDicomFolder (lit "/data/in/P001/ScanB") (lit "ScanB") (lit "P001")
                (lit "20240101") (lit "") 1 2 [lit "T2"].

Definition locked_info : DicomFolder :=
  mkDicomFolder (lit "/data/in/locked") (lit "locked") (lit "") (lit "")
                (lit "") 1 1 [].

(** A folder of a patient whose id is not part of the path. *)
Definition other_info : DicomFolder :=
  mkDicomFolder (lit "/data/in/P001/ScanA") (lit "ScanA") (lit "X:9")
                (lit "20240101") (lit "") 1 3 [lit "T1"].

(** A folder whose patient id starts with a slash; a folder below a
    directory named after a patient id that holds a colon; and a record
    with an empty [folder_path]. *)
Definition slash_info : DicomFolder :=
  mkDicomFolder (lit "/data/in/P001/ScanA") (lit "ScanA") (lit "/etc")
                (lit "20240101") (lit "") 1 3 [lit "T1"].

Definition colon_info : DicomFolder :=
  mkDicomFolder (lit "/data/in/P:1/scan") (lit "scan") (lit "P:1")
                (lit "20240101") (lit "") 1 3 [lit "T1"].

Definition unnamed_info : DicomFolder :=
  mkDicomFolder (lit "") (lit "") (lit "") (lit "") (lit "") 1 1 [].

Definition folders (l : list DicomFolder) : dict DicomFolder :=
  map (fun info => (folder_path info, info)) l.

(** The demo converter after a scan that found [l], with the folder
    mirroring switched by [organize]. *)
Definition converter (organize : bool) (l : list DicomFolder) : Converter :=
  mkConverter (parse (lit "/data/in")) (parse (lit "/data/out"))
              true true organize true (folders l).

(** A world where the destination of [ScanB] already holds a volume. *)
Definition used : St World :=
  mkSt [(lit "/data/out/P001/ScanB", [lit "old.nii.gz"; lit "old.json"])] [].

End Toy.

(* ================================================================= *)
(** ** Further predicates *)

(** What one directory of the walk adds to the scan. *)
Definition scan_entry (fs : FileSystem) (entry : str * list str * list str)
    : list (str * DicomFolder) :=
  let '(root, _, fl) := entry in
  match filter (_is_dicom_file fs) (map (OsPath.join root) fl) with
  | [] => []
  | dicom_files =>
      match _analyze_dicom_folder fs root dicom_files with
      | Some info => [(root, info)]
      | None => []
      end
  end.

(** A file among the sampled ones whose header parses. *)
Definition sampled_header (fs : FileSystem) (dicom_files : list str)
    (d : Dataset) : Prop :=
  exists p, In p (firstn 100 dicom_files) /\ dcmread fs p = Some d.

(** A segment of a parsed path: a valid name other than the dot. *)
Definition segment (x : str) : bool :=
  valid_name x && negb (str_eqb x OsPath.curdir).

(** The paths [parse] produces: a root of at most two slashes and a list
    of segments. *)
Definition wf_path (p : Path) : bool :=
  (str_eqb (root p) [] || str_eqb (root p) [OsPath.sep]
   || str_eqb (root p) [OsPath.sep; OsPath.sep])
  && forallb segment (tail p).

(** The entry [name] of the directory [p]. *)
Definition child (p : Path) (name : str) : Path :=
  mkPath (root p) (tail p ++ [name]).

(** A character that [_clean_path_name] keeps as it is. *)
Definition plain_char (c : char) : bool :=
  negb (is_space c) && negb (existsb (char_eqb c) invalid_chars).

(** A directory name that survives sanitizing and normalizing: a segment
    other than the double dot, made of plain characters. *)
Definition plain_name (x : str) : bool :=
  segment x && negb (str_eqb x OsPath.pardir) && forallb plain_char x.

(** An absolute, normalized path, as [Path.resolve()] returns it. *)
Definition resolved (p : Path) : bool :=
  str_eqb (root p) [OsPath.sep]
  && forallb (fun x => segment x && negb (str_eqb x OsPath.pardir)) (tail p).

(** The folders [convert_all] works on. *)
Definition folders_to_convert (fs : FileSystem) (tree : Dir)
    (self : Converter) : dict DicomFolder :=
  if Dict.is_empty (dicom_folders self)
  then scan_dicom_folders fs self tree
  else dicom_folders self.


(** A computation that leaves the state as it finds it. *)
Definition silent {World A : Type} (m : M World A) : Prop :=
  forall s, fst (m s) = s.

(** Every [print] call writes its line. *)
Definition console_ok {World : Type} (os : OS World) : Prop :=
  forall p w, print_raises os p w = None.

(** The keys [convert_all] can store for the folders [items]: the source
    path of a folder or the text of its destination. *)
Definition result_key (cwd : str) (self : Converter)
    (items : dict DicomFolder) (k : str) : Prop :=
  exists path info,
    In (path, info) items
    /\ (k = path
        \/ exists dest, _get_output_subdir cwd self info = Ok dest
                        /\ k = to_str dest).

(* ================================================================= *)
(** ** Construction and the command line *)

(** What the constructor asks of the machine besides [OS]:
    [resolve s] is [Path(s).resolve()], [path_exists p] is [p.exists()],
    and [is_FileNotFoundError e] tells whether the exception [e] is an
    instance of [FileNotFoundError]. *)
Record Host (World : Type) := mkHost {
  resolve : str -> World -> Path;
  path_exists : Path -> World -> bool;
  is_FileNotFoundError : exn -> bool
}.

Arguments resolve {World} h s w.
Arguments path_exists {World} h p w.
Arguments is_FileNotFoundError {World} h e.

(** The parsed command line. *)
Record Args := mkArgs {
  arg_input : str;
  arg_output : str;
  no_compress : bool;
  flat : bool;
  no_patient_info : bool;
  no_dcm2niix : bool;
  info_only : bool;
  verbose : bool
}.

Section Construction.

Context {World : Type}.
Variable host : Host World.
Variable os : OS World.

(** The command of [_check_dcm2niix]. *)
Definition probe_cmd : list str := [lit "dcm2niix"; lit "-v"].

(** [_check_dcm2niix]: the converter with its [use_dcm2niix] flag as the
    probe leaves it, and the returned boolean.  The lines it logs are not
    recorded. *)
Definition _check_dcm2niix (self : Converter) : M World (Converter * bool) :=
  fun s =>
    match subprocess_run os probe_cmd (world s) with
    | (w, Ok _) => (mkSt w (log s), Ok (self, true))
    | (w, Raise e) =>
        if is_FileNotFoundError host e then
          (mkSt w (log s),
           Ok (mkConverter (input_dir self) (output_dir self) (compress self)
                           false (organize_by_folder self)
                           (include_patient_info self) (dicom_folders self),
               false))
        else (mkSt w (log s), Raise e)
    end.

(** [DicomToNiftiConverter.__init__]. *)
Definition __init__ (input output : str)
    (compress use_dcm2niix organize_by_folder include_patient_info : bool)
    : M World Converter :=
  fun s =>
    let self :=
      mkConverter (resolve host input (world s))
                  (resolve host output (world s))
                  compress use_dcm2niix organize_by_folder
                  include_patient_info [] in
    if negb (path_exists host (input_dir self) (world s))
    then (s, Raise ValueError)
    else
      (lift (mkdir os (output_dir self)) ;;;
       if use_dcm2niix
       then r <- _check_dcm2niix self ;; ret (fst r)
       else ret self) s.

(** [for i, desc in enumerate(info.series_descriptions): print(...)]; the
    prefix of the line differs on the last description. *)
Fixpoint print_series (descs : list str) : M World unit :=
  match descs with
  | [] => ret tt
  | desc :: rest =>
      let is_last := match rest with [] => true | _ :: _ => false end in
      print os (PrintSeries is_last desc) ;;;
      print_series rest
  end.

(** [for folder_path, info in converter.dicom_folders.items(): ...] of
    [print_folder_structure]; [os.path.relpath] raises [ValueError] for an
    empty [folder_path]. *)
Fixpoint print_folders (cwd : str) (converter : Converter)
    (items : dict DicomFolder) : M World unit :=
  match items with
  | [] => ret tt
  | (folder_path, info) :: rest =>
      rel_path <-
        raise_result
          (match OsPath.relpath cwd folder_path
                                (to_str (input_dir converter)) with
           | None => Raise ValueError
           | Some rel_path => Ok rel_path
           end) ;;
      print os (PrintFolder rel_path) ;;;
      print os (PrintPatientId (patient_id info)) ;;;
      print os (PrintStudyDate (study_date info)) ;;;
      print os (PrintStudyDescription (study_description info)) ;;;
      print os (PrintFileCount (file_count info)) ;;;
      print os (PrintSeriesCount (series_count info)) ;;;
      print_series (series_descriptions info) ;;;
      print_folders cwd converter rest
  end.

(** [print_folder_structure]. *)
Definition print_folder_structure (cwd : str) (converter : Converter)
    : M World unit :=
  print os (PrintRule true) ;;;
  print os PrintStructureTitle ;;;
  print os (PrintRule false) ;;;
  print_folders cwd converter (dicom_folders converter) ;;;
  print os (PrintRule true).

(** [converter.scan_dicom_folders()]: the converter with the scan result
    stored in it. *)
Definition scanned (fs : FileSystem) (tree : Dir) (converter : Converter)
    : Converter :=
  mkConverter (input_dir converter) (output_dir converter)
              (compress converter) (use_dcm2niix converter)
              (organize_by_folder converter) (include_patient_info converter)
              (scan_dicom_folders fs converter tree).

(** The constructor call of [main]. *)
Definition construct (args : Args) : M World Converter :=
  __init__ (arg_input args) (arg_output args)
           (negb (no_compress args)) (negb (no_dcm2niix args))
           (negb (flat args)) (negb (no_patient_info args)).

(** [main], from the parsed arguments on: the final state and the exit
    status of the process.  [sys.exit] leaves through the [try] (it is no
    [Exception]); every [Exception] ends in [sys.exit(1)]; falling off the
    end is status 0.  Logging is not recorded. *)
Definition main (cwd : str) (fs : FileSystem) (tree : Dir) (args : Args)
    : St World -> St World * Z :=
  fun s =>
    match construct args s with
    | (s1, Raise _) => (s1, 1%Z)
    | (s1, Ok converter) =>
        let converter := scanned fs tree converter in
        if Dict.is_empty (dicom_folders converter) then (s1, 1%Z)
        else
          match print_folder_structure cwd converter s1 with
          | (s2, Raise _) => (s2, 1%Z)
          | (s2, Ok _) =>
              if info_only args then (s2, 0%Z)
              else
                match (print os PrintStart ;;;
                       convert_all os cwd fs tree converter) s2 with
                | (s3, Ok _) => (s3, 0%Z)
                | (s3, Raise _) => (s3, 1%Z)
                end
          end
    end.

End Construction.

(* ================================================================= *)
(** ** The fallback strategy *)

Module Fallback.

(** [s.replace(old, new)] for a non-empty [old]: the occurrences of [old]
    are replaced from left to right; [skip] counts the characters of an
    occurrence that are still to be dropped. *)
Fixpoint replace_from (old new : str) (skip : nat) (s : str) : str :=
  match s with
  | [] => []
  | c :: s' =>
      match skip with
      | S k => replace_from old new k s'
      | 0 =>
          if startswith old s
          then new ++ replace_from old new (length old - 1) s'
          else c :: replace_from old new 0 s'
      end
  end.

Definition replace_str (old new s : str) : str := replace_from old new 0 s.

Definition digit (n : nat) : char := N.of_nat (48 + n).

Fixpoint decimal_from (fuel n : nat) (acc : str) : str :=
  match fuel with
  | 0 => acc
  | S fuel' =>
      let acc' := digit (n mod 10) :: acc in
      if n / 10 =? 0 then acc' else decimal_from fuel' (n / 10) acc'
  end.

(** [str(n)] for a natural number. *)
Definition decimal (n : nat) : str := decimal_from (S n) n [].

(** [f"{z:03d}"]. *)
Definition format_03d (z : Z) : str :=
  let digits := decimal (Z.abs_nat z) in
  if (z <? 0)%Z
  then lit "-" ++ repeat 48%N (2 - length digits) ++ digits
  else repeat 48%N (3 - length digits) ++ digits.

(** The value of [getattr(dcm, 'SeriesNumber', 0)], by what the code does
    with it: an integer; a value that is no integer and counts as false
    ([None], an empty multi-value); or a value that counts as true and
    that the format [03d] rejects with an exception (a multi-valued
    series number, a decimal one). *)
Inductive series_number :=
| Integer (z : Z)
| Empty
| Unformattable.

(** [if series_num:]. *)
Definition is_true (series_num : series_number) : bool :=
  match series_num with
  | Integer z => negb (Z.eqb z 0)
  | Empty => false
  | Unformattable => true
  end.

(** What the fallback asks of the machine: whether [import SimpleITK]
    succeeds; the value of [getattr(dcm, 'SeriesNumber', 0)] for the header
    of a file; [os.path.exists]; and reading a series and writing the
    image ([reader.Execute()] then [sitk.WriteImage]). *)
Record Imaging (World : Type) := mkImaging {
  simpleitk : bool;
  SeriesNumber : str -> series_number;
  exists_ : str -> World -> bool;
  write_series : list str -> str -> World -> World * result unit
}.

Arguments simpleitk {World} i.
Arguments SeriesNumber {World} i p.
Arguments exists_ {World} i p w.
Arguments write_series {World} i files out w.

(** The paths [os.walk(input_folder)] gives the first loop, in order. *)
Definition walk_files (input_folder : str) (d : Dir) : list str :=
  flat_map (fun e => map (OsPath.join (fst (fst e))) (snd e))
           (os_walk input_folder d).

(** The body of the first loop: [series_files[series_uid].append(...)]. *)
Definition group_file (fs : FileSystem)
    (series_files : dict (list (str * Dataset))) (file_path : str)
    : dict (list (str * Dataset)) :=
  match dcmread fs file_path with
  | None => series_files
  | Some dcm =>
      match SeriesInstanceUID dcm with
      | Some series_uid =>
          let old :=
            match Dict.get series_uid series_files with
            | Some l => l
            | None => []
            end in
          Dict.set series_uid (old ++ [(file_path, dcm)]) series_files
      | None => series_files
      end
  end.

Section Strategy.

Context {World : Type}.
Variable img : Imaging World.
Variable fs : FileSystem.
Variable self : Converter.

(** [f"S{series_num:03d}"]: [None] when the format raises. *)
Definition format_series_num (series_num : series_number) : option str :=
  match series_num with
  | Integer z => Some (lit "S" ++ format_03d z)
  | Empty | Unformattable => None
  end.

(** The [output_name] of a series; [None] when formatting the series
    number raises. *)
Definition output_name (series_uid first_path : str) (dcm : Dataset)
    : option str :=
  let series_desc := strip (getattr (SeriesDescription dcm) (lit "")) in
  let series_num := SeriesNumber img first_path in
  let last_part :=
    if truthy series_desc then _clean_path_name series_desc
    else firstn 8 series_uid in
  if is_true series_num then
    match format_series_num series_num with
    | Some part => Some (PyStr.join (lit "_") ([part] ++ [last_part]))
    | None => None
    end
  else Some (PyStr.join (lit "_") ([] ++ [last_part])).

(** The [while os.path.exists(output_path)] loop, run for at most [fuel]
    rounds; [None] when it has not ended by then. *)
Fixpoint free_path (w : World) (base_path ext : str) (fuel counter : nat)
    (output_path : str) : option str :=
  if exists_ img output_path w then
    match fuel with
    | 0 => None
    | S fuel' =>
        free_path w base_path ext fuel' (S counter)
                  (base_path ++ lit "_" ++ decimal counter ++ ext)
    end
  else Some output_path.

(** The body of the second loop for one series: the new world and the path
    appended to [converted_files], if any; [None] when the collision loop
    has not ended within [fuel] rounds.  An exception anywhere in the body
    skips the series. *)
Definition convert_series (fuel : nat) (output_folder : str)
    (series : str * list (str * Dataset)) (w : World)
    : option (World * option str) :=
  let (series_uid, files_info) := series in
  match files_info with
  | [] => Some (w, None)
  | (first_path, dcm) :: _ =>
      match output_name series_uid first_path dcm with
      | None => Some (w, None)
      | Some output_name =>
          let ext := nifti_suffix self in
          let output_path := OsPath.join output_folder (output_name ++ ext) in
          let base_path := replace_str ext [] output_path in
          match free_path w base_path ext fuel 1 output_path with
          | None => None
          | Some output_path =>
              let file_paths := map fst files_info in
              match write_series img (sorted file_paths) output_path w with
              | (w', Ok _) => Some (w', Some output_path)
              | (w', Raise _) => Some (w', None)
              end
          end
      end
  end.

Fixpoint convert_each (fuel : nat) (output_folder : str)
    (series : dict (list (str * Dataset))) (w : World)
    (converted_files : list str) : option (World * list str) :=
  match series with
  | [] => Some (w, converted_files)
  | one :: rest =>
      match convert_series fuel output_folder one w with
      | None => None
      | Some (w', Some output_path) =>
          convert_each fuel output_folder rest w'
                       (converted_files ++ [output_path])
      | Some (w', None) =>
          convert_each fuel output_folder rest w' converted_files
      end
  end.

(** [_convert_with_python] on an input folder whose content is [tree]; the
    lines it logs are not recorded. *)
Definition _convert_with_python (fuel : nat) (input_folder : str) (tree : Dir)
    (output_folder : str) (w : World) : option (World * list str) :=
  if negb (simpleitk img) then Some (w, [])
  else
    let series_files :=
      fold_left (group_file fs) (walk_files input_folder tree) [] in
    convert_each fuel output_folder series_files w [].

End Strategy.

(** The files of the series [uid] among [paths], with their headers. *)
Definition series_members (fs : FileSystem) (uid : str) (paths : list str)
    : list (str * Dataset) :=
  flat_map (fun p =>
              match dcmread fs p with
              | Some dcm =>
                  match SeriesInstanceUID dcm with
                  | Some u => if str_eqb u uid then [(p, dcm)] else []
                  | None => []
                  end
              | None => []
              end) paths.

(** The [k]-th path the collision loop tries. *)
Definition candidate (base_path ext output_path : str) (k : nat) : str :=
  match k with
  | 0 => output_path
  | S _ => base_path ++ lit "_" ++ decimal k ++ ext
  end.

(** The path the collision loop tries in its [j]-th round when it starts
    with [counter]. *)
Definition round_path (base_path ext : str) (counter : nat)
    (output_path : str) (j : nat) : str :=
  match j with
  | 0 => output_path
  | S j' => base_path ++ lit "_" ++ decimal (counter + j') ++ ext
  end.

End Fallback.

(** More concrete inputs. *)
Module Cases.

(** The imaging files of [ScanA] in the demo tree. *)
Definition scan_a_files : list str :=
  [lit "/data/in/P001/ScanA/1.dcm"; lit "/data/in/P001/ScanA/2.dcm";
   lit "/data/in/P001/ScanA/3.dcm"].

(** The conversion of [ScanB] on the toy machine. *)
Definition scan_b_run : St Toy.World * result (str * list str) :=
  _convert_folder Toy.os Toy.cwd (Toy.converter true []) Toy.scan_b_info
                  Toy.start.

(** A host where paths are already resolved, only [/data/in] exists, and
    the missing-program error is the one with the message below. *)
Definition host : Host Toy.World :=
  mkHost (fun s _ => parse s)
         (fun p _ => str_eqb (to_str p) (lit "/data/in"))
         (fun e =>
            match e with
            | OSError msg => str_eqb msg (lit "No such file or directory")
            | _ => false
            end).

(** The toy machine with a converter that answers the version probe. *)
Definition os : OS Toy.World :=
  mkOS Toy.mkdir
       (fun cmd w =>
          if str_eqb (nth 1 cmd []) (lit "-v")
          then (w, Ok (mkCompletedProcess 0 (lit "")))
          else Toy.subprocess_run cmd w)
       Toy.entries
       (fun _ _ _ => ret [])
       (fun _ _ => None).

(** The same machine with a standard output that rejects the line of
    every folder name. *)
Definition os_strict : OS Toy.World :=
  mkOS (mkdir os) (subprocess_run os) (listdir os) (_convert_with_python os)
       (fun p _ =>
          match p with
          | PrintFolder _ => Some (Exception (lit "UnicodeEncodeError"))
          | _ => None
          end).

(** A world entry [d/n] exists when [n] is listed under [d]; writing a
    series adds the volume to its directory. *)
Definition imaging (series_num : Fallback.series_number)
    : Fallback.Imaging Toy.World :=
  Fallback.mkImaging true
    (fun _ => series_num)
    (fun p w =>
       existsb (str_eqb (OsPath.basename p)) (Toy.entries (OsPath.dirname p) w))
    (fun _ out w =>
       (Dict.set (OsPath.dirname out)
                 (Toy.entries (OsPath.dirname out) w ++ [OsPath.basename out]) w,
        Ok tt)).

(** Every header carries the series number 3. *)
Definition img : Fallback.Imaging Toy.World := imaging (Fallback.Integer 3).

(** Every header carries a multi-valued series number. *)
Definition img_multi : Fallback.Imaging Toy.World :=
  imaging Fallback.Unformattable.

(** A destination that already holds two volumes of the series T1. *)
Definition taken : Toy.World :=
  [(lit "/data/out", [lit "S003_T1.nii.gz"; lit "S003_T1_1.nii.gz"])].

(** One series of two files, and the input folder that holds them. *)
Definition series_t1 : str * list (str * Dataset) :=
  (lit "1.2.840.1",
   [(lit "/data/in/P001/ScanA/2.dcm", Demo.header (lit "T1"));
    (lit "/data/in/P001/ScanA/3.dcm", Demo.header (lit "T1"))]).

(** The demo converter with [--no-patient-info]. *)
Definition plain : Converter :=
  mkConverter (parse (lit "/data/in")) (parse (lit "/data/out"))
              true true true false [].

Definition args (info : bool) : Args :=
  mkArgs (lit "/data/in") (lit "/data/out") false false false false info false.

End Cases.

(* ================================================================= *)
(** * Properties *)

(** ** Strings *)

Lemma char_eqb_eq (a b : char) : char_eqb a b = true <-> a = b.
Proof. apply N.eqb_eq. Qed.

Lemma str_eqb_eq (a b : str) : str_eqb a b = true <-> a = b.
Proof.
  revert b; induction a as [|x a IH]; intros [|y b]; simpl; split;
    try congruence; try reflexivity.
  - intros H. apply andb_true_iff in H as [Hx Hab].
    apply char_eqb_eq in Hx. apply IH in Hab. congruence.
  - intros H. injection H as -> ->.
    apply andb_true_iff. split; [apply char_eqb_eq | apply IH]; reflexivity.
Qed.

Lemma str_eqb_refl (a : str) : str_eqb a a = true.
Proof. now apply str_eqb_eq. Qed.

Lemma str_eqb_neq (a b : str) : str_eqb a b = false <-> a <> b.
Proof.
  split.
  - intros H E. apply str_eqb_eq in E. congruence.
  - intros H. destruct (str_eqb a b) eqn:E; [|reflexivity].
    apply str_eqb_eq in E. contradiction.
Qed.

Lemma startswith_nil (s : str) : startswith [] s = true.
Proof. destruct s; reflexivity. Qed.

(** The empty string is a substring of every string. *)
Lemma contains_nil (s : str) : contains [] s = true.
Proof. destruct s; reflexivity. Qed.

Example split_example :
  split (lit "  T1  MPRAGE sag ") = [lit "T1"; lit "MPRAGE"; lit "sag"].
Proof. reflexivity. Qed.

Example split_on_example :
  split_on OsPath.sep (lit "/data//in")
  = [lit ""; lit "data"; lit ""; lit "in"].
Proof. reflexivity. Qed.

Example strip_example : strip (lit "  a b  ") = lit "a b".
Proof. reflexivity. Qed.

Example contains_example :
  contains (lit "P01") (lit "x/P01_scan") = true /\
  contains (lit "P:1") (lit "x/P_1") = false.
Proof. split; reflexivity. Qed.

Example sorted_example :
  sorted [lit "T2"; lit "DWI"; lit "T1"] = [lit "DWI"; lit "T1"; lit "T2"].
Proof. reflexivity. Qed.

(** *** [split], [join] and [strip] *)

Lemma split_words (s : str) : Forall is_word (split s).
Proof.
  induction s as [|c s IH]; simpl; [constructor|].
  destruct (is_space c) eqn:Hc; [exact IH|].
  assert (Hw : is_word [c]).
  { split; [discriminate|]. simpl. unfold not_space. now rewrite Hc. }
  destruct (head_is_word s).
  - destruct (split s) as [|w ws]; simpl; [constructor; [exact Hw|constructor]|].
    inversion IH as [|? ? [Hne Hall] Hws]; subst.
    constructor; [|exact Hws].
    split; [discriminate|]. simpl. unfold not_space at 1. now rewrite Hc.
  - constructor; assumption.
Qed.

Lemma concat_push (c : char) (ws : list str) :
  concat (push c ws) = c :: concat ws.
Proof. destruct ws; reflexivity. Qed.

Lemma concat_split (s : str) : concat (split s) = filter not_space s.
Proof.
  induction s as [|c s IH]; simpl; [reflexivity|].
  unfold not_space at 1.
  destruct (is_space c); simpl; [exact IH|].
  destruct (head_is_word s); [rewrite concat_push|simpl]; now rewrite IH.
Qed.

Lemma filter_word (w : str) :
  forallb not_space w = true -> filter not_space w = w.
Proof.
  induction w as [|c w IH]; simpl; [reflexivity|].
  intros H. apply andb_true_iff in H as [Hc Hw].
  rewrite Hc. now rewrite IH.
Qed.

Lemma filter_join_space (ws : list str) :
  Forall is_word ws ->
  filter not_space (PyStr.join (lit " ") ws) = concat ws.
Proof.
  induction 1 as [|w ws [_ Hw] Hws IH]; [reflexivity|].
  destruct ws as [|w2 ws].
  - simpl. rewrite app_nil_r. now apply filter_word.
  - change (PyStr.join (lit " ") (w :: w2 :: ws))
      with (w ++ lit " " ++ PyStr.join (lit " ") (w2 :: ws)).
    rewrite !filter_app, IH, (filter_word _ Hw). reflexivity.
Qed.

Lemma has_space_run_word (w t : str) :
  forallb not_space w = true -> has_space_run (w ++ t) = has_space_run t.
Proof.
  induction w as [|c w IH]; simpl; [reflexivity|].
  intros H. apply andb_true_iff in H as [Hc Hw].
  unfold not_space in Hc. apply negb_true_iff in Hc.
  rewrite Hc. simpl. rewrite (IH Hw).
  destruct (w ++ t) eqn:E; [|reflexivity].
  apply app_eq_nil in E as [_ ->]. reflexivity.
Qed.

Lemma join_head_word (ws : list str) :
  Forall is_word ws -> ws <> [] ->
  head_is_word (PyStr.join (lit " ") ws) = true.
Proof.
  intros H Hne. destruct H as [|w ws [Hw Hall] Hws]; [contradiction|].
  destruct w as [|c w]; [contradiction|].
  simpl in Hall. apply andb_true_iff in Hall as [Hc _].
  destruct ws; simpl; exact Hc.
Qed.

Lemma join_no_space_run (ws : list str) :
  Forall is_word ws -> has_space_run (PyStr.join (lit " ") ws) = false.
Proof.
  induction 1 as [|w ws [Hne Hw] Hws IH]; [reflexivity|].
  destruct ws as [|w2 ws].
  - simpl. rewrite <- (app_nil_r w). now rewrite has_space_run_word.
  - change (PyStr.join (lit " ") (w :: w2 :: ws))
      with (w ++ lit " " ++ PyStr.join (lit " ") (w2 :: ws)).
    rewrite (has_space_run_word _ _ Hw).
    pose proof (join_head_word Hws ltac:(discriminate)) as Hh.
    destruct (PyStr.join (lit " ") (w2 :: ws)) as [|y t] eqn:E;
      [discriminate|].
    simpl in Hh. apply negb_true_iff in Hh.
    change (lit " " ++ y :: t) with (32%N :: y :: t).
    change (has_space_run (32%N :: y :: t))
      with ((is_space 32%N && is_space y) || has_space_run (y :: t)).
    rewrite Hh, andb_false_r. exact IH.
Qed.

Lemma join_ends_with_last (sep : str) (ws : list str) (w : str) :
  exists prefix, PyStr.join sep (ws ++ [w]) = prefix ++ w.
Proof.
  induction ws as [|v ws [p IH]]; [exists []; reflexivity|].
  destruct ws as [|v2 ws].
  - exists (v ++ sep). simpl. now rewrite <- app_assoc.
  - exists (v ++ sep ++ p).
    change (PyStr.join sep ((v :: v2 :: ws) ++ [w]))
      with (v ++ sep ++ PyStr.join sep ((v2 :: ws) ++ [w])).
    rewrite IH. now rewrite <- !app_assoc.
Qed.

Lemma lstrip_word_head (s : str) : head_is_word s = true -> lstrip s = s.
Proof.
  destruct s as [|c s]; [reflexivity|]. simpl.
  intros H. apply negb_true_iff in H. now rewrite H.
Qed.

Lemma strip_join_space (ws : list str) :
  Forall is_word ws ->
  strip (PyStr.join (lit " ") ws) = PyStr.join (lit " ") ws.
Proof.
  intros H. destruct ws as [|w0 ws0] eqn:Ews; [reflexivity|].
  rewrite <- Ews in *. assert (Hne : ws <> []) by (subst; discriminate).
  unfold strip, rstrip.
  rewrite (lstrip_word_head _ (join_head_word H Hne)).
  destruct (exists_last Hne) as [front [w Efront]].
  destruct (join_ends_with_last (lit " ") front w) as [p Ep].
  rewrite Efront, Ep, rev_app_distr.
  assert (Hw : is_word w).
  { rewrite Efront in H. apply Forall_app in H as [_ H].
    now inversion H. }
  destruct Hw as [Hwne Hwall].
  rewrite lstrip_word_head; [now rewrite <- rev_app_distr, rev_involutive|].
  destruct (rev w) as [|c r] eqn:Er.
  - apply (f_equal (@rev char)) in Er. rewrite rev_involutive in Er.
    contradiction.
  - simpl. rewrite forallb_forall in Hwall.
    apply (Hwall c). apply in_rev. rewrite Er. now left.
Qed.

(** ** [_clean_path_name] *)

Lemma replace_invalid_chars (name : str) :
  fold_left (fun n c => replace c underscore n) invalid_chars name
  = map sanitize_char name.
Proof.
  unfold invalid_chars. simpl. unfold replace. rewrite !map_map.
  apply map_ext. intros c. unfold sanitize_char, char_eqb, underscore. simpl.
  repeat match goal with
         | |- context [N.eqb c ?k] =>
             destruct (N.eqb_spec c k); [subst c; reflexivity|]; simpl
         end.
  reflexivity.
Qed.

Lemma sanitize_char_valid (c : char) : ~ In (sanitize_char c) invalid_chars.
Proof.
  unfold sanitize_char. destruct (existsb (char_eqb c) invalid_chars) eqn:E.
  - unfold underscore, invalid_chars. simpl. intuition discriminate.
  - intros Hin.
    assert (existsb (char_eqb c) invalid_chars = true); [|congruence].
    apply existsb_exists. exists c. split; [exact Hin|now apply char_eqb_eq].
Qed.

Lemma sanitize_char_space (c : char) : is_space (sanitize_char c) = is_space c.
Proof.
  unfold sanitize_char. destruct (existsb (char_eqb c) invalid_chars) eqn:E;
    [|reflexivity].
  apply existsb_exists in E as [x [Hin Hx]]. apply char_eqb_eq in Hx. subst x.
  unfold invalid_chars in Hin. simpl in Hin.
  repeat (destruct Hin as [<-|Hin]; [reflexivity|]). contradiction.
Qed.

Lemma filter_not_space_sanitize (s : str) :
  filter not_space (map sanitize_char s)
  = map sanitize_char (filter not_space s).
Proof.
  induction s as [|c s IH]; simpl; [reflexivity|].
  assert (E : not_space (sanitize_char c) = not_space c).
  { unfold not_space. now rewrite sanitize_char_space. }
  rewrite E. destruct (not_space c); simpl; now rewrite IH.
Qed.

Lemma clean_path_name_eq (name : str) :
  _clean_path_name name = PyStr.join (lit " ") (split (map sanitize_char name)).
Proof.
  unfold _clean_path_name. rewrite replace_invalid_chars.
  apply strip_join_space, split_words.
Qed.

Lemma in_join_space (ws : list str) (c : char) :
  In c (PyStr.join (lit " ") ws) -> c = 32%N \/ In c (concat ws).
Proof.
  induction ws as [|w ws IH]; simpl; [tauto|].
  destruct ws as [|w2 ws].
  - rewrite app_nil_r. tauto.
  - intros H. apply in_app_or in H as [H|H]; [right; apply in_or_app; tauto|].
    destruct H as [H|H]; [left; now symmetry|].
    destruct (IH H) as [->|H']; [now left|].
    right. apply in_or_app. now right.
Qed.

(** C9: for every input string, [_clean_path_name] replaces every occurrence
    of the seven characters < > : double-quote | ? * by an underscore,
    collapses every run of whitespace to a single space and trims: the
    result contains none of the seven characters, has no two adjacent
    whitespace characters, is unchanged by [strip], and its non-whitespace
    characters are those of the input, in order, with the seven characters
    replaced by underscores. *)
Theorem clean_path_name_sanitized (name : str) :
  let r := _clean_path_name name in
  (forall c, In c invalid_chars -> ~ In c r)
  /\ has_space_run r = false
  /\ strip r = r
  /\ filter not_space r = map sanitize_char (filter not_space name)
  /\ r = PyStr.join (lit " ") (split (map sanitize_char name)).
Proof.
  intros r. subst r. rewrite clean_path_name_eq.
  pose proof (split_words (map sanitize_char name)) as Hw.
  repeat split.
  - intros c Hc Hin. apply in_join_space in Hin as [->|Hin].
    + unfold invalid_chars in Hc. simpl in Hc. intuition discriminate.
    + rewrite concat_split in Hin. apply filter_In in Hin as [Hin _].
      apply in_map_iff in Hin as [x [<- _]].
      now apply (sanitize_char_valid x).
  - now apply join_no_space_run.
  - now apply strip_join_space.
  - rewrite (filter_join_space Hw), concat_split.
    apply filter_not_space_sanitize.
Qed.

Example clean_path_name_example :
  _clean_path_name (lit "  T1: MPRAGE   <sag>? ") = lit "T1_ MPRAGE _sag__".
Proof. reflexivity. Qed.

(** ** [sorted] and sets *)

Lemma leb_total (a b : str) : leb a b = true \/ leb b a = true.
Proof.
  revert b; induction a as [|x a IH]; intros [|y b]; simpl; auto.
  destruct (N.ltb_spec x y), (N.ltb_spec y x); auto; try lia.
  assert (x = y) by lia. subst y. rewrite N.eqb_refl. apply IH.
Qed.

Lemma leb_trans (a b c : str) :
  leb a b = true -> leb b c = true -> leb a c = true.
Proof.
  revert b c; induction a as [|x a IH]; intros [|y b] [|z c]; simpl;
    try congruence.
  destruct (N.ltb_spec x y), (N.ltb_spec y z), (N.ltb_spec x z);
    try reflexivity; try lia;
    destruct (N.eqb_spec x y), (N.eqb_spec y z), (N.eqb_spec x z);
    try congruence; try lia.
  apply IH.
Qed.

Lemma insert_sorted_perm (x : str) (l : list str) :
  Permutation (insert_sorted x l) (x :: l).
Proof.
  induction l as [|y l IH]; simpl; [reflexivity|].
  destruct (leb x y); [reflexivity|].
  rewrite IH. apply perm_swap.
Qed.

Lemma sorted_perm (l : list str) : Permutation (sorted l) l.
Proof.
  induction l as [|x l IH]; simpl; [reflexivity|].
  rewrite insert_sorted_perm. now constructor.
Qed.

Lemma insert_sorted_sorted (x : str) (l : list str) :
  StronglySorted PyStr.le l -> StronglySorted PyStr.le (insert_sorted x l).
Proof.
  induction 1 as [|y l Hl IH Hy]; simpl; [repeat constructor|].
  destruct (leb x y) eqn:E.
  - constructor; [now constructor|].
    constructor; [exact E|].
    eapply Forall_impl; [|exact Hy].
    intros z Hz. exact (leb_trans _ _ _ E Hz).
  - constructor; [exact IH|].
    assert (Hyx : PyStr.le y x).
    { destruct (leb_total x y) as [H|H]; [congruence|exact H]. }
    eapply Permutation_Forall; [symmetry; apply insert_sorted_perm|].
    now constructor.
Qed.

Lemma sorted_sorted (l : list str) : StronglySorted PyStr.le (sorted l).
Proof.
  induction l as [|x l IH]; simpl; [constructor|].
  now apply insert_sorted_sorted.
Qed.

Lemma mem_In (x : str) (s : pyset) : mem x s = true <-> In x s.
Proof.
  unfold mem. rewrite existsb_exists. split.
  - intros [y [Hy E]]. apply str_eqb_eq in E. now subst.
  - intros H. exists x. split; [exact H|apply str_eqb_refl].
Qed.

Lemma add_In (x y : str) (s : pyset) : In y (add x s) <-> y = x \/ In y s.
Proof.
  unfold add. destruct (mem x s) eqn:E.
  - apply mem_In in E. split; [tauto|]. intros [->|H]; assumption.
  - rewrite in_app_iff. simpl. split; [intros [H|[H|[]]]|intros [H|H]]; auto.
Qed.

Lemma add_NoDup (x : str) (s : pyset) : NoDup s -> NoDup (add x s).
Proof.
  intros H. unfold add. destruct (mem x s) eqn:E; [exact H|].
  assert (Hx : ~ In x s).
  { intros Hin. apply mem_In in Hin. congruence. }
  apply NoDup_rev in H. rewrite <- (rev_involutive (s ++ [x])).
  apply NoDup_rev. rewrite rev_app_distr. simpl.
  constructor; [|exact H]. now rewrite <- in_rev.
Qed.

(** ** [_analyze_dicom_folder] *)


Lemma sample_file_ok (fs : FileSystem) (acc : pyset * pyset) (p : str) :
  descriptions_ok (fst acc) -> descriptions_ok (fst (sample_file fs acc p)).
Proof.
  destruct acc as [series_set series_uids]. unfold sample_file. simpl.
  intros [Hnd Hne].
  destruct (dcmread fs p) as [d|]; [|now split].
  destruct (SeriesDescription d) as [v|]; simpl; [|now split].
  destruct (strip v) as [|c desc] eqn:E; simpl; [now split|].
  split; [now apply add_NoDup|].
  rewrite add_In. intros [H|H]; [discriminate|contradiction].
Qed.

Lemma sample_files_ok (fs : FileSystem) (ps : list str) (acc : pyset * pyset) :
  descriptions_ok (fst acc) ->
  descriptions_ok (fst (fold_left (sample_file fs) ps acc)).
Proof.
  revert acc; induction ps as [|p ps IH]; intros acc H; simpl; [exact H|].
  apply IH. now apply sample_file_ok.
Qed.

Lemma analyze_descriptions (fs : FileSystem) (path : str) (fl : list str)
    (info : DicomFolder) :
  _analyze_dicom_folder fs path fl = Some info ->
  NoDup (series_descriptions info)
  /\ ~ In [] (series_descriptions info)
  /\ StronglySorted PyStr.le (series_descriptions info).
Proof.
  unfold _analyze_dicom_folder. destruct fl as [|first rest]; [discriminate|].
  destruct (dcmread fs first) as [dcm|]; [|discriminate].
  pose proof (@sample_files_ok fs (firstn 100 (first :: rest)) ([], [])) as Hok.
  destruct (fold_left (sample_file fs) (firstn 100 (first :: rest)) ([], []))
    as [series_set series_uids].
  intros [= <-]. simpl.
  destruct Hok as [Hnd Hne]; [split; [constructor|intros []]|].
  simpl in Hnd, Hne. repeat split.
  - eapply Permutation_NoDup; [symmetry; apply sorted_perm|exact Hnd].
  - intros H. apply Hne. eapply Permutation_in; [apply sorted_perm|exact H].
  - apply sorted_sorted.
Qed.

(** ** Dictionaries *)

Lemma set_In {V} (k k' : str) (v v' : V) (d : dict V) :
  In (k, v) (Dict.set k' v' d) -> (k = k' /\ v = v') \/ In (k, v) d.
Proof.
  induction d as [|[k0 v0] d IH]; simpl.
  - intros [[= <- <-]|[]]. now left.
  - destruct (str_eqb k' k0) eqn:E.
    + apply str_eqb_eq in E. subst k0.
      intros [[= <- <-]|H]; [now left|right; now right].
    + intros [H|H]; [right; now left|].
      destruct (IH H) as [H'|H']; [now left|right; now right].
Qed.

Lemma set_keys {V} (k : str) (v : V) (d : dict V) :
  forall x, In x (Dict.keys (Dict.set k v d)) <-> x = k \/ In x (Dict.keys d).
Proof.
  intros x. induction d as [|[k0 v0] d IH]; simpl.
  - intuition congruence.
  - destruct (str_eqb k k0) eqn:E; simpl.
    + apply str_eqb_eq in E. subst k0. intuition congruence.
    + rewrite IH. intuition congruence.
Qed.

Lemma set_keys_NoDup {V} (k : str) (v : V) (d : dict V) :
  NoDup (Dict.keys d) -> NoDup (Dict.keys (Dict.set k v d)).
Proof.
  induction d as [|[k0 v0] d IH]; simpl; intros H.
  - repeat constructor. intros [].
  - destruct (str_eqb k k0) eqn:E; simpl; [exact H|].
    inversion H as [|? ? Hk0 Hd]; subst. constructor; [|now apply IH].
    fold (Dict.keys (Dict.set k v d)). rewrite set_keys.
    intros [->|Hin]; [|contradiction].
    rewrite str_eqb_refl in E. discriminate.
Qed.

Lemma get_set_eq {V} (k : str) (v : V) (d : dict V) :
  Dict.get k (Dict.set k v d) = Some v.
Proof.
  induction d as [|[k0 v0] d IH]; simpl; [now rewrite str_eqb_refl|].
  destruct (str_eqb k k0) eqn:E; simpl; rewrite E; [reflexivity|exact IH].
Qed.

Lemma get_set_ne {V} (k k' : str) (v : V) (d : dict V) :
  k <> k' -> Dict.get k (Dict.set k' v d) = Dict.get k d.
Proof.
  intros Hne. induction d as [|[k0 v0] d IH]; simpl.
  - apply str_eqb_neq in Hne. now rewrite Hne.
  - destruct (str_eqb k' k0) eqn:E; simpl.
    + apply str_eqb_eq in E. subst k0.
      apply str_eqb_neq in Hne. now rewrite Hne.
    + now rewrite IH.
Qed.

Lemma entries_at_absent {V} (k : str) (d : dict V) :
  ~ In k (Dict.keys d) -> entries_at k d = [].
Proof.
  induction d as [|[k0 v0] d IH]; simpl; [reflexivity|].
  intros H. destruct (str_eqb k k0) eqn:E.
  - apply str_eqb_eq in E. subst. exfalso. apply H. now left.
  - apply IH. intros Hin. apply H. now right.
Qed.

(** A key that is looked up successfully has exactly one entry. *)
Lemma entries_at_get {V} (k : str) (v : V) (d : dict V) :
  NoDup (Dict.keys d) -> Dict.get k d = Some v -> entries_at k d = [(k, v)].
Proof.
  induction d as [|[k0 v0] d IH]; simpl; [discriminate|].
  intros Hnd Hget. inversion Hnd as [|? ? Hk0 Hd]; subst.
  destruct (str_eqb k k0) eqn:E.
  - apply str_eqb_eq in E. subst k0. injection Hget as ->.
    now rewrite (entries_at_absent _ _ Hk0).
  - now apply IH.
Qed.

(** ** [scan_dicom_folders] *)

Lemma reaches_walk (top : str) (d : Dir) (p : str) (d' : Dir) :
  reaches top d p d' ->
  In (p, map dname (subdirs d'), files d') (os_walk top d).
Proof.
  induction 1 as [top d|top d sd p d' Hsd _ IH].
  - destruct d; now left.
  - destruct d as [n subs fl]. simpl in *. right.
    apply in_flat_map. exists sd. split; assumption.
Qed.

(** Every entry of a scan was built by [_analyze_dicom_folder] for its key. *)
Lemma scan_fold_analyzed (fs : FileSystem)
    (walk : list (str * list str * list str)) (acc : dict DicomFolder)
    (p : str) (info : DicomFolder) :
  In (p, info) (fold_left (scan_dir fs) walk acc) ->
  In (p, info) acc
  \/ exists fl, _analyze_dicom_folder fs p fl = Some info.
Proof.
  revert acc; induction walk as [|[[root dirs] fl] walk IH]; intros acc;
    simpl; [now left|].
  intros H. destruct (IH _ H) as [Hacc|Hex]; [|now right].
  unfold scan_dir in Hacc.
  destruct (filter (_is_dicom_file fs) (map (OsPath.join root) fl))
    as [|f dicom_files] eqn:E; [now left|].
  destruct (_analyze_dicom_folder fs root (f :: dicom_files)) as [fi|] eqn:Ea;
    [|now left].
  apply set_In in Hacc as [[-> ->]|Hacc]; [right|now left].
  now exists (f :: dicom_files).
Qed.

Lemma scan_fold_keys_NoDup (fs : FileSystem)
    (walk : list (str * list str * list str)) (acc : dict DicomFolder) :
  NoDup (Dict.keys acc) ->
  NoDup (Dict.keys (fold_left (scan_dir fs) walk acc)).
Proof.
  revert acc; induction walk as [|[[root dirs] fl] walk IH]; intros acc H;
    simpl; [exact H|].
  apply IH. unfold scan_dir.
  destruct (filter (_is_dicom_file fs) (map (OsPath.join root) fl))
    as [|f dicom_files]; [exact H|].
  destruct (_analyze_dicom_folder fs root (f :: dicom_files)); [|exact H].
  now apply set_keys_NoDup.
Qed.

(** An entry survives the rest of the walk when no later directory has its
    path. *)
Lemma scan_fold_get_kept (fs : FileSystem)
    (walk : list (str * list str * list str)) (acc : dict DicomFolder)
    (p : str) :
  ~ In p (map (fun e => fst (fst e)) walk) ->
  Dict.get p (fold_left (scan_dir fs) walk acc) = Dict.get p acc.
Proof.
  revert acc; induction walk as [|[[root dirs] fl] walk IH]; intros acc Hp;
    simpl; [reflexivity|].
  simpl in Hp. rewrite IH by tauto.
  unfold scan_dir.
  destruct (filter (_is_dicom_file fs) (map (OsPath.join root) fl))
    as [|f dicom_files]; [reflexivity|].
  destruct (_analyze_dicom_folder fs root (f :: dicom_files)); [|reflexivity].
  apply get_set_ne. intros ->. tauto.
Qed.

Lemma scan_fold_get (fs : FileSystem)
    (walk : list (str * list str * list str)) (acc : dict DicomFolder)
    (p : str) (dirs fl : list str) (info : DicomFolder) :
  NoDup (map (fun e => fst (fst e)) walk) ->
  In (p, dirs, fl) walk ->
  filter (_is_dicom_file fs) (map (OsPath.join p) fl) <> [] ->
  _analyze_dicom_folder fs p
    (filter (_is_dicom_file fs) (map (OsPath.join p) fl)) = Some info ->
  Dict.get p (fold_left (scan_dir fs) walk acc) = Some info.
Proof.
  revert acc; induction walk as [|[[root dirs0] fl0] walk IH]; intros acc Hnd Hin
    Hne Han; [contradiction|].
  simpl in Hnd. inversion Hnd as [|? ? Hroot Hnd']; subst.
  destruct Hin as [[= -> -> ->]|Hin].
  - simpl. rewrite scan_fold_get_kept by exact Hroot.
    unfold scan_dir. rewrite Han.
    destruct (filter (_is_dicom_file fs) (map (OsPath.join p) fl));
      [contradiction|].
    apply get_set_eq.
  - simpl. now apply IH.
Qed.

Lemma analyze_succeeds (fs : FileSystem) (path first : str) (rest : list str) :
  dcmread fs first <> None ->
  exists info,
    _analyze_dicom_folder fs path (first :: rest) = Some info
    /\ file_count info = length (first :: rest)
    /\ folder_path info = path.
Proof.
  intros H. unfold _analyze_dicom_folder.
  destruct (dcmread fs first) as [dcm|]; [|contradiction].
  destruct (fold_left (sample_file fs) (firstn 100 (first :: rest)) ([], []))
    as [series_set series_uids].
  eexists. split; [reflexivity|]. split; reflexivity.
Qed.

(** C10: every [DicomFolder] in the result of a scan has a
    [series_descriptions] list without duplicates, without the empty
    string, and sorted in lexicographic (code point) order. *)
Theorem scan_series_descriptions_sorted_distinct (fs : FileSystem)
    (self : Converter) (tree : Dir) (p : str) (info : DicomFolder) :
  In (p, info) (scan_dicom_folders fs self tree) ->
  NoDup (series_descriptions info)
  /\ ~ In [] (series_descriptions info)
  /\ StronglySorted PyStr.le (series_descriptions info).
Proof.
  intros H. apply scan_fold_analyzed in H as [[]|[fl Hfl]].
  exact (analyze_descriptions _ _ _ Hfl).
Qed.

Example scan_demo :
  scan_dicom_folders Demo.fs Demo.self Demo.tree
  = [(Demo.scan_a, Demo.scan_a_info)].
Proof. vm_compute. reflexivity. Qed.

Lemma scan_series_descriptions_witness :
  NoDup (series_descriptions Demo.scan_a_info)
  /\ ~ In [] (series_descriptions Demo.scan_a_info)
  /\ StronglySorted PyStr.le (series_descriptions Demo.scan_a_info).
Proof.
  apply (@scan_series_descriptions_sorted_distinct
           Demo.fs Demo.self Demo.tree Demo.scan_a Demo.scan_a_info).
  vm_compute. left. reflexivity.
Defined.



Example analyze_150_files :
  _analyze_dicom_folder Demo.many_fs (lit "/big") Demo.many_files
  = Some Demo.many_info.
Proof. vm_compute. reflexivity. Qed.


(** *** Distinct directories have distinct paths *)

Lemma Dir_induction (P : Dir -> Prop) :
  (forall n subs fl, Forall P subs -> P (mkDir n subs fl)) ->
  forall d, P d.
Proof.
  intros H. fix IH 1. intros [n subs fl]. apply H.
  induction subs as [|sd subs IHs]; constructor; [apply IH|exact IHs].
Qed.

Lemma walk_roots_mkDir (top n : str) (subs : list Dir) (fl : list str) :
  walk_roots top (mkDir n subs fl)
  = top :: flat_map (fun sd => walk_roots (OsPath.join top (dname sd)) sd) subs.
Proof.
  unfold walk_roots. simpl. f_equal.
  induction subs as [|sd subs IH]; simpl; [reflexivity|].
  now rewrite map_app, IH.
Qed.

Lemma valid_name_spec (n : str) :
  valid_name n = true -> n <> [] /\ ~ In OsPath.sep n.
Proof.
  unfold valid_name. intros H. apply andb_true_iff in H as [Hn Hs].
  split; [now destruct n|].
  intros Hin. apply negb_true_iff in Hs.
  assert (existsb (char_eqb OsPath.sep) n = true); [|congruence].
  apply existsb_exists. exists OsPath.sep. split; [exact Hin|].
  now apply char_eqb_eq.
Qed.


Lemma join_valid_name (a n : str) :
  valid_name n = true -> OsPath.join a n = a ++ joiner a ++ n.
Proof.
  intros H. apply valid_name_spec in H as [Hne Hs].
  assert (Hst : startswith [OsPath.sep] n = false).
  { destruct n as [|c n]; [contradiction|].
    change (startswith [OsPath.sep] (c :: n))
      with (char_eqb OsPath.sep c && startswith [] n).
    destruct (char_eqb OsPath.sep c) eqn:E; [|reflexivity].
    apply char_eqb_eq in E. subst c. exfalso. apply Hs. now left. }
  unfold OsPath.join, joiner. rewrite Hst.
  destruct (negb (truthy a) || endswith [OsPath.sep] a); reflexivity.
Qed.

Lemma endswith_sep_app (a n : str) :
  n <> [] -> ~ In OsPath.sep n -> endswith [OsPath.sep] (a ++ n) = false.
Proof.
  intros Hne Hs. unfold endswith. rewrite rev_app_distr.
  destruct (rev n) as [|c r] eqn:E.
  - apply (f_equal (@rev char)) in E. rewrite rev_involutive in E.
    contradiction.
  - simpl. destruct (char_eqb OsPath.sep c) eqn:Ec; [|reflexivity].
    apply char_eqb_eq in Ec. subst c. exfalso. apply Hs.
    apply in_rev. rewrite E. now left.
Qed.

Lemma joiner_after_name (a n : str) :
  valid_name n = true -> joiner (a ++ n) = [OsPath.sep].
Proof.
  intros H. apply valid_name_spec in H as [Hne Hs]. unfold joiner.
  rewrite (endswith_sep_app a Hne Hs).
  destruct (a ++ n) eqn:E; [|reflexivity].
  apply app_eq_nil in E as [_ ->]. contradiction.
Qed.

(** Below a directory whose path ends in a name, every path continues the
    directory's path with nothing or with a slash. *)
Lemma walk_roots_extend (d : Dir) :
  forall a n p,
    wf_dir d = true -> valid_name n = true ->
    In p (walk_roots (a ++ n) d) ->
    exists s, p = a ++ n ++ s /\ (s = [] \/ exists s', s = OsPath.sep :: s').
Proof.
  induction d as [m subs fl IH] using Dir_induction.
  intros a n p Hwf Hn Hp. rewrite walk_roots_mkDir in Hp.
  destruct Hp as [<-|Hp].
  - exists []. rewrite app_nil_r. split; [reflexivity|now left].
  - apply in_flat_map in Hp as [sd [Hsd Hp]].
    simpl in Hwf. apply andb_true_iff in Hwf as [_ Hall].
    rewrite forallb_forall in Hall. specialize (Hall sd Hsd).
    apply andb_true_iff in Hall as [Hname Hwfsd].
    rewrite Forall_forall in IH.
    rewrite (join_valid_name _ _ Hname), (joiner_after_name a _ Hn) in Hp.
    replace ((a ++ n) ++ [OsPath.sep] ++ dname sd)
      with ((a ++ n ++ [OsPath.sep]) ++ dname sd) in Hp
      by now rewrite <- !app_assoc.
    destruct (IH sd Hsd _ _ _ Hwfsd Hname Hp) as [s [-> _]].
    exists ([OsPath.sep] ++ dname sd ++ s).
    split; [now rewrite <- !app_assoc|].
    right. now exists (dname sd ++ s).
Qed.

Lemma name_prefix_unique (n1 n2 s1 s2 : str) :
  ~ In OsPath.sep n1 -> ~ In OsPath.sep n2 ->
  (s1 = [] \/ exists s', s1 = OsPath.sep :: s') ->
  (s2 = [] \/ exists s', s2 = OsPath.sep :: s') ->
  n1 ++ s1 = n2 ++ s2 -> n1 = n2.
Proof.
  revert n2; induction n1 as [|c n1 IH]; intros [|c2 n2] H1 H2 Hs1 Hs2 E;
    simpl in *.
  - reflexivity.
  - destruct Hs1 as [->|[s' ->]]; [discriminate|].
    injection E as <- _. exfalso. apply H2. now left.
  - destruct Hs2 as [->|[s' ->]]; [discriminate|].
    injection E as -> _. exfalso. apply H1. now left.
  - injection E as -> E. f_equal.
    apply IH; auto.
Qed.

Lemma distinct_spec (x : str) (l : list str) :
  distinct (x :: l) = true -> ~ In x l /\ distinct l = true.
Proof.
  simpl. intros H. apply andb_true_iff in H as [Hx Hl]. split; [|exact Hl].
  intros Hin. apply mem_In in Hin. rewrite Hin in Hx. discriminate.
Qed.

(** Two different sub-directories of one directory share no path. *)
Lemma sibling_walks_disjoint (top : str) (sd1 sd2 : Dir) (p : str) :
  valid_name (dname sd1) = true -> valid_name (dname sd2) = true ->
  wf_dir sd1 = true -> wf_dir sd2 = true ->
  In p (walk_roots (OsPath.join top (dname sd1)) sd1) ->
  In p (walk_roots (OsPath.join top (dname sd2)) sd2) ->
  dname sd1 = dname sd2.
Proof.
  intros Hn1 Hn2 Hw1 Hw2 Hp1 Hp2.
  rewrite (join_valid_name _ _ Hn1), app_assoc in Hp1.
  rewrite (join_valid_name _ _ Hn2), app_assoc in Hp2.
  apply (walk_roots_extend _ _ _ _ Hw1 Hn1) in Hp1 as [s1 [-> Hs1]].
  apply (walk_roots_extend _ _ _ _ Hw2 Hn2) in Hp2 as [s2 [E Hs2]].
  apply app_inv_head in E.
  apply valid_name_spec in Hn1 as [_ Hn1], Hn2 as [_ Hn2].
  exact (name_prefix_unique _ _ Hn1 Hn2 Hs1 Hs2 E).
Qed.

Lemma wf_dir_distinct_paths (d : Dir) :
  forall top, wf_dir d = true -> NoDup (walk_roots top d).
Proof.
  induction d as [m subs fl IH] using Dir_induction.
  intros top Hwf. rewrite walk_roots_mkDir.
  change (wf_dir (mkDir m subs fl))
    with (distinct (map dname subs)
          && forallb (fun sd => valid_name (dname sd) && wf_dir sd) subs)
    in Hwf.
  apply andb_true_iff in Hwf as [Hdist Hall].
  rewrite forallb_forall in Hall. rewrite Forall_forall in IH.
  constructor.
  - intros Hin. apply in_flat_map in Hin as [sd [Hsd Hp]].
    specialize (Hall sd Hsd). apply andb_true_iff in Hall as [Hname Hwfsd].
    rewrite (join_valid_name _ _ Hname), app_assoc in Hp.
    apply (walk_roots_extend _ _ _ _ Hwfsd Hname) in Hp as [s [E _]].
    apply valid_name_spec in Hname as [Hne _].
    rewrite <- (app_nil_r top) in E at 1. rewrite <- !app_assoc in E.
    apply app_inv_head in E. symmetry in E.
    apply app_eq_nil in E as [_ E]. apply app_eq_nil in E as [E _].
    contradiction.
  - clear m fl. induction subs as [|sd subs IHs]; [constructor|].
    change (map dname (sd :: subs)) with (dname sd :: map dname subs) in Hdist.
    apply distinct_spec in Hdist as [Hsd Hdist].
    assert (Hsdv := Hall sd (or_introl eq_refl)).
    apply andb_true_iff in Hsdv as [Hname Hwfsd].
    change (NoDup (walk_roots (OsPath.join top (dname sd)) sd
                   ++ flat_map (fun sd0 => walk_roots
                                  (OsPath.join top (dname sd0)) sd0) subs)).
    apply NoDup_app.
    + apply IH; [now left|exact Hwfsd].
    + apply IHs; [|exact Hdist|]; intros x Hx; [apply IH|apply Hall];
        now right.
    + intros p Hp1 Hp2. apply in_flat_map in Hp2 as [sd2 [Hsd2 Hp2]].
      assert (H2 := Hall sd2 (or_intror Hsd2)).
      apply andb_true_iff in H2 as [Hname2 Hwf2].
      apply Hsd. rewrite (sibling_walks_disjoint top sd sd2 p); auto.
      now apply in_map.
Qed.

Lemma reaches_scan_a :
  reaches (to_str (input_dir Demo.self)) Demo.tree
          Demo.scan_a Demo.scan_a_dir.
Proof.
  eapply reaches_below; [left; reflexivity|].
  eapply reaches_below; [left; reflexivity|].
  apply reaches_here.
Defined.

Lemma reaches_bad :
  reaches (to_str (input_dir Demo.self)) Demo.tree
          Demo.bad Demo.bad_dir.
Proof.
  eapply reaches_below; [right; left; reflexivity|].
  apply reaches_here.
Defined.

(** C3, as stated, fails: the directory [bad] of the demo tree holds a file
    with the DICM signature, so it has an imaging file, but the header of
    that file cannot be parsed and the scan has no entry for the
    directory. *)
Lemma scan_omits_unparseable_folder :
  ~ scan_complete Demo.fs Demo.self Demo.tree.
Proof.
  intros H.
  destruct (H Demo.bad Demo.bad_dir reaches_bad) as [info [E _]].
  - vm_compute. discriminate.
  - vm_compute in E. discriminate.
Qed.

(** C3, amended: in a tree whose directories have valid, pairwise different
    names, for every directory reachable from the input root (the root
    included) that has at least one imaging file directly under it and
    whose first imaging file has a header that can be parsed, the scan
    result has exactly one entry under the directory's path, and its
    [file_count] is the number of imaging files directly under the
    directory. *)
Theorem scan_records_parseable_folders (fs : FileSystem) (self : Converter)
    (tree : Dir) (p : str) (d : Dir) (first : str) (rest : list str) :
  wf_dir tree = true ->
  reaches (to_str (input_dir self)) tree p d ->
  imaging_files fs p d = first :: rest ->
  dcmread fs first <> None ->
  exists info,
    entries_at p (scan_dicom_folders fs self tree) = [(p, info)]
    /\ file_count info = length (imaging_files fs p d)
    /\ folder_path info = p.
Proof.
  intros Hwf Hreach Himg Hfirst.
  destruct (analyze_succeeds fs p first rest Hfirst) as [info [Han [Hc Hp]]].
  exists info. rewrite Himg. repeat split; [|exact Hc|exact Hp].
  apply entries_at_get.
  - apply scan_fold_keys_NoDup. constructor.
  - unfold scan_dicom_folders.
    apply scan_fold_get with (dirs := map dname (subdirs d)) (fl := files d).
    + apply (wf_dir_distinct_paths tree _ Hwf).
    + now apply reaches_walk.
    + unfold imaging_files in Himg. rewrite Himg. discriminate.
    + unfold imaging_files in Himg. now rewrite Himg.
Qed.

Lemma scan_records_parseable_folders_witness :
  exists info,
    entries_at Demo.scan_a
      (scan_dicom_folders Demo.fs Demo.self Demo.tree) = [(Demo.scan_a, info)]
    /\ file_count info = length (imaging_files Demo.fs Demo.scan_a
                                   Demo.scan_a_dir)
    /\ folder_path info = Demo.scan_a.
Proof.
  apply (@scan_records_parseable_folders Demo.fs Demo.self Demo.tree
           Demo.scan_a Demo.scan_a_dir
           (lit "/data/in/P001/ScanA/1.dcm")
           [lit "/data/in/P001/ScanA/2.dcm"; lit "/data/in/P001/ScanA/3.dcm"]).
  - vm_compute. reflexivity.
  - exact reaches_scan_a.
  - vm_compute. reflexivity.
  - vm_compute. discriminate.
Defined.

(** ** [_get_output_subdir] *)

Example relpath_examples :
  OsPath.relpath Toy.cwd (lit "/data/in/P001/ScanA") (lit "/data/in")
  = Some (lit "P001/ScanA")
  /\ OsPath.relpath Toy.cwd (lit "/data/in") (lit "/data/in") = Some (lit ".")
  /\ OsPath.relpath Toy.cwd (lit "/data/x") (lit "/data/in")
     = Some (lit "../x")
  /\ OsPath.relpath Toy.cwd (lit "") (lit "/data/in") = None.
Proof. repeat split; reflexivity. Qed.

Example dirname_basename_examples :
  OsPath.dirname (lit "P001/ScanA") = lit "P001"
  /\ OsPath.basename (lit "P001/ScanA") = lit "ScanA"
  /\ OsPath.dirname (lit "ScanA") = lit ""
  /\ OsPath.dirname (lit "/ScanA") = lit "/"
  /\ OsPath.basename (lit "a/") = lit "".
Proof. repeat split; reflexivity. Qed.

Example truediv_examples :
  to_str (truediv (parse (lit "/data/out")) (lit "P001/ScanA"))
  = lit "/data/out/P001/ScanA"
  /\ to_str (truediv (parse (lit "/data/out")) (lit ".")) = lit "/data/out"
  /\ to_str (truediv (parse (lit "/data/out")) (lit "/etc")) = lit "/etc".
Proof. repeat split; reflexivity. Qed.

Example normpath_examples :
  OsPath.normpath (lit "/data//in/./x/..") = lit "/data/in"
  /\ OsPath.normpath (lit "a/../..") = lit ".."
  /\ OsPath.normpath (lit "//a/") = lit "//a"
  /\ OsPath.abspath Toy.cwd (lit "scans") = lit "/home/user/scans".
Proof. repeat split; reflexivity. Qed.

(** *** The leaf and the parent of a relative path *)

Lemma rsplit_name (leaf : str) :
  ~ In OsPath.sep leaf -> OsPath.rsplit leaf = ([], leaf).
Proof.
  induction leaf as [|c leaf IH]; simpl; [reflexivity|].
  intros H. rewrite IH by (intros Hin; apply H; now right). simpl.
  destruct (char_eqb c OsPath.sep) eqn:E; [|reflexivity].
  apply char_eqb_eq in E. subst c. exfalso. apply H. now left.
Qed.

Lemma rsplit_parent_name (parent leaf : str) :
  ~ In OsPath.sep leaf ->
  OsPath.rsplit (parent ++ OsPath.sep :: leaf) = (parent ++ [OsPath.sep], leaf).
Proof.
  intros H. induction parent as [|c parent IH]; simpl.
  - now rewrite (rsplit_name _ H).
  - rewrite IH. now destruct parent.
Qed.

(** The leaf of [parent/leaf] is [leaf], whatever [parent] is. *)
Lemma basename_parent_name (parent leaf : str) :
  ~ In OsPath.sep leaf ->
  OsPath.basename (parent ++ OsPath.sep :: leaf) = leaf.
Proof.
  intros H. unfold OsPath.basename. now rewrite (rsplit_parent_name _ _ H).
Qed.

(** The parent of [parent/leaf] is [parent] when [parent] ends in a name. *)
Lemma dirname_parent_name (parent leaf : str) (c : char) :
  ~ In OsPath.sep leaf -> c <> OsPath.sep ->
  OsPath.dirname ((parent ++ [c]) ++ OsPath.sep :: leaf) = parent ++ [c].
Proof.
  intros H Hc. unfold OsPath.dirname. rewrite (rsplit_parent_name _ _ H).
  simpl fst.
  assert (Hall : forallb (char_eqb OsPath.sep) ((parent ++ [c]) ++ [OsPath.sep])
                 = false).
  { rewrite !forallb_app. simpl.
    destruct (char_eqb OsPath.sep c) eqn:E.
    - apply char_eqb_eq in E. congruence.
    - now rewrite andb_false_r. }
  rewrite Hall.
  assert (Ht : truthy ((parent ++ [c]) ++ [OsPath.sep]) = true)
    by now destruct parent.
  rewrite Ht. simpl andb. cbv iota.
  unfold rstrip_char. rewrite !rev_app_distr.
  change (rev [OsPath.sep] ++ rev [c] ++ rev parent)
    with (OsPath.sep :: c :: rev parent).
  assert (Es : char_eqb OsPath.sep OsPath.sep = true) by now apply char_eqb_eq.
  assert (Ec : char_eqb c OsPath.sep = false).
  { destruct (char_eqb c OsPath.sep) eqn:E; [|reflexivity].
    apply char_eqb_eq in E. contradiction. }
  change (lstrip_char OsPath.sep (OsPath.sep :: c :: rev parent))
    with (if char_eqb OsPath.sep OsPath.sep
          then (if char_eqb c OsPath.sep
                then lstrip_char OsPath.sep (rev parent)
                else c :: rev parent)
          else OsPath.sep :: c :: rev parent).
  rewrite Es, Ec.
  change (c :: rev parent) with ([c] ++ rev parent).
  now rewrite rev_app_distr, rev_involutive.
Qed.

(** The two branches of [_get_output_subdir] when patient information is
    included. *)
Lemma get_output_subdir_branches (cwd : str) (self : Converter)
    (info : DicomFolder) (rel : str) :
  organize_by_folder self = true ->
  include_patient_info self = true ->
  OsPath.relpath cwd (folder_path info) (to_str (input_dir self)) = Some rel ->
  let rel_path := _clean_path_name rel in
  let new_leaf :=
    PyStr.join (lit "_")
      ([_clean_path_name (patient_id info)]
       ++ (if truthy (study_date info) then [study_date info] else [])
       ++ [OsPath.basename rel_path]) in
  (patient_id info <> [] ->
   contains (patient_id info) rel_path = false ->
   _get_output_subdir cwd self info
   = Ok (truediv (output_dir self)
           (if truthy (OsPath.dirname rel_path)
            then OsPath.join (OsPath.dirname rel_path) new_leaf
            else new_leaf)))
  /\ (contains (patient_id info) rel_path = true ->
      _get_output_subdir cwd self info
      = Ok (truediv (output_dir self) rel_path)).
Proof.
  intros Horg Hinc Hrel rel_path new_leaf.
  unfold _get_output_subdir. rewrite Horg, Hinc, Hrel. fold rel_path.
  split.
  - intros Hpid Hnot. rewrite Hnot.
    destruct (patient_id info) as [|c pid] eqn:E; [contradiction|].
    reflexivity.
  - intros Hin. rewrite Hin. now destruct (truthy (patient_id info)).
Qed.

(** C5: the leaf is not always replaced, and the patient id can be
    duplicated.  With input directory [/data/in] and output directory
    [/data/out]: the folder [/data/in/P001/ScanA] of the patient id [/etc],
    which does not occur in the relative path [P001/ScanA], gets the
    destination [/etc_20240101_ScanA], which is not below the output
    directory and has lost the parent [P001]; the folder
    [/data/in/P:1/scan] of the patient id [P:1], which is a substring of
    the relative path [P:1/scan], gets the destination
    [/data/out/P_1/P_1_20240101_scan], which holds the sanitized id
    twice. *)
Theorem patient_id_escapes_or_is_duplicated :
  let self := Toy.converter true [] in
  (OsPath.relpath Toy.cwd (folder_path Toy.slash_info) (to_str (input_dir self))
   = Some (lit "P001/ScanA")
   /\ contains (patient_id Toy.slash_info) (_clean_path_name (lit "P001/ScanA"))
      = false
   /\ _get_output_subdir Toy.cwd self Toy.slash_info
      = Ok (parse (lit "/etc_20240101_ScanA"))
   /\ to_str (parse (lit "/etc_20240101_ScanA")) = lit "/etc_20240101_ScanA"
   /\ startswith (to_str (output_dir self)) (lit "/etc_20240101_ScanA") = false)
  /\ (OsPath.relpath Toy.cwd (folder_path Toy.colon_info)
                     (to_str (input_dir self))
      = Some (lit "P:1/scan")
      /\ contains (patient_id Toy.colon_info) (lit "P:1/scan") = true
      /\ _clean_path_name (patient_id Toy.colon_info) = lit "P_1"
      /\ _get_output_subdir Toy.cwd self Toy.colon_info
         = Ok (parse (lit "/data/out/P_1/P_1_20240101_scan"))
      /\ tail (parse (lit "/data/out/P_1/P_1_20240101_scan"))
         = [lit "data"; lit "out"; lit "P_1"; lit "P_1_20240101_scan"]).
Proof. repeat split; vm_compute; reflexivity. Qed.

(** ** [_convert_with_dcm2niix] *)

Section DispatcherFacts.

Context {World : Type}.
Variable os : OS World.

(** The run of [_convert_with_dcm2niix] once the subprocess has
    returned. *)
Lemma convert_with_dcm2niix_returned (self : Converter)
    (input_folder output_folder : str) (info : DicomFolder)
    (s : St World) (w' : World) (completed : CompletedProcess) :
  subprocess_run os (dcm2niix_cmd self input_folder output_folder) (world s)
  = (w', Ok completed) ->
  _convert_with_dcm2niix os self input_folder output_folder info s
  = (mkSt w'
       (log s
        ++ [DebugCommand (dcm2niix_cmd self input_folder output_folder)]
        ++ (if Z.eqb (returncode completed) 0 then []
            else [WarnDcm2niix (stderr completed)])),
     Ok (glob os output_folder (nifti_suffix self) w')).
Proof.
  intros Hrun. unfold _convert_with_dcm2niix, bind, emit, lift. simpl.
  rewrite Hrun. simpl.
  destruct (Z.eqb (returncode completed) 0); simpl.
  - reflexivity.
  - now rewrite <- app_assoc.
Qed.

End DispatcherFacts.

(** C7: whenever the subprocess returns, [_convert_with_dcm2niix] returns
    exactly the entries of the destination directory, as it is after the
    subprocess, whose names end with the expected extension ([.nii.gz] when
    compressing, [.nii] otherwise), each as the path of the entry under the
    destination; an entry with that extension which was in the directory
    before the call and is still there is among them. *)
Theorem dcm2niix_reports_directory_listing (World : Type) (os : OS World)
    (self : Converter) (input_folder output_folder : str)
    (info : DicomFolder) (s : St World) (w' : World)
    (completed : CompletedProcess) :
  subprocess_run os (dcm2niix_cmd self input_folder output_folder) (world s)
  = (w', Ok completed) ->
  let suffix := if compress self then lit ".nii.gz" else lit ".nii" in
  let produced :=
    map (fun name => to_str (truediv (parse output_folder) name))
        (filter (endswith suffix) (listdir os output_folder w')) in
  (exists s',
     _convert_with_dcm2niix os self input_folder output_folder info s
     = (s', Ok produced) /\ world s' = w')
  /\ (forall name,
        In name (listdir os output_folder (world s)) ->
        In name (listdir os output_folder w') ->
        endswith suffix name = true ->
        In (to_str (truediv (parse output_folder) name)) produced).
Proof.
  intros Hrun suffix produced. split.
  - eexists. split.
    + apply (convert_with_dcm2niix_returned os self _ _ info s Hrun).
    + reflexivity.
  - intros name _ Hafter Hsuffix. unfold produced.
    apply in_map_iff. exists name. split; [reflexivity|].
    apply filter_In. now split.
Qed.

Example dcm2niix_cmd_example :
  dcm2niix_cmd (Toy.converter true []) (lit "/data/in/P001/ScanB")
               (lit "/data/out/P001/ScanB")
  = [lit "dcm2niix"; lit "-z"; lit "y"; lit "-f"; lit "%p_%s_%d";
     lit "-o"; lit "/data/out/P001/ScanB"; lit "-b"; lit "y";
     lit "/data/in/P001/ScanB"].
Proof. reflexivity. Qed.

Lemma dcm2niix_reports_directory_listing_witness :
  (exists s',
     _convert_with_dcm2niix Toy.os (Toy.converter true [])
       (lit "/data/in/P001/ScanB") (lit "/data/out/P001/ScanB")
       Toy.scan_b_info Toy.used
     = (s', Ok [lit "/data/out/P001/ScanB/old.nii.gz";
                lit "/data/out/P001/ScanB/ScanB.nii.gz"])
     /\ world s'
        = [(lit "/data/out/P001/ScanB",
            [lit "old.nii.gz"; lit "old.json"; lit "ScanB.nii.gz";
             lit "ScanB.json"])])
  /\ In (lit "/data/out/P001/ScanB/old.nii.gz")
        [lit "/data/out/P001/ScanB/old.nii.gz";
         lit "/data/out/P001/ScanB/ScanB.nii.gz"].
Proof.
  destruct (@dcm2niix_reports_directory_listing Toy.World Toy.os
              (Toy.converter true [])
              (lit "/data/in/P001/ScanB") (lit "/data/out/P001/ScanB")
              Toy.scan_b_info Toy.used
              [(lit "/data/out/P001/ScanB",
                [lit "old.nii.gz"; lit "old.json"; lit "ScanB.nii.gz";
                 lit "ScanB.json"])]
              (mkCompletedProcess 1 (lit "Warning: slices skipped"))
              eq_refl) as [Hrun Hold].
  split.
  - exact Hrun.
  - apply (Hold (lit "old.nii.gz")).
    + left. reflexivity.
    + left. reflexivity.
    + reflexivity.
Defined.

(** C8: when the subprocess returns a non-zero exit status,
    [_convert_with_dcm2niix] does not raise: it logs one warning carrying
    the subprocess's standard error, then lists the destination directory
    and returns every entry whose name ends with the expected extension. *)
Theorem dcm2niix_nonzero_exit_still_lists (World : Type) (os : OS World)
    (self : Converter) (input_folder output_folder : str)
    (info : DicomFolder) (s : St World) (w' : World)
    (completed : CompletedProcess) :
  subprocess_run os (dcm2niix_cmd self input_folder output_folder) (world s)
  = (w', Ok completed) ->
  returncode completed <> 0%Z ->
  _convert_with_dcm2niix os self input_folder output_folder info s
  = (mkSt w'
       (log s
        ++ [DebugCommand (dcm2niix_cmd self input_folder output_folder);
            WarnDcm2niix (stderr completed)]),
     Ok (map (fun name => to_str (truediv (parse output_folder) name))
             (filter (endswith (if compress self then lit ".nii.gz"
                                else lit ".nii"))
                     (listdir os output_folder w')))).
Proof.
  intros Hrun Hrc.
  rewrite (convert_with_dcm2niix_returned os self _ _ info s Hrun).
  apply Z.eqb_neq in Hrc. rewrite Hrc. reflexivity.
Qed.

Lemma dcm2niix_nonzero_exit_witness :
  _convert_with_dcm2niix Toy.os (Toy.converter true [])
    (lit "/data/in/P001/ScanB") (lit "/data/out/P001/ScanB")
    Toy.scan_b_info Toy.start
  = (mkSt [(lit "/data/out/P001/ScanB", [lit "ScanB.nii.gz"; lit "ScanB.json"])]
       [DebugCommand
          (dcm2niix_cmd (Toy.converter true []) (lit "/data/in/P001/ScanB")
                        (lit "/data/out/P001/ScanB"));
        WarnDcm2niix (lit "Warning: slices skipped")],
     Ok [lit "/data/out/P001/ScanB/ScanB.nii.gz"]).
Proof.
  apply (@dcm2niix_nonzero_exit_still_lists Toy.World Toy.os
           (Toy.converter true [])
           (lit "/data/in/P001/ScanB") (lit "/data/out/P001/ScanB")
           Toy.scan_b_info Toy.start
           [(lit "/data/out/P001/ScanB", [lit "ScanB.nii.gz"; lit "ScanB.json"])]
           (mkCompletedProcess 1 (lit "Warning: slices skipped"))
           eq_refl).
  discriminate.
Defined.

(** ** [convert_all] *)

(** ** The conversion loop *)

Lemma to_str_nonempty (p : Path) : to_str p <> [].
Proof.
  unfold to_str.
  destruct (truthy (root p ++ PyStr.join [OsPath.sep] (tail p))) eqn:E.
  - intros H. rewrite H in E. discriminate.
  - discriminate.
Qed.

Lemma relpath_defined (cwd path start : str) :
  path <> [] -> exists rel, OsPath.relpath cwd path start = Some rel.
Proof.
  intros H. unfold OsPath.relpath. destruct path; [contradiction|].
  cbn [truthy negb].
  match goal with
  | |- context [match ?l with [] => Some ?a | _ :: _ => Some ?b end] =>
      destruct l; eexists; reflexivity
  end.
Qed.

Lemma set_length {V} (k : str) (v : V) (d : dict V) :
  length (Dict.set k v d) <= S (length d).
Proof.
  induction d as [|[k0 v0] d IH]; simpl; [lia|].
  destruct (str_eqb k k0); simpl; lia.
Qed.

Lemma set_keys_mono {V} (k x : str) (v : V) (d : dict V) :
  In x (Dict.keys d) -> In x (Dict.keys (Dict.set k v d)).
Proof. intros H. apply set_keys. now right. Qed.

Lemma In_keys_get {V} (k : str) (d : dict V) :
  In k (Dict.keys d) -> exists v, Dict.get k d = Some v.
Proof.
  induction d as [|[k0 v0] d IH]; simpl; [intros []|].
  intros H. destruct (str_eqb k k0) eqn:E; [now exists v0|].
  destruct H as [->|H]; [now rewrite str_eqb_refl in E|now apply IH].
Qed.

Section ConvertLoopFacts.

Context {World : Type}.
Variable os : OS World.
Variable cwd : str.
Variable self : Converter.

Lemma convert_folder_key (info : DicomFolder) (s0 s1 : St World)
    (out : str) (fl : list str) :
  _convert_folder os cwd self info s0 = (s1, Ok (out, fl)) ->
  exists dest, _get_output_subdir cwd self info = Ok dest /\ out = to_str dest.
Proof.
  unfold _convert_folder, bind, raise_result, lift, ret.
  destruct (_get_output_subdir cwd self info) as [dest|e]; [|discriminate].
  destruct (mkdir os dest (world s0)) as [w [[]|e]]; [|discriminate].
  match goal with
  | |- context [(if ?b then ?x else ?y) ?st] =>
      destruct ((if b then x else y) st) as [s2 [files|e]]
  end; [|discriminate].
  intros [= _ <- _]. now exists dest.
Qed.

Lemma convert_item_returns (total idx : nat) (path : str) (info : DicomFolder)
    (results : dict (list str)) (s0 : St World) :
  exists s1 k fl,
    convert_item os cwd self total idx (path, info) results s0
    = (s1, Ok (Dict.set k fl results))
    /\ (k = path
        \/ exists dest, _get_output_subdir cwd self info = Ok dest
                        /\ k = to_str dest).
Proof.
  destruct (_convert_folder os cwd self info
              (mkSt (world s0)
                 (log s0 ++ [InfoConverting idx total (folder_name info)])))
    as [s1 [[out fl]|e]] eqn:Hconv.
  - exists (mkSt (world s1) (log s1 ++ [InfoSuccess (length fl)])), out, fl.
    split.
    + unfold convert_item, bind, try_except, emit, ret. simpl.
      now rewrite Hconv.
    + right. exact (convert_folder_key info _ Hconv).
  - exists (mkSt (world s1) (log s1 ++ [ErrorConvertFailed e])), path, [].
    split; [|now left].
    unfold convert_item, bind, try_except, emit, ret. simpl.
    now rewrite Hconv.
Qed.

Lemma convert_loop_returns (total : nat) (items : list (str * DicomFolder)) :
  forall idx results s0,
    exists s1 results',
      convert_loop os cwd self total idx items results s0 = (s1, Ok results')
      /\ (NoDup (Dict.keys results) -> NoDup (Dict.keys results'))
      /\ length results' <= length results + length items
      /\ forall k, In k (Dict.keys results') ->
                   In k (Dict.keys results) \/ result_key cwd self items k.
Proof.
  induction items as [|[path info] items IH]; intros idx results s0.
  - exists s0, results. repeat split; auto. simpl. lia.
  - destruct (convert_item_returns total idx path info results s0)
      as [s1 [k [fl [Hitem Hk]]]].
    destruct (IH (S idx) (Dict.set k fl results) s1)
      as [s2 [results2 [Hloop [Hnd [Hlen Hkeys]]]]].
    exists s2, results2. split; [|split; [|split]].
    + cbn [convert_loop]. unfold bind at 1. now rewrite Hitem.
    + intros H. apply Hnd. now apply set_keys_NoDup.
    + pose proof (set_length k fl results). simpl. lia.
    + intros k' Hk'. destruct (Hkeys k' Hk') as [Hin|[p [i [Hin Hor]]]].
      * apply set_keys in Hin as [->|Hin]; [|now left].
        right. exists path, info. split; [now left|exact Hk].
      * right. exists p, i. split; [now right|exact Hor].
Qed.

(** The loop over a list is the loop over its front followed by the loop
    over its back. *)
Lemma convert_loop_app (total : nat) (front back : list (str * DicomFolder)) :
  forall idx results s0,
    convert_loop os cwd self total idx (front ++ back) results s0
    = match convert_loop os cwd self total idx front results s0 with
      | (s1, Ok results1) =>
          convert_loop os cwd self total (idx + length front) back results1 s1
      | (s1, Raise e) => (s1, Raise e)
      end.
Proof.
  induction front as [|item front IH]; intros idx results s0.
  - cbn [app convert_loop length]. unfold ret. now rewrite Nat.add_0_r.
  - cbn [app convert_loop length]. unfold bind.
    destruct (convert_item os cwd self total idx item results s0)
      as [s1 [results1|e]]; [|reflexivity].
    rewrite IH. now rewrite Nat.add_succ_r.
Qed.

(** The loop never removes a key. *)
Lemma convert_loop_keeps_keys (total : nat) (items : list (str * DicomFolder)) :
  forall idx results s0 s1 results1 k,
    convert_loop os cwd self total idx items results s0 = (s1, Ok results1) ->
    In k (Dict.keys results) -> In k (Dict.keys results1).
Proof.
  induction items as [|[path info] items IH];
    intros idx results s0 s1 results1 k Hloop Hk.
  - cbn [convert_loop] in Hloop. unfold ret in Hloop.
    now injection Hloop as <- <-.
  - cbn [convert_loop] in Hloop. unfold bind at 1 in Hloop.
    destruct (convert_item_returns total idx path info results s0)
      as [s2 [k2 [fl [Hitem _]]]].
    rewrite Hitem in Hloop.
    apply (IH _ _ _ _ _ k Hloop). now apply set_keys_mono.
Qed.

End ConvertLoopFacts.

(** ** Printing *)

Section PrintFacts.

Context {World : Type}.
Variable os : OS World.
Variable cwd : str.

Lemma silent_ret {A} (a : A) : silent (@ret World A a).
Proof. intros s. reflexivity. Qed.

Lemma silent_raise_result {A} (r : result A) : silent (@raise_result World A r).
Proof. intros s. reflexivity. Qed.

Lemma silent_print (p : Printed) : silent (print os p).
Proof.
  intros s. unfold print. now destruct (print_raises os p (world s)).
Qed.

Lemma silent_bind {A B} (m : M World A) (k : A -> M World B) :
  silent m -> (forall a, silent (k a)) -> silent (bind m k).
Proof.
  intros Hm Hk s. unfold bind. pose proof (Hm s) as H.
  destruct (m s) as [s1 [a|e]]; cbn [fst] in H; subst s1.
  - apply Hk.
  - reflexivity.
Qed.

Lemma silent_print_files (files : list str) : silent (print_files os files).
Proof.
  induction files as [|f files IH]; cbn [print_files].
  - apply silent_ret.
  - apply silent_bind; [apply silent_print|intros _; exact IH].
Qed.

Lemma silent_print_results (self : Converter) (items : dict (list str)) :
  silent (print_results os cwd self items).
Proof.
  induction items as [|[output_folder files] items IH]; cbn [print_results].
  - apply silent_ret.
  - apply silent_bind; [apply silent_raise_result|]. intros rel_path.
    apply silent_bind; [|intros _; exact IH].
    destruct files as [|f files]; [apply silent_print|].
    apply silent_bind; [apply silent_print|intros _].
    apply silent_print_files.
Qed.

Lemma silent_print_summary (self : Converter) (results : dict (list str)) :
  silent (_print_summary os cwd self results).
Proof.
  unfold _print_summary.
  repeat (apply silent_bind; [apply silent_print|intros _]).
  apply silent_bind; [apply silent_print_results|intros _].
  apply silent_print.
Qed.

Section Console.

Hypothesis console : console_ok os.

Lemma print_ok (p : Printed) (s : St World) : print os p s = (s, Ok tt).
Proof. unfold print. now rewrite console. Qed.

Lemma print_files_ok (files : list str) (s : St World) :
  print_files os files s = (s, Ok tt).
Proof.
  induction files as [|f files IH]; cbn [print_files]; [reflexivity|].
  unfold bind. now rewrite print_ok.
Qed.

(** When every line is written, the loop of [_print_summary] raises
    exactly when it meets an empty key. *)
Lemma print_results_ok (self : Converter) (items : dict (list str))
    (s : St World) :
  print_results os cwd self items s
  = (s, if forallb truthy (Dict.keys items) then Ok tt else Raise ValueError).
Proof.
  induction items as [|[output_folder files] items IH];
    cbn [print_results Dict.keys map fst forallb]; [reflexivity|].
  unfold bind at 1, raise_result.
  destruct output_folder as [|c output_folder]; [reflexivity|].
  destruct (@relpath_defined cwd (c :: output_folder)
              (to_str (output_dir self))) as [rel ->]; [discriminate|].
  cbn [truthy andb]. unfold bind at 1.
  destruct files as [|f files].
  - rewrite print_ok. exact IH.
  - unfold bind at 1. rewrite print_ok, print_files_ok. exact IH.
Qed.

Lemma print_summary_ok (self : Converter) (results : dict (list str))
    (s : St World) :
  _print_summary os cwd self results s
  = (s, if forallb truthy (Dict.keys results) then Ok tt
        else Raise ValueError).
Proof.
  unfold _print_summary.
  repeat (unfold bind at 1; rewrite print_ok).
  unfold bind at 1. rewrite print_results_ok.
  destruct (forallb truthy (Dict.keys results)); [apply print_ok|reflexivity].
Qed.

End Console.

(** [convert_all] runs the loop over every folder, which never raises,
    and then the summary, which changes nothing and may raise. *)
Lemma convert_all_run (fs : FileSystem) (tree : Dir) (self : Converter)
    (s : St World) :
  let folders := folders_to_convert fs tree self in
  exists s1 results,
    convert_loop os cwd self (length folders) 1 folders [] s = (s1, Ok results)
    /\ NoDup (Dict.keys results)
    /\ length results <= length folders
    /\ (forall k, In k (Dict.keys results) -> result_key cwd self folders k)
    /\ convert_all os cwd fs tree self s
       = if Dict.is_empty folders
         then (mkSt (world s) (log s ++ [WarnNoFolders]), Ok [])
         else (s1, match snd (_print_summary os cwd self results s1) with
                   | Ok _ => Ok results
                   | Raise e => Raise e
                   end).
Proof.
  intros folders.
  destruct (convert_loop_returns os cwd self (length folders) folders 1 [] s)
    as [s1 [results [Hloop [Hnd [Hlen Hkeys]]]]].
  exists s1, results. split; [exact Hloop|].
  split; [apply Hnd; constructor|]. split; [exact Hlen|].
  split; [intros k Hk; now destruct (Hkeys k Hk) as [[]|H]|].
  unfold convert_all. fold (folders_to_convert fs tree self). fold folders.
  destruct (Dict.is_empty folders); [reflexivity|].
  unfold bind at 1. rewrite Hloop. unfold bind, ret.
  pose proof (silent_print_summary self results s1) as Hs.
  destruct (_print_summary os cwd self results s1) as [s2 [[]|e]];
    cbn [fst snd] in *; now subst s2.
Qed.

End PrintFacts.

Lemma entries_at_le_1 {V} (k : str) (d : dict V) :
  NoDup (Dict.keys d) -> length (entries_at k d) <= 1.
Proof.
  induction d as [|[k0 v0] d IH]; simpl; [lia|].
  intros Hnd. inversion Hnd as [|? ? Hk0 Hd]; subst.
  destruct (str_eqb k k0) eqn:E; [|now apply IH].
  apply str_eqb_eq in E. subst k0.
  rewrite (entries_at_absent _ _ Hk0). simpl. lia.
Qed.


Lemma flat_results_set_out (outkey : str) (fl : list str)
    (results : dict (list str)) :
  flat_results outkey results ->
  flat_results outkey (Dict.set outkey fl results).
Proof.
  intros [Hnd Hother]. split; [now apply set_keys_NoDup|].
  intros k v Hin Hk. apply set_In in Hin as [[-> _]|Hin]; [contradiction|].
  now apply (Hother k).
Qed.

Lemma flat_results_set_failed (outkey path : str) (results : dict (list str)) :
  flat_results outkey results ->
  flat_results outkey (Dict.set path [] results).
Proof.
  intros [Hnd Hother]. split; [now apply set_keys_NoDup|].
  intros k v Hin Hk. apply set_In in Hin as [[_ ->]|Hin]; [reflexivity|].
  now apply (Hother k).
Qed.

Section FlatMode.

Context {World : Type}.
Variable os : OS World.
Variable cwd : str.
Variable self : Converter.
Hypothesis flat : organize_by_folder self = false.

Lemma get_output_subdir_flat (info : DicomFolder) :
  _get_output_subdir cwd self info = Ok (output_dir self).
Proof. unfold _get_output_subdir. now rewrite flat. Qed.

Lemma convert_folder_flat (info : DicomFolder) (s0 s1 : St World)
    (out : str) (fl : list str) :
  _convert_folder os cwd self info s0 = (s1, Ok (out, fl)) -> out = (to_str (output_dir self)).
Proof.
  unfold _convert_folder, bind, raise_result, lift, ret.
  rewrite get_output_subdir_flat.
  destruct (mkdir os (output_dir self) (world s0)) as [w [[]|e]];
    [|discriminate].
  match goal with
  | |- context [(if ?b then ?x else ?y) ?st] =>
      destruct ((if b then x else y) st) as [s2 [files|e]]
  end; [|discriminate].
  now intros [= _ <- _].
Qed.

Lemma convert_item_success (total idx : nat) (path : str)
    (info : DicomFolder) (results : dict (list str)) (s0 s1 : St World)
    (out : str) (fl : list str) :
  _convert_folder os cwd self info
    (mkSt (world s0) (log s0 ++ [InfoConverting idx total (folder_name info)]))
  = (s1, Ok (out, fl)) ->
  convert_item os cwd self total idx (path, info) results s0
  = (mkSt (world s1) (log s1 ++ [InfoSuccess (length fl)]),
     Ok (Dict.set (to_str (output_dir self)) fl results)).
Proof.
  intros Hconv. rewrite <- (@convert_folder_flat info _ _ out fl Hconv).
  unfold convert_item, bind, try_except, emit, ret. simpl.
  now rewrite Hconv.
Qed.

Lemma convert_item_flat (total idx : nat) (item : str * DicomFolder)
    (results : dict (list str)) (s0 : St World) :
  flat_results (to_str (output_dir self)) results ->
  exists s1 results',
    convert_item os cwd self total idx item results s0 = (s1, Ok results')
    /\ flat_results (to_str (output_dir self)) results'.
Proof.
  intros Hres. destruct item as [path info].
  destruct (_convert_folder os cwd self info
              (mkSt (world s0)
                 (log s0 ++ [InfoConverting idx total (folder_name info)])))
    as [s1 [[out fl]|e]] eqn:Hconv.
  - rewrite (@convert_item_success total idx path info results s0 s1 out fl
               Hconv).
    eexists _, _. split; [reflexivity|].
    now apply flat_results_set_out.
  - unfold convert_item, bind, try_except, emit, ret. simpl.
    rewrite Hconv. eexists _, _. split; [reflexivity|].
    now apply flat_results_set_failed.
Qed.

Lemma convert_loop_flat (total : nat) (items : list (str * DicomFolder)) :
  forall idx results s0,
    flat_results (to_str (output_dir self)) results ->
    exists s1 results',
      convert_loop os cwd self total idx items results s0 = (s1, Ok results')
      /\ flat_results (to_str (output_dir self)) results'.
Proof.
  induction items as [|item items IH]; intros idx results s0 Hres.
  - exists s0, results. now split.
  - destruct (@convert_item_flat total idx item results s0 Hres)
      as [s1 [results1 [Hitem Hres1]]].
    destruct (IH (S idx) results1 s1 Hres1) as [s2 [results2 [Hloop Hres2]]].
    exists s2, results2. split; [|exact Hres2].
    simpl. unfold bind. now rewrite Hitem.
Qed.

(** The mapping after a run of the loop from an empty mapping. *)
Lemma convert_loop_flat_run (total : nat) (items : list (str * DicomFolder))
    (s0 s1 : St World) (results : dict (list str)) :
  convert_loop os cwd self total 1 items [] s0 = (s1, Ok results) ->
  NoDup (Dict.keys results)
  /\ forall k v, In (k, v) results -> k <> to_str (output_dir self) ->
                 v = [] /\ exists info, In (k, info) items.
Proof.
  intros Hloop.
  destruct (@convert_loop_flat total items 1 [] s0)
    as [s1' [results' [Hloop' [Hnd Hother]]]];
    [split; [constructor|intros k v []]|].
  destruct (convert_loop_returns os cwd self total items 1 [] s0)
    as [s1'' [results'' [Hloop'' [_ [_ Hkeys]]]]].
  rewrite Hloop in Hloop', Hloop''.
  injection Hloop' as <- <-. injection Hloop'' as <- <-.
  split; [exact Hnd|]. intros k v Hin Hk. split; [now apply (Hother k v)|].
  destruct (Hkeys k) as [[]|[p [info [Hp [->|[dest [Hdest ->]]]]]]].
  - exact (in_map fst results (k, v) Hin).
  - now exists info.
  - rewrite get_output_subdir_flat in Hdest. injection Hdest as <-.
    contradiction.
Qed.

(** A folder whose conversion returns replaces the entry under the output
    directory's path, and that key stays in the mapping to the end of the
    run. *)
Lemma convert_loop_flat_success (total : nat)
    (front back : list (str * DicomFolder)) (path : str) (info : DicomFolder)
    (s s0 s1 s2 : St World) (r0 results : dict (list str)) (out : str)
    (fl : list str) :
  convert_loop os cwd self total 1 (front ++ (path, info) :: back) [] s
  = (s1, Ok results) ->
  convert_loop os cwd self total 1 front [] s = (s0, Ok r0) ->
  _convert_folder os cwd self info
    (mkSt (world s0)
       (log s0 ++ [InfoConverting (S (length front)) total (folder_name info)]))
  = (s2, Ok (out, fl)) ->
  let outkey := to_str (output_dir self) in
  out = outkey
  /\ convert_loop os cwd self total 1 (front ++ [(path, info)]) [] s
     = (mkSt (world s2) (log s2 ++ [InfoSuccess (length fl)]),
        Ok (Dict.set outkey fl r0))
  /\ entries_at outkey (Dict.set outkey fl r0) = [(outkey, fl)]
  /\ (exists v, entries_at outkey results = [(outkey, v)])
  /\ (back = [] -> entries_at outkey results = [(outkey, fl)]).
Proof.
  intros Hloop Hfront Hconv outkey.
  pose proof (@convert_item_success total (S (length front)) path info r0 s0 s2
                out fl Hconv) as Hitem.
  fold outkey in Hitem.
  assert (Hprefix :
    convert_loop os cwd self total 1 (front ++ [(path, info)]) [] s
    = (mkSt (world s2) (log s2 ++ [InfoSuccess (length fl)]),
       Ok (Dict.set outkey fl r0))).
  { rewrite convert_loop_app, Hfront. cbn [convert_loop Nat.add].
    unfold bind at 1. now rewrite Hitem. }
  destruct (convert_loop_flat_run _ _ _ Hprefix) as [Hnd0 _].
  destruct (convert_loop_flat_run _ _ _ Hloop) as [Hnd _].
  assert (Hentry : entries_at outkey (Dict.set outkey fl r0) = [(outkey, fl)])
    by (apply entries_at_get; [exact Hnd0|apply get_set_eq]).
  change (front ++ (path, info) :: back)
    with (front ++ [(path, info)] ++ back) in Hloop.
  rewrite app_assoc, convert_loop_app, Hprefix in Hloop.
  repeat split.
  - exact (@convert_folder_flat info _ _ out fl Hconv).
  - exact Hprefix.
  - exact Hentry.
  - assert (Hin : In outkey (Dict.keys results)).
    { apply (convert_loop_keeps_keys os cwd self _ _ _ _ _ outkey Hloop).
      apply set_keys. now left. }
    destruct (In_keys_get _ _ Hin) as [v Hv]. exists v.
    now apply entries_at_get.
  - intros ->. cbn [convert_loop] in Hloop. unfold ret in Hloop.
    injection Hloop as _ <-. exact Hentry.
Qed.

End FlatMode.

(** C6: when [organize_by_folder] is false, every folder resolves to the
    output directory.  The loop of [convert_all] over the folders to
    convert always ends with a mapping [results], which [convert_all]
    returns unless its summary raises.  [results] has at most one entry
    under the output directory's path, and every other entry holds the
    empty list and is keyed by the source path of one of the folders.
    Whenever the conversion of a folder returns during the run, the key it
    returns is the output directory's path; right after that folder the
    mapping is the one before it with the entry under that path set to the
    folder's file list, which is then the only entry under that path
    whatever earlier folders stored there; and [results] has exactly one
    entry under that path, which holds the file list of that folder when it
    is the last one. *)
Theorem flat_mode_one_entry_for_successes (World : Type) (os : OS World)
    (cwd : str) (fs : FileSystem) (tree : Dir) (self : Converter)
    (s : St World) :
  organize_by_folder self = false ->
  let outkey := to_str (output_dir self) in
  let folders := folders_to_convert fs tree self in
  let total := length folders in
  (forall info, _get_output_subdir cwd self info = Ok (output_dir self))
  /\ exists s1 results,
       convert_loop os cwd self total 1 folders [] s = (s1, Ok results)
       /\ convert_all os cwd fs tree self s
          = (if Dict.is_empty folders
             then (mkSt (world s) (log s ++ [WarnNoFolders]), Ok [])
             else (s1, match snd (_print_summary os cwd self results s1) with
                       | Ok _ => Ok results
                       | Raise e => Raise e
                       end))
       /\ length (entries_at outkey results) <= 1
       /\ (forall k v, In (k, v) results -> k <> outkey ->
                       v = [] /\ exists info, In (k, info) folders)
       /\ (forall front path info back s0 r0 s2 out fl,
             folders = front ++ (path, info) :: back ->
             convert_loop os cwd self total 1 front [] s = (s0, Ok r0) ->
             _convert_folder os cwd self info
               (mkSt (world s0)
                  (log s0 ++ [InfoConverting (S (length front)) total
                                             (folder_name info)]))
             = (s2, Ok (out, fl)) ->
             out = outkey
             /\ convert_loop os cwd self total 1 (front ++ [(path, info)]) [] s
                = (mkSt (world s2) (log s2 ++ [InfoSuccess (length fl)]),
                   Ok (Dict.set outkey fl r0))
             /\ entries_at outkey (Dict.set outkey fl r0) = [(outkey, fl)]
             /\ (exists v, entries_at outkey results = [(outkey, v)])
             /\ (back = [] -> entries_at outkey results = [(outkey, fl)])).
Proof.
  intros flat outkey folders total.
  split; [intros info; exact (@get_output_subdir_flat cwd self flat info)|].
  destruct (convert_all_run os cwd fs tree self s)
    as [s1 [results [Hloop [Hnd [_ [_ Hall]]]]]].
  fold folders in Hloop, Hall. fold total in Hloop.
  exists s1, results. split; [exact Hloop|]. split; [exact Hall|].
  split; [now apply entries_at_le_1|].
  split.
  - exact (proj2 (@convert_loop_flat_run World os cwd self flat total folders
                    s s1 results Hloop)).
  - intros front path info back s0 r0 s2 out fl Hfolders Hfront Hconv.
    rewrite Hfolders in Hloop.
    exact (@convert_loop_flat_success World os cwd self flat total front back
             path info s s0 s1 s2 r0 results out fl Hloop Hfront Hconv).
Qed.

Example convert_all_flat_demo :
  snd (convert_all Toy.os Toy.cwd Demo.fs Demo.tree
         (Toy.converter false [Demo.scan_a_info; Toy.scan_b_info]) Toy.start)
  = Ok [(lit "/data/out",
         [lit "/data/out/ScanA.nii.gz"; lit "/data/out/ScanB.nii.gz"])].
Proof. vm_compute. reflexivity. Qed.

Lemma flat_mode_one_entry_witness :
  exists s1 results,
    convert_loop Toy.os Toy.cwd
      (Toy.converter false [Demo.scan_a_info; Toy.scan_b_info]) 2 1
      (Toy.folders [Demo.scan_a_info; Toy.scan_b_info]) [] Toy.start
    = (s1, Ok results)
    /\ entries_at (lit "/data/out") results
       = [(lit "/data/out", [lit "/data/out/ScanA.nii.gz";
                             lit "/data/out/ScanB.nii.gz"])].
Proof.
  destruct (@flat_mode_one_entry_for_successes Toy.World Toy.os Toy.cwd Demo.fs
              Demo.tree (Toy.converter false [Demo.scan_a_info; Toy.scan_b_info])
              Toy.start eq_refl)
    as [_ [s1 [results [Hloop [_ [_ [_ Hrun]]]]]]].
  exists s1, results. split; [exact Hloop|].
  pose (self := Toy.converter false [Demo.scan_a_info; Toy.scan_b_info]).
  pose (s0 := fst (convert_loop Toy.os Toy.cwd self 2 1
                     (Toy.folders [Demo.scan_a_info]) [] Toy.start)).
  pose (s2 := fst (_convert_folder Toy.os Toy.cwd self Toy.scan_b_info
                     (mkSt (world s0)
                        (log s0 ++ [InfoConverting 2 2 (lit "ScanB")])))).
  refine (proj2 (proj2 (proj2 (proj2
    (Hrun (Toy.folders [Demo.scan_a_info]) (lit "/data/in/P001/ScanB")
          Toy.scan_b_info [] s0
          [(lit "/data/out", [lit "/data/out/ScanA.nii.gz"])] s2
          (lit "/data/out")
          [lit "/data/out/ScanA.nii.gz"; lit "/data/out/ScanB.nii.gz"]
          _ _ _)))) eq_refl).
  - vm_compute. reflexivity.
  - vm_compute. reflexivity.
  - vm_compute. reflexivity.
Defined.

(** The [except] branch of [convert_all]: a folder whose conversion raises
    is stored under its source path. *)
Lemma convert_item_failure (World : Type) (os : OS World) (cwd : str)
    (self : Converter) (total idx : nat) (path : str) (info : DicomFolder)
    (results : dict (list str)) (s0 s1 : St World) (e : exn) :
  _convert_folder os cwd self info
    (mkSt (world s0) (log s0 ++ [InfoConverting idx total (folder_name info)]))
  = (s1, Raise e) ->
  convert_item os cwd self total idx (path, info) results s0
  = (mkSt (world s1) (log s1 ++ [ErrorConvertFailed e]),
     Ok (Dict.set path [] results)).
Proof.
  intros Hconv. unfold convert_item, bind, try_except, emit, ret. simpl.
  now rewrite Hconv.
Qed.

(** C1: the entry of a folder whose conversion raises is not stored under
    its output directory.  The destination of the folder [/data/in/locked]
    is [/data/out/locked]; creating it raises, and [convert_all] returns a
    mapping whose only key is the source path [/data/in/locked], holding
    the empty list. *)
Theorem failed_folder_recorded_under_source_path :
  _get_output_subdir Toy.cwd (Toy.converter true [Toy.locked_info])
                    Toy.locked_info
  = Ok (parse (lit "/data/out/locked"))
  /\ snd (_convert_folder Toy.os Toy.cwd (Toy.converter true [Toy.locked_info])
            Toy.locked_info Toy.start)
     = Raise (OSError (lit "Permission denied"))
  /\ snd (convert_all Toy.os Toy.cwd Demo.fs Demo.tree
            (Toy.converter true [Toy.locked_info]) Toy.start)
     = Ok [(lit "/data/in/locked", [])]
  /\ Dict.get (lit "/data/out/locked")
       [(lit "/data/in/locked", @nil str)] = None.
Proof. repeat split; vm_compute; reflexivity. Qed.

Example convert_all_mirrored_demo :
  snd (convert_all Toy.os Toy.cwd Demo.fs Demo.tree
         (Toy.converter true
            [Demo.scan_a_info; Toy.locked_info; Toy.scan_b_info]) Toy.start)
  = Ok [(lit "/data/out/P001/ScanA", [lit "/data/out/P001/ScanA/ScanA.nii.gz"]);
        (lit "/data/in/locked", []);
        (lit "/data/out/P001/ScanB", [lit "/data/out/P001/ScanB/ScanB.nii.gz"])].
Proof. vm_compute. reflexivity. Qed.

(** C2: the file name template passed to dcm2niix never holds the
    patient-name placeholder [%n]; [include_patient_info] switches the
    protocol-name placeholder [%p]; the series-number and
    series-description placeholders [%s] and [%d] are always there. *)
Theorem filename_format_placeholders (self : Converter) :
  filename_format self
  = (if include_patient_info self then lit "%p_%s_%d" else lit "%s_%d")
  /\ nth 4 (dcm2niix_cmd self (lit "in") (lit "out")) [] = filename_format self
  /\ contains (lit "%n") (filename_format self) = false
  /\ contains (lit "%p") (filename_format self) = include_patient_info self
  /\ contains (lit "%s") (filename_format self) = true
  /\ contains (lit "%d") (filename_format self) = true.
Proof.
  unfold dcm2niix_cmd, filename_format. simpl nth.
  destruct (include_patient_info self); repeat split; reflexivity.
Qed.

(* ================================================================= *)
(** * Further properties *)

(** ** [strip] *)

Lemma lstrip_result (s : str) : lstrip s = [] \/ head_is_word (lstrip s) = true.
Proof.
  induction s as [|c s IH]; simpl; [now left|].
  destruct (is_space c) eqn:E; [exact IH|].
  right. simpl. now rewrite E.
Qed.

Lemma lstrip_idempotent (s : str) : lstrip (lstrip s) = lstrip s.
Proof.
  destruct (lstrip_result s) as [H|H]; [now rewrite H|].
  now apply lstrip_word_head.
Qed.

Lemma lstrip_suffix (s : str) : exists sp, s = sp ++ lstrip s.
Proof.
  induction s as [|c s [sp IH]]; [now exists []|]. simpl.
  destruct (is_space c).
  - exists (c :: sp). simpl. now f_equal.
  - now exists [].
Qed.

Lemma rstrip_prefix (s : str) : exists sp, s = rstrip s ++ sp.
Proof.
  destruct (lstrip_suffix (rev s)) as [sp H].
  exists (rev sp). unfold rstrip. rewrite <- rev_app_distr, <- H.
  now rewrite rev_involutive.
Qed.

Lemma rstrip_idempotent (s : str) : rstrip (rstrip s) = rstrip s.
Proof.
  unfold rstrip. now rewrite rev_involutive, lstrip_idempotent.
Qed.

Lemma lstrip_rstrip (s : str) :
  s = [] \/ head_is_word s = true -> lstrip (rstrip s) = rstrip s.
Proof.
  intros [->|H]; [reflexivity|].
  destruct (rstrip_prefix s) as [sp E].
  destruct (rstrip s) as [|c r]; [reflexivity|].
  apply lstrip_word_head. rewrite E in H. exact H.
Qed.

Lemma strip_idempotent (s : str) : strip (strip s) = strip s.
Proof.
  unfold strip. rewrite lstrip_rstrip by apply lstrip_result.
  apply rstrip_idempotent.
Qed.

(** ** [_analyze_dicom_folder], continued *)

Lemma sample_files_descriptions (fs : FileSystem) (ps : list str)
    (acc : pyset * pyset) (x : str) :
  In x (fst (fold_left (sample_file fs) ps acc))
  <-> In x (fst acc)
      \/ (x <> [] /\ exists p d v,
            In p ps /\ dcmread fs p = Some d
            /\ SeriesDescription d = Some v /\ strip v = x).
Proof.
  revert acc; induction ps as [|p ps IH]; intros acc; simpl.
  - split; [now left|]. intros [H|[_ [p [d [v [[] _]]]]]]. exact H.
  - rewrite IH. clear IH. destruct acc as [series_set series_uids].
    unfold sample_file at 1. simpl.
    destruct (dcmread fs p) as [d|] eqn:Ed; simpl.
    + destruct (SeriesDescription d) as [v|] eqn:Ev; simpl.
      * destruct (strip v) as [|c desc] eqn:Es; simpl.
        -- split.
           ++ intros [H|[Hx [q [d' [v' [Hq H']]]]]]; [now left|right].
              split; [exact Hx|]. exists q, d', v'. split; [now right|exact H'].
           ++ intros [H|[Hx [q [d' [v' [[<-|Hq] [Hd [Hv Hs]]]]]]]];
                [now left| |].
              ** exfalso. rewrite Ed in Hd. injection Hd as <-.
                 rewrite Ev in Hv. injection Hv as <-. congruence.
              ** right. split; [exact Hx|]. now exists q, d', v'.
        -- rewrite add_In. split.
           ++ intros [[->|H]|[Hx [q [d' [v' [Hq H']]]]]].
              ** right. split; [discriminate|].
                 exists p, d, v. split; [now left|]. now repeat split.
              ** now left.
              ** right. split; [exact Hx|].
                 exists q, d', v'. split; [now right|exact H'].
           ++ intros [H|[Hx [q [d' [v' [[<-|Hq] [Hd [Hv Hs]]]]]]]].
              ** left. now right.
              ** left. left. rewrite Ed in Hd. injection Hd as <-.
                 rewrite Ev in Hv. injection Hv as <-. congruence.
              ** right. split; [exact Hx|]. now exists q, d', v'.
      * split.
        -- intros [H|[Hx [q [d' [v' [Hq H']]]]]]; [now left|right].
           split; [exact Hx|]. exists q, d', v'. split; [now right|exact H'].
        -- intros [H|[Hx [q [d' [v' [[<-|Hq] [Hd [Hv Hs]]]]]]]]; [now left| |].
           ++ rewrite Ed in Hd. injection Hd as <-. congruence.
           ++ right. split; [exact Hx|]. now exists q, d', v'.
    + split.
      * intros [H|[Hx [q [d' [v' [Hq H']]]]]]; [now left|right].
        split; [exact Hx|]. exists q, d', v'. split; [now right|exact H'].
      * intros [H|[Hx [q [d' [v' [[<-|Hq] [Hd [Hv Hs]]]]]]]]; [now left| |].
        -- congruence.
        -- right. split; [exact Hx|]. now exists q, d', v'.
Qed.

Lemma sample_files_uids (fs : FileSystem) (ps : list str)
    (acc : pyset * pyset) (x : str) :
  In x (snd (fold_left (sample_file fs) ps acc))
  <-> In x (snd acc)
      \/ exists p d, In p ps /\ dcmread fs p = Some d
                     /\ SeriesInstanceUID d = Some x.
Proof.
  revert acc; induction ps as [|p ps IH]; intros acc; simpl.
  - split; [now left|]. intros [H|[p [d [[] _]]]]. exact H.
  - rewrite IH. clear IH. destruct acc as [series_set series_uids].
    unfold sample_file at 1. simpl.
    destruct (dcmread fs p) as [d|] eqn:Ed; simpl.
    + destruct (SeriesInstanceUID d) as [u|] eqn:Eu; simpl.
      * rewrite add_In. split.
        -- intros [[->|H]|[q [d' [Hq H']]]].
           ++ right. exists p, d. split; [now left|now split].
           ++ now left.
           ++ right. exists q, d'. split; [now right|exact H'].
        -- intros [H|[q [d' [[<-|Hq] [Hd Hu]]]]].
           ++ left. now right.
           ++ left. left. rewrite Ed in Hd. injection Hd as <-. congruence.
           ++ right. now exists q, d'.
      * split.
        -- intros [H|[q [d' [Hq H']]]]; [now left|right].
           exists q, d'. split; [now right|exact H'].
        -- intros [H|[q [d' [[<-|Hq] [Hd Hu]]]]]; [now left| |].
           ++ rewrite Ed in Hd. injection Hd as <-. congruence.
           ++ right. now exists q, d'.
    + split.
      * intros [H|[q [d' [Hq H']]]]; [now left|right].
        exists q, d'. split; [now right|exact H'].
      * intros [H|[q [d' [[<-|Hq] [Hd Hu]]]]]; [now left| |].
        -- congruence.
        -- right. now exists q, d'.
Qed.

Lemma add_length (x : str) (s : pyset) : length (add x s) <= S (length s).
Proof.
  unfold add. destruct (mem x s); [lia|]. rewrite length_app. simpl. lia.
Qed.

Lemma sample_file_uids_NoDup (fs : FileSystem) (acc : pyset * pyset) (p : str) :
  NoDup (snd acc) -> NoDup (snd (sample_file fs acc p)).
Proof.
  destruct acc as [series_set series_uids]. unfold sample_file. simpl.
  intros H. destruct (dcmread fs p) as [d|]; [|exact H]. simpl.
  destruct (SeriesInstanceUID d); [now apply add_NoDup|exact H].
Qed.

Lemma sample_files_uids_NoDup (fs : FileSystem) (ps : list str)
    (acc : pyset * pyset) :
  NoDup (snd acc) -> NoDup (snd (fold_left (sample_file fs) ps acc)).
Proof.
  revert acc; induction ps as [|p ps IH]; intros acc H; simpl; [exact H|].
  apply IH. now apply sample_file_uids_NoDup.
Qed.

Lemma sample_file_lengths (fs : FileSystem) (acc : pyset * pyset) (p : str) :
  length (fst (sample_file fs acc p)) <= S (length (fst acc))
  /\ length (snd (sample_file fs acc p)) <= S (length (snd acc)).
Proof.
  destruct acc as [series_set series_uids]. unfold sample_file. simpl.
  destruct (dcmread fs p) as [d|]; simpl; [|lia]. split.
  - destruct (SeriesDescription d) as [v|]; [|lia].
    destruct (truthy (strip v)); [apply add_length|lia].
  - destruct (SeriesInstanceUID d); [apply add_length|lia].
Qed.

Lemma sample_files_lengths (fs : FileSystem) (ps : list str)
    (acc : pyset * pyset) :
  length (fst (fold_left (sample_file fs) ps acc))
    <= length (fst acc) + length ps
  /\ length (snd (fold_left (sample_file fs) ps acc))
    <= length (snd acc) + length ps.
Proof.
  revert acc; induction ps as [|p ps IH]; intros acc; simpl; [lia|].
  destruct (IH (sample_file fs acc p)) as [H1 H2].
  destruct (sample_file_lengths fs acc p) as [H3 H4]. lia.
Qed.

(** The record [_analyze_dicom_folder] builds, with the state of the
    sampling loop made explicit. *)
Lemma analyze_unfold (fs : FileSystem) (path : str) (fl : list str)
    (info : DicomFolder) :
  _analyze_dicom_folder fs path fl = Some info ->
  exists first rest dcm,
    fl = first :: rest /\ dcmread fs first = Some dcm
    /\ let sampled := fold_left (sample_file fs) (firstn 100 fl) ([], []) in
       info = mkDicomFolder path (OsPath.basename path)
                (strip (getattr (PatientID dcm) (lit "Unknown")))
                (strip (getattr (StudyDate dcm) (lit "")))
                (strip (getattr (StudyDescription dcm) (lit "")))
                (match snd sampled with
                 | [] => length (fst sampled)
                 | _ :: _ => length (snd sampled)
                 end)
                (length fl)
                (sorted (fst sampled)).
Proof.
  unfold _analyze_dicom_folder. destruct fl as [|first rest]; [discriminate|].
  destruct (dcmread fs first) as [dcm|] eqn:Edcm; [|discriminate].
  intros H. exists first, rest, dcm. split; [reflexivity|].
  split; [exact Edcm|].
  destruct (fold_left (sample_file fs) (firstn 100 (first :: rest)) ([], []))
    as [series_set series_uids].
  now injection H as <-.
Qed.

(** X1: [_analyze_dicom_folder] gives no record exactly when the file list
    is empty or the header of its first file cannot be parsed; a header
    that fails further down the list never makes it fail. *)
Theorem analyze_fails_iff (fs : FileSystem) (path : str) (fl : list str) :
  _analyze_dicom_folder fs path fl = None
  <-> fl = [] \/ exists first rest, fl = first :: rest /\ dcmread fs first = None.
Proof.
  unfold _analyze_dicom_folder. destruct fl as [|first rest].
  - split; [now left|reflexivity].
  - destruct (dcmread fs first) as [dcm|] eqn:E.
    + destruct (fold_left (sample_file fs) (firstn 100 (first :: rest))
                  ([], [])) as [series_set series_uids].
      split; [discriminate|].
      intros [H|[f [r [[= <- <-] H]]]]; congruence.
    + split; [|reflexivity]. intros _. right. now exists first, rest.
Qed.

(** X2: the series count of a folder record never exceeds the number of
    sampled files: it is at most 100 and at most [file_count]. *)
Theorem series_count_bounded (fs : FileSystem) (path : str) (fl : list str)
    (info : DicomFolder) :
  _analyze_dicom_folder fs path fl = Some info ->
  series_count info <= 100
  /\ series_count info <= file_count info
  /\ length (series_descriptions info) <= 100
  /\ 1 <= file_count info.
Proof.
  intros H. apply analyze_unfold in H as [first [rest [dcm [Efl [_ ->]]]]].
  cbn [series_count file_count series_descriptions].
  destruct (sample_files_lengths fs (firstn 100 fl) ([], [])) as [H1 H2].
  set (sampled := fold_left (sample_file fs) (firstn 100 fl) ([], [])) in *.
  cbn [fst snd length] in H1, H2.
  assert (Hn : length (firstn 100 fl) <= 100) by apply firstn_le_length.
  assert (Hm : length (firstn 100 fl) <= length fl).
  { rewrite length_firstn. lia. }
  assert (Hs : length (sorted (fst sampled)) = length (fst sampled)).
  { apply Permutation_length, sorted_perm. }
  rewrite Hs.
  assert (1 <= length fl) by (rewrite Efl; simpl; lia).
  destruct (snd sampled) eqn:E; lia.
Qed.

Lemma series_count_bounded_witness :
  series_count Demo.many_info <= 100
  /\ series_count Demo.many_info <= file_count Demo.many_info
  /\ length (series_descriptions Demo.many_info) <= 100
  /\ 1 <= file_count Demo.many_info.
Proof.
  apply (@series_count_bounded Demo.many_fs (lit "/big") Demo.many_files
           Demo.many_info).
  vm_compute. reflexivity.
Defined.

(** X3: every text field of a folder record is trimmed: [strip] leaves the
    patient id, the study date, the study description and each series
    description unchanged. *)
Theorem analyze_fields_stripped (fs : FileSystem) (path : str)
    (fl : list str) (info : DicomFolder) :
  _analyze_dicom_folder fs path fl = Some info ->
  strip (patient_id info) = patient_id info
  /\ strip (study_date info) = study_date info
  /\ strip (study_description info) = study_description info
  /\ forall desc, In desc (series_descriptions info) -> strip desc = desc.
Proof.
  intros H. apply analyze_unfold in H as [first [rest [dcm [_ [_ ->]]]]].
  cbn [patient_id study_date study_description series_descriptions].
  repeat split; try apply strip_idempotent.
  intros desc Hin.
  apply (Permutation_in _ (sorted_perm _)) in Hin.
  apply sample_files_descriptions in Hin as [[]|[_ [p [d [v [_ [_ [_ <-]]]]]]]].
  apply strip_idempotent.
Qed.

Lemma analyze_fields_stripped_witness :
  strip (patient_id Demo.scan_a_info) = patient_id Demo.scan_a_info
  /\ strip (study_date Demo.scan_a_info) = study_date Demo.scan_a_info
  /\ strip (study_description Demo.scan_a_info)
     = study_description Demo.scan_a_info
  /\ forall desc, In desc (series_descriptions Demo.scan_a_info) ->
                  strip desc = desc.
Proof.
  apply (@analyze_fields_stripped Demo.fs Demo.scan_a Cases.scan_a_files
           Demo.scan_a_info).
  vm_compute. reflexivity.
Defined.

(** X4: the series descriptions of a folder record are exactly the
    non-empty trimmed values of the SeriesDescription attribute of the
    sampled files whose header parses. *)
Theorem analyze_descriptions_exact (fs : FileSystem) (path : str)
    (fl : list str) (info : DicomFolder) (desc : str) :
  _analyze_dicom_folder fs path fl = Some info ->
  (In desc (series_descriptions info)
   <-> desc <> []
       /\ exists d v, sampled_header fs fl d
                      /\ SeriesDescription d = Some v /\ strip v = desc).
Proof.
  intros H. apply analyze_unfold in H as [first [rest [dcm [_ [_ ->]]]]].
  cbn [series_descriptions]. split.
  - intros Hin. apply (Permutation_in _ (sorted_perm _)) in Hin.
    apply sample_files_descriptions in Hin
      as [[]|[Hne [p [d [v [Hp [Hd [Hv Hs]]]]]]]].
    split; [exact Hne|]. exists d, v. split; [now exists p|now split].
  - intros [Hne [d [v [[p [Hp Hd]] [Hv Hs]]]]].
    apply (Permutation_in _ (Permutation_sym (sorted_perm _))).
    apply sample_files_descriptions. right. split; [exact Hne|].
    now exists p, d, v.
Qed.

Lemma analyze_descriptions_exact_witness :
  In (lit "T2") (series_descriptions Demo.scan_a_info)
  <-> lit "T2" <> []
      /\ exists d v, sampled_header Demo.fs Cases.scan_a_files d
                     /\ SeriesDescription d = Some v /\ strip v = lit "T2".
Proof.
  apply (@analyze_descriptions_exact Demo.fs Demo.scan_a Cases.scan_a_files
           Demo.scan_a_info (lit "T2")).
  vm_compute. reflexivity.
Defined.

(** X5: the series count of a folder record is the number of distinct
    SeriesInstanceUID values among the sampled files whose header parses,
    or, when no sampled file has one, the number of series descriptions. *)
Theorem series_count_counts_uids (fs : FileSystem) (path : str)
    (fl : list str) (info : DicomFolder) :
  _analyze_dicom_folder fs path fl = Some info ->
  exists uids,
    NoDup uids
    /\ (forall u, In u uids
                  <-> exists d, sampled_header fs fl d
                                /\ SeriesInstanceUID d = Some u)
    /\ series_count info
       = match uids with
         | [] => length (series_descriptions info)
         | _ :: _ => length uids
         end.
Proof.
  intros H. apply analyze_unfold in H as [first [rest [dcm [_ [_ ->]]]]].
  cbn [series_count series_descriptions].
  exists (snd (fold_left (sample_file fs) (firstn 100 fl) ([], []))).
  split; [apply sample_files_uids_NoDup; constructor|]. split.
  - intros u. rewrite sample_files_uids. simpl. split.
    + intros [[]|[p [d [Hp [Hd Hu]]]]]. exists d. split; [now exists p|exact Hu].
    + intros [d [[p [Hp Hd]] Hu]]. right. now exists p, d.
  - destruct (snd (fold_left (sample_file fs) (firstn 100 fl) ([], [])));
      [|reflexivity].
    symmetry. apply Permutation_length, sorted_perm.
Qed.

Lemma series_count_counts_uids_witness :
  exists uids,
    NoDup uids
    /\ (forall u, In u uids
                  <-> exists d, sampled_header Demo.fs Cases.scan_a_files d
                                /\ SeriesInstanceUID d = Some u)
    /\ series_count Demo.scan_a_info
       = match uids with
         | [] => length (series_descriptions Demo.scan_a_info)
         | _ :: _ => length uids
         end.
Proof.
  apply (@series_count_counts_uids Demo.fs Demo.scan_a Cases.scan_a_files
           Demo.scan_a_info).
  vm_compute. reflexivity.
Defined.

(** ** [scan_dicom_folders], continued *)

Lemma set_fresh {V} (k : str) (v : V) (d : dict V) :
  ~ In k (Dict.keys d) -> Dict.set k v d = d ++ [(k, v)].
Proof.
  induction d as [|[k0 v0] d IH]; simpl; [reflexivity|].
  intros H. destruct (str_eqb k k0) eqn:E.
  - apply str_eqb_eq in E. subst k0. exfalso. apply H. now left.
  - rewrite IH; [reflexivity|]. intros Hin. apply H. now right.
Qed.

Lemma get_Some_In {V} (k : str) (v : V) (d : dict V) :
  Dict.get k d = Some v -> In (k, v) d.
Proof.
  induction d as [|[k0 v0] d IH]; simpl; [discriminate|].
  destruct (str_eqb k k0) eqn:E.
  - apply str_eqb_eq in E. subst k0. intros [= ->]. now left.
  - intros H. right. now apply IH.
Qed.

Lemma scan_entry_keys (fs : FileSystem) (root : str) (dirs fl : list str) :
  Dict.keys (scan_entry fs (root, dirs, fl)) = []
  \/ Dict.keys (scan_entry fs (root, dirs, fl)) = [root].
Proof.
  unfold scan_entry.
  destruct (filter (_is_dicom_file fs) (map (OsPath.join root) fl))
    as [|f dicom_files]; [now left|].
  destruct (_analyze_dicom_folder fs root (f :: dicom_files));
    [now right|now left].
Qed.

Lemma scan_dir_fresh (fs : FileSystem) (acc : dict DicomFolder)
    (entry : str * list str * list str) :
  ~ In (fst (fst entry)) (Dict.keys acc) ->
  scan_dir fs acc entry = acc ++ scan_entry fs entry.
Proof.
  destruct entry as [[root dirs] fl]. cbn [fst]. intros H.
  unfold scan_dir, scan_entry.
  destruct (filter (_is_dicom_file fs) (map (OsPath.join root) fl))
    as [|f dicom_files]; [now rewrite app_nil_r|].
  destruct (_analyze_dicom_folder fs root (f :: dicom_files));
    [now apply set_fresh|now rewrite app_nil_r].
Qed.

Lemma scan_fold_flat_map (fs : FileSystem)
    (walk : list (str * list str * list str)) (acc : dict DicomFolder) :
  NoDup (Dict.keys acc ++ map (fun e => fst (fst e)) walk) ->
  fold_left (scan_dir fs) walk acc = acc ++ flat_map (scan_entry fs) walk.
Proof.
  revert acc; induction walk as [|[[root dirs] fl] walk IH]; intros acc Hnd;
    [simpl; now rewrite app_nil_r|].
  change (fold_left (scan_dir fs) ((root, dirs, fl) :: walk) acc)
    with (fold_left (scan_dir fs) walk (scan_dir fs acc (root, dirs, fl))).
  change (flat_map (scan_entry fs) ((root, dirs, fl) :: walk))
    with (scan_entry fs (root, dirs, fl) ++ flat_map (scan_entry fs) walk).
  cbn [map fst] in Hnd.
  assert (Hroot : ~ In root (Dict.keys acc)).
  { intros Hin. apply NoDup_remove_2 in Hnd. apply Hnd.
    apply in_or_app. now left. }
  rewrite (scan_dir_fresh fs acc (root, dirs, fl) Hroot).
  rewrite IH; [now rewrite <- app_assoc|].
  unfold Dict.keys. rewrite map_app. fold (Dict.keys acc).
  fold (Dict.keys (scan_entry fs (root, dirs, fl))).
  destruct (scan_entry_keys fs root dirs fl) as [-> | ->].
  - rewrite app_nil_r. now apply NoDup_remove_1 in Hnd.
  - rewrite <- app_assoc. exact Hnd.
Qed.

Lemma walk_reaches (d : Dir) :
  forall top p dirs fl,
    In (p, dirs, fl) (os_walk top d) ->
    exists d', reaches top d p d'
               /\ dirs = map dname (subdirs d') /\ fl = files d'.
Proof.
  induction d as [n subs fls IH] using Dir_induction.
  intros top p dirs fl Hin. simpl in Hin. destruct Hin as [[= <- <- <-]|Hin].
  - exists (mkDir n subs fls). split; [apply reaches_here|now split].
  - apply in_flat_map in Hin as [sd [Hsd Hin]].
    rewrite Forall_forall in IH.
    destruct (IH sd Hsd _ _ _ _ Hin) as [d' [Hr Hd']].
    exists d'. split; [|exact Hd'].
    now apply reaches_below with (sd := sd).
Qed.

(** Every entry of a scan, with the directory of the walk it was built
    for. *)
Lemma scan_fold_source (fs : FileSystem)
    (walk : list (str * list str * list str)) (acc : dict DicomFolder)
    (p : str) (info : DicomFolder) :
  In (p, info) (fold_left (scan_dir fs) walk acc) ->
  In (p, info) acc
  \/ exists dirs fl,
       In (p, dirs, fl) walk
       /\ _analyze_dicom_folder fs p
            (filter (_is_dicom_file fs) (map (OsPath.join p) fl)) = Some info.
Proof.
  revert acc; induction walk as [|[[root dirs] fl] walk IH]; intros acc;
    simpl; [now left|].
  intros H. destruct (IH _ H) as [Hacc|[dirs' [fl' [Hin Han]]]].
  - unfold scan_dir in Hacc.
    destruct (filter (_is_dicom_file fs) (map (OsPath.join root) fl))
      as [|f dicom_files] eqn:E; [now left|].
    destruct (_analyze_dicom_folder fs root (f :: dicom_files)) as [fi|] eqn:Ea;
      [|now left].
    apply set_In in Hacc as [[-> ->]|Hacc]; [right|now left].
    exists dirs, fl. split; [now left|]. now rewrite E.
  - right. exists dirs', fl'. split; [now right|exact Han].
Qed.

(** X6: in a tree whose directories have valid, pairwise different names,
    the scan result lists the folder records in the order in which
    [os.walk] visits their directories: it is the concatenation, over the
    walk, of what each directory contributes. *)
Theorem scan_in_walk_order (fs : FileSystem) (self : Converter) (tree : Dir) :
  wf_dir tree = true ->
  scan_dicom_folders fs self tree
  = flat_map (scan_entry fs) (os_walk (to_str (input_dir self)) tree).
Proof.
  intros Hwf. unfold scan_dicom_folders.
  rewrite scan_fold_flat_map; [reflexivity|].
  simpl. exact (wf_dir_distinct_paths tree _ Hwf).
Qed.

Lemma scan_in_walk_order_witness :
  scan_dicom_folders Demo.fs Demo.self Demo.tree
  = flat_map (scan_entry Demo.fs)
             (os_walk (to_str (input_dir Demo.self)) Demo.tree).
Proof.
  apply (@scan_in_walk_order Demo.fs Demo.self Demo.tree).
  vm_compute. reflexivity.
Defined.

(** X7: the scan never invents a folder: every entry of its result is
    keyed by the path of a directory reachable from the input root that has
    at least one imaging file directly under it; the record carries that
    path as [folder_path], its base name as [folder_name], and the number
    of imaging files of the directory as [file_count]. *)
Theorem scan_entries_are_imaging_folders (fs : FileSystem) (self : Converter)
    (tree : Dir) (p : str) (info : DicomFolder) :
  In (p, info) (scan_dicom_folders fs self tree) ->
  exists d,
    reaches (to_str (input_dir self)) tree p d
    /\ imaging_files fs p d <> []
    /\ folder_path info = p
    /\ folder_name info = OsPath.basename p
    /\ file_count info = length (imaging_files fs p d).
Proof.
  intros H. apply scan_fold_source in H as [[]|[dirs [fl [Hin Han]]]].
  apply walk_reaches in Hin as [d [Hr [_ ->]]].
  exists d. split; [exact Hr|]. fold (imaging_files fs p d) in Han.
  apply analyze_unfold in Han as [first [rest [dcm [Efl [_ ->]]]]].
  simpl. repeat split. rewrite Efl. discriminate.
Qed.

Lemma scan_entries_are_imaging_folders_witness :
  exists d,
    reaches (to_str (input_dir Demo.self)) Demo.tree Demo.scan_a d
    /\ imaging_files Demo.fs Demo.scan_a d <> []
    /\ folder_path Demo.scan_a_info = Demo.scan_a
    /\ folder_name Demo.scan_a_info = OsPath.basename Demo.scan_a
    /\ file_count Demo.scan_a_info
       = length (imaging_files Demo.fs Demo.scan_a d).
Proof.
  apply (@scan_entries_are_imaging_folders Demo.fs Demo.self Demo.tree
           Demo.scan_a Demo.scan_a_info).
  vm_compute. left. reflexivity.
Defined.

Lemma walk_entry_unique (walk : list (str * list str * list str))
    (p : str) (dirs dirs' fl fl' : list str) :
  NoDup (map (fun e => fst (fst e)) walk) ->
  In (p, dirs, fl) walk -> In (p, dirs', fl') walk ->
  dirs = dirs' /\ fl = fl'.
Proof.
  induction walk as [|e walk IH]; [contradiction|].
  simpl. intros Hnd H1 H2. inversion Hnd as [|? ? He Hnd']; subst.
  destruct H1 as [->|H1], H2 as [E|H2].
  - injection E as <- <-. now split.
  - exfalso. apply He.
    exact (in_map (fun e => fst (fst e)) walk (p, dirs', fl') H2).
  - exfalso. apply He. rewrite E.
    exact (in_map (fun e => fst (fst e)) walk (p, dirs, fl) H1).
  - now apply IH.
Qed.

Lemma analyze_fails (fs : FileSystem) (path : str) (fl : list str) :
  fl = [] \/ (exists first rest, fl = first :: rest /\ dcmread fs first = None) ->
  _analyze_dicom_folder fs path fl = None.
Proof.
  intros [->|[first [rest [-> H]]]]; [reflexivity|].
  unfold _analyze_dicom_folder. now rewrite H.
Qed.

(** X8: in a tree whose directories have valid, pairwise different names, a
    reachable directory without imaging files, or whose first imaging file
    has a header that cannot be parsed, has no entry in the scan result. *)
Theorem scan_omits_folder (fs : FileSystem) (self : Converter) (tree : Dir)
    (p : str) (d : Dir) :
  wf_dir tree = true ->
  reaches (to_str (input_dir self)) tree p d ->
  imaging_files fs p d = []
  \/ (exists first rest,
        imaging_files fs p d = first :: rest /\ dcmread fs first = None) ->
  Dict.get p (scan_dicom_folders fs self tree) = None.
Proof.
  intros Hwf Hreach Hnone. apply (analyze_fails fs p) in Hnone.
  destruct (Dict.get p (scan_dicom_folders fs self tree)) as [info|] eqn:E;
    [|reflexivity].
  apply get_Some_In in E.
  apply scan_fold_source in E as [[]|[dirs [fl [Hin Han]]]].
  apply reaches_walk in Hreach.
  destruct (walk_entry_unique _ _ _ _ _ _
              (wf_dir_distinct_paths tree _ Hwf) Hin Hreach) as [_ ->].
  unfold imaging_files in Hnone. congruence.
Qed.

Lemma scan_omits_folder_witness :
  Dict.get Demo.bad (scan_dicom_folders Demo.fs Demo.self Demo.tree) = None.
Proof.
  apply (@scan_omits_folder Demo.fs Demo.self Demo.tree Demo.bad Demo.bad_dir).
  - vm_compute. reflexivity.
  - exact reaches_bad.
  - right. exists (lit "/data/in/bad/x.dcm"), []. split; vm_compute; reflexivity.
Defined.

Lemma startswith_app (a s : str) : startswith a (a ++ s) = true.
Proof.
  induction a as [|c a IH]; [apply startswith_nil|].
  change (char_eqb c c && startswith a (a ++ s) = true).
  rewrite IH. unfold char_eqb. now rewrite N.eqb_refl.
Qed.

Lemma walk_roots_prefix (d : Dir) :
  forall top p,
    wf_dir d = true -> In p (walk_roots top d) -> exists s, p = top ++ s.
Proof.
  induction d as [m subs fl IH] using Dir_induction.
  intros top p Hwf Hp. rewrite walk_roots_mkDir in Hp.
  destruct Hp as [<-|Hp]; [exists []; now rewrite app_nil_r|].
  apply in_flat_map in Hp as [sd [Hsd Hp]].
  change (wf_dir (mkDir m subs fl))
    with (distinct (map dname subs)
          && forallb (fun sd => valid_name (dname sd) && wf_dir sd) subs)
    in Hwf.
  apply andb_true_iff in Hwf as [_ Hall].
  rewrite forallb_forall in Hall. specialize (Hall sd Hsd).
  apply andb_true_iff in Hall as [Hname Hwfsd].
  rewrite Forall_forall in IH.
  destruct (IH sd Hsd _ _ Hwfsd Hp) as [s ->].
  rewrite (join_valid_name _ _ Hname).
  exists (joiner top ++ dname sd ++ s). now rewrite <- !app_assoc.
Qed.

(** X9: in a tree whose directories have valid names, every key of the
    scan result, which is also the [folder_path] of its record, begins with
    the path of the input directory. *)
Theorem scan_keys_under_input (fs : FileSystem) (self : Converter)
    (tree : Dir) (p : str) (info : DicomFolder) :
  wf_dir tree = true ->
  In (p, info) (scan_dicom_folders fs self tree) ->
  startswith (to_str (input_dir self)) p = true
  /\ folder_path info = p.
Proof.
  intros Hwf H. apply scan_fold_source in H as [[]|[dirs [fl [Hin Han]]]].
  split.
  - assert (Hp : In p (walk_roots (to_str (input_dir self)) tree)).
    { exact (in_map (fun e => fst (fst e)) _ (p, dirs, fl) Hin). }
    apply (walk_roots_prefix _ _ _ Hwf) in Hp as [s ->].
    apply startswith_app.
  - apply analyze_unfold in Han as [first [rest [dcm [_ [_ ->]]]]].
    reflexivity.
Qed.

Lemma scan_keys_under_input_witness :
  startswith (to_str (input_dir Demo.self)) Demo.scan_a = true
  /\ folder_path Demo.scan_a_info = Demo.scan_a.
Proof.
  apply (@scan_keys_under_input Demo.fs Demo.self Demo.tree Demo.scan_a
           Demo.scan_a_info).
  - vm_compute. reflexivity.
  - vm_compute. left. reflexivity.
Defined.

(** ** [_clean_path_name], continued *)

Lemma split_word (w : str) : is_word w -> split w = [w].
Proof.
  intros [Hne Hall]. induction w as [|c w IH]; [contradiction|].
  simpl in Hall. apply andb_true_iff in Hall as [Hc Hw].
  unfold not_space in Hc. apply negb_true_iff in Hc.
  simpl. rewrite Hc. destruct w as [|c' w'].
  - reflexivity.
  - assert (Hh : head_is_word (c' :: w') = true).
    { simpl in Hw. apply andb_true_iff in Hw as [Hc' _]. exact Hc'. }
    rewrite Hh, IH; [reflexivity|discriminate|exact Hw].
Qed.

Lemma split_word_space (w t : str) (sp : char) :
  is_word w -> is_space sp = true -> split (w ++ sp :: t) = w :: split t.
Proof.
  intros [Hne Hall] Hsp. induction w as [|c w IH]; [contradiction|].
  simpl in Hall. apply andb_true_iff in Hall as [Hc Hw].
  unfold not_space in Hc. apply negb_true_iff in Hc.
  change ((c :: w) ++ sp :: t) with (c :: (w ++ sp :: t)).
  change (split (c :: (w ++ sp :: t)))
    with (if is_space c then split (w ++ sp :: t)
          else if head_is_word (w ++ sp :: t) then push c (split (w ++ sp :: t))
               else [c] :: split (w ++ sp :: t)).
  rewrite Hc. destruct w as [|c' w'].
  - simpl. now rewrite Hsp.
  - assert (Hh : head_is_word ((c' :: w') ++ sp :: t) = true).
    { simpl in Hw. apply andb_true_iff in Hw as [Hc' _]. exact Hc'. }
    rewrite Hh, IH; [reflexivity|discriminate|exact Hw].
Qed.

(** Splitting the space-join of words gives the words back. *)
Lemma split_join_space (ws : list str) :
  Forall is_word ws -> split (PyStr.join (lit " ") ws) = ws.
Proof.
  induction 1 as [|w ws Hw Hws IH]; [reflexivity|].
  destruct ws as [|w2 ws]; [now apply split_word|].
  change (PyStr.join (lit " ") (w :: w2 :: ws))
    with (w ++ 32%N :: PyStr.join (lit " ") (w2 :: ws)).
  rewrite split_word_space by (exact Hw || reflexivity).
  now rewrite IH.
Qed.

Lemma sanitize_char_idempotent (c : char) :
  sanitize_char (sanitize_char c) = sanitize_char c.
Proof.
  pose proof (sanitize_char_valid c) as H.
  unfold sanitize_char at 1.
  destruct (existsb (char_eqb (sanitize_char c)) invalid_chars) eqn:E;
    [|reflexivity].
  apply existsb_exists in E as [x [Hin Hx]]. apply char_eqb_eq in Hx.
  subst x. contradiction.
Qed.

Lemma map_fixed {A} (f : A -> A) (l : list A) :
  (forall x, In x l -> f x = x) -> map f l = l.
Proof.
  induction l as [|x l IH]; simpl; [reflexivity|]. intros H.
  rewrite (H x (or_introl eq_refl)), IH; [reflexivity|].
  intros y Hy. apply H. now right.
Qed.

Lemma clean_path_name_chars (name : str) (c : char) :
  In c (_clean_path_name name) -> sanitize_char c = c.
Proof.
  rewrite clean_path_name_eq. intros Hin.
  apply in_join_space in Hin as [->|Hin]; [reflexivity|].
  rewrite concat_split in Hin. apply filter_In in Hin as [Hin _].
  apply in_map_iff in Hin as [x [<- _]]. apply sanitize_char_idempotent.
Qed.

(** X10: [_clean_path_name] is idempotent: sanitizing a sanitized name
    changes nothing. *)
Theorem clean_path_name_idempotent (name : str) :
  _clean_path_name (_clean_path_name name) = _clean_path_name name.
Proof.
  rewrite (clean_path_name_eq (_clean_path_name name)).
  rewrite (map_fixed sanitize_char _ (clean_path_name_chars name)).
  rewrite clean_path_name_eq.
  now rewrite split_join_space by apply split_words.
Qed.

Lemma split_nil_iff (s : str) : split s = [] <-> forallb is_space s = true.
Proof.
  induction s as [|c s IH]; simpl; [tauto|].
  destruct (is_space c); simpl; [exact IH|].
  split; [|discriminate].
  destruct (head_is_word s); [|discriminate].
  destruct (split s); discriminate.
Qed.

Lemma forallb_is_space_sanitize (s : str) :
  forallb is_space (map sanitize_char s) = forallb is_space s.
Proof.
  induction s as [|c s IH]; simpl; [reflexivity|].
  now rewrite sanitize_char_space, IH.
Qed.

Lemma clean_path_name_nil (name : str) :
  _clean_path_name name = [] <-> forallb is_space name = true.
Proof.
  rewrite clean_path_name_eq, <- forallb_is_space_sanitize, <- split_nil_iff.
  pose proof (split_words (map sanitize_char name)) as Hw.
  destruct (split (map sanitize_char name)) as [|w ws] eqn:E.
  - split; reflexivity.
  - split; [|discriminate]. intros H.
    pose proof (join_head_word Hw ltac:(discriminate)) as Hh.
    rewrite H in Hh. discriminate.
Qed.

(** X11: [_clean_path_name] gives the empty string exactly for the names
    made of whitespace only (the empty name included); a name with any
    other character keeps a non-empty sanitized form. *)
Theorem clean_path_name_empty_iff (name : str) :
  _clean_path_name name = [] <-> forallb is_space name = true.
Proof. exact (clean_path_name_nil name). Qed.

Lemma join_space_push (c : char) (w : str) (ws : list str) :
  PyStr.join (lit " ") (push c (w :: ws)) = c :: PyStr.join (lit " ") (w :: ws).
Proof. destruct ws; reflexivity. Qed.

Lemma lstrip_length (s : str) : length (lstrip s) <= length s.
Proof.
  induction s as [|c s IH]; simpl; [lia|].
  destruct (is_space c); simpl; lia.
Qed.

Lemma join_split_length_lstrip (s : str) :
  length (PyStr.join (lit " ") (split s)) <= length (lstrip s).
Proof.
  induction s as [|c s IH]; [simpl; lia|].
  change (split (c :: s))
    with (if is_space c then split s
          else if head_is_word s then push c (split s) else [c] :: split s).
  change (lstrip (c :: s)) with (if is_space c then lstrip s else c :: s).
  destruct (is_space c) eqn:Hc; [exact IH|].
  destruct (head_is_word s) eqn:Hh.
  - rewrite (lstrip_word_head s Hh) in IH.
    assert (Hne : split s <> []).
    { intros E. apply split_nil_iff in E. destruct s as [|c' s']; [discriminate|].
      simpl in Hh, E. destruct (is_space c'); discriminate. }
    destruct (split s) as [|w ws]; [contradiction|].
    rewrite join_space_push. simpl length in *. lia.
  - destruct s as [|sp s'].
    + simpl. lia.
    + simpl in Hh. apply negb_false_iff in Hh.
      change (split (sp :: s'))
        with (if is_space sp then split s'
              else if head_is_word s' then push sp (split s')
                   else [sp] :: split s') in *.
      change (lstrip (sp :: s'))
        with (if is_space sp then lstrip s' else sp :: s') in IH.
      rewrite Hh in *.
      pose proof (lstrip_length s') as Hl.
      destruct (split s') as [|w ws].
      * simpl. lia.
      * change (PyStr.join (lit " ") ([c] :: w :: ws))
          with (c :: 32%N :: PyStr.join (lit " ") (w :: ws)).
        simpl length in *. lia.
Qed.

Lemma join_split_length (s : str) :
  length (PyStr.join (lit " ") (split s)) <= length s.
Proof.
  pose proof (join_split_length_lstrip s). pose proof (lstrip_length s). lia.
Qed.

(** X12: [_clean_path_name] never makes a name longer. *)
Theorem clean_path_name_length (name : str) :
  length (_clean_path_name name) <= length name.
Proof.
  rewrite clean_path_name_eq.
  rewrite <- (length_map sanitize_char name). apply join_split_length.
Qed.

(** ** Parsed paths *)

Lemma push_In (c : char) (ws : list str) (x : str) :
  In x (push c ws) ->
  (exists w, x = c :: w /\ (ws = [] /\ w = [] \/ exists ws', ws = w :: ws'))
  \/ In x (tl ws).
Proof.
  destruct ws as [|w ws]; simpl.
  - intros [<-|[]]. left. exists []. split; [reflexivity|now left].
  - intros [<-|H]; [|now right]. left. exists w. split; [reflexivity|].
    right. now exists ws.
Qed.

Lemma split_on_no_sep (s x : str) :
  In x (split_on OsPath.sep s) -> ~ In OsPath.sep x.
Proof.
  revert x; induction s as [|c s IH]; intros x; simpl.
  - intros [<-|[]] [].
  - destruct (char_eqb c OsPath.sep) eqn:E.
    + intros [<-|H]; [intros []|now apply IH].
    + intros H. apply push_In in H as [[w [-> Hw]]|H].
      * intros [Hc|Hin].
        -- subst c. unfold char_eqb in E. now rewrite N.eqb_refl in E.
        -- destruct Hw as [[_ ->]|[ws' Hws]]; [contradiction|].
           apply (IH w); [rewrite Hws; now left|exact Hin].
      * apply IH. destruct (split_on OsPath.sep s); [contradiction|now right].
Qed.

Lemma existsb_sep_false (x : str) :
  ~ In OsPath.sep x -> existsb (char_eqb OsPath.sep) x = false.
Proof.
  intros H. destruct (existsb (char_eqb OsPath.sep) x) eqn:E; [|reflexivity].
  apply existsb_exists in E as [c [Hc Ec]]. apply char_eqb_eq in Ec.
  subst c. contradiction.
Qed.

Lemma splitroot_root (s : str) :
  let r := fst (splitroot s) in
  r = [] \/ r = [OsPath.sep] \/ r = [OsPath.sep; OsPath.sep].
Proof.
  unfold splitroot. destruct s as [|a p1]; [now left|].
  destruct (char_eqb a OsPath.sep); [|now left].
  destruct p1 as [|b p2]; [right; now left|].
  destruct (char_eqb b OsPath.sep); [|right; now left].
  destruct (startswith [OsPath.sep] p2); simpl; auto.
Qed.

(** Every parsed path is well formed. *)
Lemma parse_wf (s : str) : wf_path (parse s) = true.
Proof.
  unfold parse, wf_path. pose proof (splitroot_root s) as Hr.
  destruct (splitroot s) as [r rel]. simpl in *.
  apply andb_true_iff. split.
  - destruct Hr as [-> | [-> | ->]]; reflexivity.
  - apply forallb_forall. intros x Hx. apply filter_In in Hx as [Hx Hf].
    apply andb_true_iff in Hf as [Ht Hd].
    unfold segment, valid_name. rewrite Ht, Hd.
    now rewrite (existsb_sep_false _ (split_on_no_sep _ _ Hx)).
Qed.

Lemma split_on_name (x : str) :
  ~ In OsPath.sep x -> split_on OsPath.sep x = [x].
Proof.
  induction x as [|c x IH]; simpl; [reflexivity|]. intros H.
  destruct (char_eqb c OsPath.sep) eqn:E.
  - apply char_eqb_eq in E. subst c. exfalso. apply H. now left.
  - rewrite IH; [reflexivity|]. intros Hin. apply H. now right.
Qed.

Lemma split_on_name_sep (x r : str) :
  ~ In OsPath.sep x ->
  split_on OsPath.sep (x ++ OsPath.sep :: r) = x :: split_on OsPath.sep r.
Proof.
  induction x as [|c x IH]; intros H.
  - reflexivity.
  - change ((c :: x) ++ OsPath.sep :: r) with (c :: (x ++ OsPath.sep :: r)).
    simpl. destruct (char_eqb c OsPath.sep) eqn:E.
    + apply char_eqb_eq in E. subst c. exfalso. apply H. now left.
    + rewrite IH; [reflexivity|]. intros Hin. apply H. now right.
Qed.

Lemma segment_spec (x : str) :
  segment x = true -> x <> [] /\ ~ In OsPath.sep x /\ x <> OsPath.curdir.
Proof.
  unfold segment. intros H. apply andb_true_iff in H as [Hv Hd].
  apply valid_name_spec in Hv as [Hne Hs]. repeat split; try assumption.
  intros ->. discriminate.
Qed.

Lemma split_on_join (t : list str) :
  t <> [] -> forallb segment t = true ->
  split_on OsPath.sep (PyStr.join [OsPath.sep] t) = t.
Proof.
  induction t as [|x t IH]; [contradiction|]. intros _ H.
  simpl in H. apply andb_true_iff in H as [Hx Ht].
  apply segment_spec in Hx as [_ [Hs _]].
  destruct t as [|y t]; [now apply split_on_name|].
  change (PyStr.join [OsPath.sep] (x :: y :: t))
    with (x ++ OsPath.sep :: PyStr.join [OsPath.sep] (y :: t)).
  rewrite (split_on_name_sep x _ Hs), IH; [reflexivity|discriminate|exact Ht].
Qed.

Lemma filter_segments (t : list str) :
  forallb segment t = true ->
  filter (fun x => truthy x && negb (str_eqb x OsPath.curdir)) t = t.
Proof.
  induction t as [|x t IH]; simpl; [reflexivity|]. intros H.
  apply andb_true_iff in H as [Hx Ht]. rewrite (IH Ht).
  unfold segment, valid_name in Hx.
  apply andb_true_iff in Hx as [Hv Hd]. apply andb_true_iff in Hv as [Hn _].
  now rewrite Hn, Hd.
Qed.

Lemma join_segments_head (t : list str) :
  t <> [] -> forallb segment t = true ->
  exists c b, PyStr.join [OsPath.sep] t = c :: b /\ char_eqb c OsPath.sep = false.
Proof.
  destruct t as [|x t]; [contradiction|]. intros _ H.
  simpl in H. apply andb_true_iff in H as [Hx _].
  apply segment_spec in Hx as [Hne [Hs _]].
  destruct x as [|c x]; [contradiction|].
  exists c. destruct t as [|y t].
  - exists x. split; [reflexivity|].
    destruct (char_eqb c OsPath.sep) eqn:E; [|reflexivity].
    apply char_eqb_eq in E. subst c. exfalso. apply Hs. now left.
  - exists (x ++ OsPath.sep :: PyStr.join [OsPath.sep] (y :: t)).
    split; [reflexivity|].
    destruct (char_eqb c OsPath.sep) eqn:E; [|reflexivity].
    apply char_eqb_eq in E. subst c. exfalso. apply Hs. now left.
Qed.

(** Parsing the text of a well-formed path gives the path back. *)
Lemma parse_to_str (p : Path) : wf_path p = true -> parse (to_str p) = p.
Proof.
  destruct p as [r t]. unfold wf_path. simpl. intros H.
  apply andb_true_iff in H as [Hr Ht].
  destruct t as [|x t].
  - apply orb_true_iff in Hr as [Hr|Hr];
      [apply orb_true_iff in Hr as [Hr|Hr]|];
      apply str_eqb_eq in Hr; subst r; reflexivity.
  - destruct (join_segments_head (t := x :: t) ltac:(discriminate) Ht)
      as [c [b [Ej Ec]]].
    pose proof (split_on_join (t := x :: t) ltac:(discriminate) Ht) as Hsplit.
    pose proof (filter_segments _ Ht) as Hfilter.
    unfold to_str, parse. cbn [root tail]. rewrite Ej in *.
    assert (Hc : char_eqb OsPath.sep c = false).
    { unfold char_eqb in *. now rewrite N.eqb_sym. }
    apply orb_true_iff in Hr as [Hr|Hr];
      [apply orb_true_iff in Hr as [Hr|Hr]|];
      apply str_eqb_eq in Hr; subst r.
    + cbn [app truthy]. unfold splitroot. rewrite Ec.
      now rewrite Hsplit, Hfilter.
    + cbn [app truthy]. unfold splitroot.
      assert (Es : char_eqb OsPath.sep OsPath.sep = true) by reflexivity.
      rewrite Es, Ec. now rewrite Hsplit, Hfilter.
    + cbn [app truthy]. unfold splitroot.
      assert (Es : char_eqb OsPath.sep OsPath.sep = true) by reflexivity.
      rewrite !Es.
      change (startswith [OsPath.sep] (c :: b))
        with (char_eqb OsPath.sep c && startswith [] b).
      rewrite Hc. cbn [andb]. now rewrite Hsplit, Hfilter.
Qed.

Lemma join_snoc (sep : str) (t : list str) (x : str) :
  t <> [] -> PyStr.join sep (t ++ [x]) = PyStr.join sep t ++ sep ++ x.
Proof.
  induction t as [|y t IH]; [contradiction|]. intros _.
  destruct t as [|z t]; [reflexivity|].
  change (PyStr.join sep ((y :: z :: t) ++ [x]))
    with (y ++ sep ++ PyStr.join sep ((z :: t) ++ [x])).
  rewrite IH by discriminate.
  change (PyStr.join sep (y :: z :: t)) with (y ++ sep ++ PyStr.join sep (z :: t)).
  now rewrite <- !app_assoc.
Qed.

Lemma joiner_segments (r : str) (t : list str) :
  t <> [] -> forallb segment t = true ->
  joiner (r ++ PyStr.join [OsPath.sep] t) = [OsPath.sep].
Proof.
  intros Hne Ht. destruct (exists_last Hne) as [front [x ->]].
  destruct (join_ends_with_last [OsPath.sep] front x) as [prefix ->].
  rewrite forallb_app in Ht. apply andb_true_iff in Ht as [_ Hx].
  simpl in Hx. rewrite andb_true_r in Hx.
  unfold segment in Hx. apply andb_true_iff in Hx as [Hv _].
  rewrite app_assoc. now apply joiner_after_name.
Qed.

Lemma child_wf (p : Path) (name : str) :
  wf_path p = true -> segment name = true -> wf_path (child p name) = true.
Proof.
  unfold wf_path, child. simpl. intros H Hn.
  apply andb_true_iff in H as [Hr Ht]. rewrite Hr, forallb_app, Ht. simpl.
  now rewrite Hn.
Qed.

(** Joining a well-formed path with a name adds the name as last segment. *)
Lemma truediv_child (p : Path) (name : str) :
  wf_path p = true -> segment name = true -> truediv p name = child p name.
Proof.
  intros Hwf Hn. unfold truediv.
  rewrite <- (parse_to_str (child p name) (child_wf p name Hwf Hn)).
  assert (Hv : valid_name name = true).
  { unfold segment in Hn. now apply andb_true_iff in Hn as [Hv _]. }
  destruct (segment_spec name Hn) as [Hne [Hs Hd]].
  destruct p as [r t]. unfold wf_path in Hwf. simpl in Hwf.
  apply andb_true_iff in Hwf as [Hr Ht].
  rewrite (join_valid_name _ _ Hv).
  destruct t as [|x t].
  - apply orb_true_iff in Hr as [Hr|Hr];
      [apply orb_true_iff in Hr as [Hr|Hr]|];
      apply str_eqb_eq in Hr; subst r.
    + unfold child, to_str. cbn [root tail app PyStr.join].
      destruct name as [|c name]; [contradiction|].
      cbn [truthy]. change (joiner OsPath.curdir) with [OsPath.sep].
      unfold parse.
      assert (Ec : char_eqb c OsPath.sep = false).
      { destruct (char_eqb c OsPath.sep) eqn:E; [|reflexivity].
        apply char_eqb_eq in E. subst c. exfalso. apply Hs. now left. }
      change (splitroot (OsPath.curdir ++ [OsPath.sep] ++ c :: name))
        with (@nil char, OsPath.curdir ++ OsPath.sep :: c :: name).
      unfold splitroot. rewrite Ec.
      rewrite (split_on_name_sep OsPath.curdir (c :: name))
        by (unfold OsPath.curdir, OsPath.sep; simpl; intuition discriminate).
      rewrite (split_on_name _ Hs). cbn [filter].
      change (truthy OsPath.curdir && negb (str_eqb OsPath.curdir OsPath.curdir))
        with false.
      cbn [truthy andb].
      apply str_eqb_neq in Hd. now rewrite Hd.
    + reflexivity.
    + reflexivity.
  - f_equal.
    destruct (join_segments_head (t := x :: t) ltac:(discriminate) Ht)
      as [c [b [Ej _]]].
    assert (E1 : to_str (mkPath r (x :: t))
                 = r ++ PyStr.join [OsPath.sep] (x :: t)).
    { unfold to_str. cbn [root tail]. rewrite Ej. now destruct r. }
    assert (E2 : to_str (child (mkPath r (x :: t)) name)
                 = r ++ PyStr.join [OsPath.sep] ((x :: t) ++ [name])).
    { unfold to_str, child. cbn [root tail].
      rewrite (join_snoc [OsPath.sep] (t := x :: t) name ltac:(discriminate)).
      rewrite Ej. now destruct r. }
    rewrite E1, E2.
    rewrite (joiner_segments r (t := x :: t) ltac:(discriminate) Ht).
    rewrite (join_snoc [OsPath.sep] (t := x :: t) name ltac:(discriminate)).
    now rewrite <- app_assoc.
Qed.

Lemma basename_child (p : Path) (name : str) :
  wf_path p = true -> segment name = true ->
  OsPath.basename (to_str (child p name)) = name.
Proof.
  intros Hwf Hn. destruct (segment_spec name Hn) as [Hne [Hs _]].
  destruct p as [r t]. unfold wf_path in Hwf. simpl in Hwf.
  apply andb_true_iff in Hwf as [Hr Ht].
  unfold child, to_str. cbn [root tail].
  destruct t as [|x t].
  - cbn [app PyStr.join].
    assert (Hnt : truthy (r ++ name) = true).
    { destruct r; [now destruct name|reflexivity]. }
    rewrite Hnt.
    apply orb_true_iff in Hr as [Hr|Hr];
      [apply orb_true_iff in Hr as [Hr|Hr]|];
      apply str_eqb_eq in Hr; subst r.
    + unfold OsPath.basename. now rewrite rsplit_name.
    + exact (basename_parent_name [] name Hs).
    + exact (basename_parent_name [OsPath.sep] name Hs).
  - rewrite (join_snoc [OsPath.sep] (t := x :: t) name ltac:(discriminate)).
    destruct (join_segments_head (t := x :: t) ltac:(discriminate) Ht)
      as [c [b [Ej _]]].
    assert (Hnt : truthy (r ++ PyStr.join [OsPath.sep] (x :: t)
                            ++ [OsPath.sep] ++ name) = true).
    { rewrite Ej. now destruct r. }
    rewrite Hnt, app_assoc.
    exact (basename_parent_name _ name Hs).
Qed.

(** ** [_get_output_subdir], continued *)

(** X13: [_get_output_subdir] raises only in mirrored mode and only for a
    folder record whose [folder_path] is empty, and what it raises is the
    [ValueError] of [os.path.relpath]; in every other case it returns a
    destination. *)
Theorem get_output_subdir_raises_iff (cwd : str) (self : Converter)
    (info : DicomFolder) (e : exn) :
  _get_output_subdir cwd self info = Raise e
  <-> e = ValueError
      /\ organize_by_folder self = true /\ folder_path info = [].
Proof.
  unfold _get_output_subdir, OsPath.relpath.
  destruct (organize_by_folder self).
  - destruct (folder_path info) as [|c fp]; cbn [truthy negb].
    + split; [intros [= <-]; now repeat split|now intros [-> _]].
    + match goal with
      | |- context [match ?l with [] => Some ?a | _ :: _ => Some ?b end] =>
          destruct l
      end; (split; [discriminate|intros [_ [_ H]]; discriminate]).
  - split; [discriminate|intros [_ [H _]]; discriminate].
Qed.

Lemma suffix_not_dot (self : Converter) (name : str) :
  endswith (nifti_suffix self) name = true ->
  str_eqb name OsPath.curdir = false.
Proof.
  intros H. destruct (str_eqb name OsPath.curdir) eqn:E; [|reflexivity].
  apply str_eqb_eq in E. subst name. unfold nifti_suffix in H.
  destruct (compress self); discriminate.
Qed.

Lemma get_output_subdir_wf (cwd : str) (self : Converter) (info : DicomFolder)
    (dest : Path) :
  wf_path (output_dir self) = true ->
  _get_output_subdir cwd self info = Ok dest -> wf_path dest = true.
Proof.
  intros Hwf. unfold _get_output_subdir.
  destruct (organize_by_folder self); [|now intros [= <-]].
  destruct (OsPath.relpath cwd (folder_path info) (to_str (input_dir self)));
    [|discriminate].
  intros [= <-]. apply parse_wf.
Qed.

(** ** [_convert_folder] *)

Section ConvertFolderFacts.

Context {World : Type}.
Variable os : OS World.
Variable cwd : str.
Variable self : Converter.

(** The run of [_convert_folder] with the external converter, once the
    destination is created and the subprocess has returned. *)
Lemma convert_folder_dcm2niix_ok (info : DicomFolder) (s0 s1 : St World)
    (out : str) (fl : list str) :
  use_dcm2niix self = true ->
  _convert_folder os cwd self info s0 = (s1, Ok (out, fl)) ->
  fl = glob os out (nifti_suffix self) (world s1).
Proof.
  intros Huse. unfold _convert_folder, bind, raise_result, lift, ret.
  destruct (_get_output_subdir cwd self info) as [dest|e]; [|discriminate].
  destruct (mkdir os dest (world s0)) as [w [[]|e]]; [|discriminate].
  rewrite Huse. unfold _convert_with_dcm2niix, bind, emit, lift. cbn [world log].
  destruct (subprocess_run os _ w) as [w' [completed|e]]; [|discriminate].
  destruct (negb (returncode completed =? 0)%Z); unfold emit, ret;
    cbn [world log]; now intros [= <- <- <-].
Qed.

End ConvertFolderFacts.

(** X14: when [_convert_folder] returns with the external converter, the
    key it returns is the text of the folder's destination, and every file
    it reports is an entry of that destination directory, as listed after
    the subprocess, whose name ends with the expected extension: the
    file's path is the destination extended by the entry's name, so its
    base name is the entry's name.  (The output directory is a parsed
    path and the listing gives valid names.) *)
Theorem convert_folder_files_in_destination (World : Type) (os : OS World)
    (cwd : str) (self : Converter) (info : DicomFolder) (s s' : St World)
    (key : str) (produced : list str) :
  use_dcm2niix self = true ->
  wf_path (output_dir self) = true ->
  _convert_folder os cwd self info s = (s', Ok (key, produced)) ->
  (forall name, In name (listdir os key (world s')) -> valid_name name = true) ->
  exists dest,
    _get_output_subdir cwd self info = Ok dest
    /\ key = to_str dest
    /\ forall f, In f produced ->
         exists name,
           In name (listdir os key (world s'))
           /\ endswith (if compress self then lit ".nii.gz" else lit ".nii")
                       name = true
           /\ f = to_str (child dest name)
           /\ OsPath.basename f = name.
Proof.
  intros Huse Hwf Hconv Hnames.
  destruct (convert_folder_key os cwd self info s Hconv) as [dest [Hdest ->]].
  pose proof (convert_folder_dcm2niix_ok os cwd self info s Huse Hconv) as ->.
  pose proof (get_output_subdir_wf cwd self info Hwf Hdest) as Hd.
  exists dest. split; [exact Hdest|]. split; [reflexivity|].
  intros f Hf. unfold glob in Hf. apply in_map_iff in Hf as [name [<- Hin]].
  apply filter_In in Hin as [Hin Hsuf].
  assert (Hseg : segment name = true).
  { unfold segment. rewrite (Hnames name Hin).
    now rewrite (suffix_not_dot self name Hsuf). }
  exists name. rewrite (parse_to_str dest Hd), (truediv_child dest name Hd Hseg).
  repeat split; try assumption. now apply basename_child.
Qed.

Lemma convert_folder_files_in_destination_witness :
  exists dest,
    _get_output_subdir Toy.cwd (Toy.converter true []) Toy.scan_b_info = Ok dest
    /\ lit "/data/out/P001/ScanB" = to_str dest
    /\ forall f, In f [lit "/data/out/P001/ScanB/ScanB.nii.gz"] ->
         exists name,
           In name (listdir Toy.os (lit "/data/out/P001/ScanB")
                            (world (fst Cases.scan_b_run)))
           /\ endswith (lit ".nii.gz") name = true
           /\ f = to_str (child dest name)
           /\ OsPath.basename f = name.
Proof.
  apply (@convert_folder_files_in_destination Toy.World Toy.os Toy.cwd
           (Toy.converter true []) Toy.scan_b_info Toy.start
           (fst Cases.scan_b_run) (lit "/data/out/P001/ScanB")
           [lit "/data/out/P001/ScanB/ScanB.nii.gz"]).
  - reflexivity.
  - vm_compute. reflexivity.
  - vm_compute. reflexivity.
  - intros name Hin. vm_compute in Hin.
    destruct Hin as [<-|[<-|[]]]; vm_compute; reflexivity.
Defined.


(** A key the loop stores is not empty when no folder has an empty
    [folder_path]. *)
Lemma result_key_nonempty (cwd : str) (self : Converter)
    (items : dict DicomFolder) (k : str) :
  (forall path info, In (path, info) items -> path <> []) ->
  result_key cwd self items k -> truthy k = true.
Proof.
  intros Hitems [path [info [Hin [->|[dest [_ ->]]]]]].
  - specialize (Hitems path info Hin). now destruct path.
  - pose proof (to_str_nonempty dest). now destruct (to_str dest).
Qed.


Section SummaryRaises.

Context {World : Type}.
Variable os : OS World.
Variable cwd : str.

Lemma raises_bind_left {A B} (m : M World A) (k : A -> M World B)
    (s : St World) (e : exn) :
  snd (m s) = Raise e -> snd (bind m k s) = Raise e.
Proof.
  unfold bind. destruct (m s) as [s1 [a|e1]]; cbn [snd]; [discriminate|].
  now intros [= ->].
Qed.

Lemma raises_bind_right {A B} (m : M World A) (k : A -> M World B)
    (s : St World) :
  (forall a s1, exists e, snd (k a s1) = Raise e) ->
  exists e, snd (bind m k s) = Raise e.
Proof.
  intros Hk. unfold bind. destruct (m s) as [s1 [a|e1]].
  - apply Hk.
  - now exists e1.
Qed.

(** The loop of [_print_summary] raises when it is given an empty key. *)
Lemma print_results_raises (self : Converter) (items : dict (list str)) :
  In [] (Dict.keys items) ->
  forall s, exists e, snd (print_results os cwd self items s) = Raise e.
Proof.
  induction items as [|[output_folder files] items IH]; [intros []|].
  intros Hin s. cbn [print_results].
  destruct output_folder as [|c output_folder].
  - exists ValueError. reflexivity.
  - destruct Hin as [Hin|Hin]; [discriminate|].
    apply raises_bind_right. intros rel_path s1.
    apply raises_bind_right. intros _ s2. now apply IH.
Qed.

Lemma print_summary_raises (self : Converter) (results : dict (list str))
    (s : St World) :
  In [] (Dict.keys results) ->
  exists e, snd (_print_summary os cwd self results s) = Raise e.
Proof.
  intros Hin. unfold _print_summary.
  do 9 (apply raises_bind_right; intros _ ?).
  match goal with
  | |- exists e, snd (bind _ _ ?st) = _ =>
      destruct (print_results_raises self results Hin st) as [e He]
  end.
  exists e. now apply raises_bind_left.
Qed.

End SummaryRaises.

(** X16: [convert_all] raises, after the conversions, whenever the mapping
    built by the loop has an empty key (the record of a failed folder
    whose [folder_path] is empty): [os.path.relpath] in the summary raises
    [ValueError] for that key, if no [print] call has raised before.  When
    every [print] call writes its line, [convert_all] on at least one
    folder raises exactly in that case, with that [ValueError], and
    returns the mapping otherwise; in particular it returns whenever no
    folder to convert has an empty [folder_path]. *)
Theorem convert_all_raises_on_empty_key (World : Type) (os : OS World)
    (cwd : str) (fs : FileSystem) (tree : Dir) (self : Converter)
    (s : St World) :
  let folders := folders_to_convert fs tree self in
  exists s1 results,
    convert_loop os cwd self (length folders) 1 folders [] s = (s1, Ok results)
    /\ (In [] (Dict.keys results) ->
        exists e, convert_all os cwd fs tree self s = (s1, Raise e))
    /\ (console_ok os ->
        folders <> [] ->
        convert_all os cwd fs tree self s
        = (s1, if forallb truthy (Dict.keys results) then Ok results
               else Raise ValueError))
    /\ (console_ok os ->
        (forall path info, In (path, info) folders -> path <> []) ->
        forallb truthy (Dict.keys results) = true
        /\ exists s', convert_all os cwd fs tree self s = (s', Ok results)).
Proof.
  intros folders.
  destruct (convert_all_run os cwd fs tree self s)
    as [s1 [results [Hloop [_ [_ [Hkeys Hall]]]]]].
  fold folders in Hloop, Hkeys, Hall.
  exists s1, results. split; [exact Hloop|]. split; [|split].
  - intros Hin. rewrite Hall.
    destruct folders as [|item items].
    + cbn [convert_loop] in Hloop. unfold ret in Hloop.
      injection Hloop as _ <-. destruct Hin.
    + cbn [Dict.is_empty].
      destruct (print_summary_raises os cwd self results s1 Hin) as [e ->].
      now exists e.
  - intros console Hne.
    rewrite (print_summary_ok cwd console) in Hall. cbn [snd] in Hall.
    rewrite Hall. destruct folders; [contradiction|].
    cbn [Dict.is_empty]. now destruct (forallb truthy (Dict.keys results)).
  - intros console Hpaths.
    rewrite (print_summary_ok cwd console) in Hall. cbn [snd] in Hall.
    assert (Hall_keys : forallb truthy (Dict.keys results) = true).
    { apply forallb_forall. intros k Hk.
      exact (result_key_nonempty Hpaths (Hkeys k Hk)). }
    split; [exact Hall_keys|]. rewrite Hall, Hall_keys.
    destruct (Dict.is_empty folders) eqn:E; [|now exists s1].
    destruct folders; [|discriminate]. cbn [convert_loop] in Hloop.
    unfold ret in Hloop. injection Hloop as _ <-. now eexists.
Qed.

Lemma convert_all_raises_on_empty_key_witness :
  convert_all Toy.os Toy.cwd Demo.fs Demo.tree
    (Toy.converter true [Demo.scan_a_info; Toy.unnamed_info]) Toy.start
  = (fst (convert_loop Toy.os Toy.cwd
            (Toy.converter true [Demo.scan_a_info; Toy.unnamed_info]) 2 1
            (Toy.folders [Demo.scan_a_info; Toy.unnamed_info]) [] Toy.start),
     Raise ValueError).
Proof.
  destruct (@convert_all_raises_on_empty_key Toy.World Toy.os Toy.cwd Demo.fs
              Demo.tree
              (Toy.converter true [Demo.scan_a_info; Toy.unnamed_info])
              Toy.start)
    as [s1 [results [Hloop [_ [Hall _]]]]].
  rewrite (Hall (fun _ _ => eq_refl)) by discriminate.
  vm_compute in Hloop. injection Hloop as <- <-.
  vm_compute. reflexivity.
Defined.

(** ** The constructor and [main] *)




Section MainFacts.

Context {World : Type}.
Variable host : Host World.
Variable os : OS World.
Variable cwd : str.
Variable fs : FileSystem.
Variable tree : Dir.

Lemma silent_print_series (descs : list str) : silent (print_series os descs).
Proof.
  induction descs as [|desc descs IH]; cbn [print_series].
  - apply silent_ret.
  - apply silent_bind; [apply silent_print|intros _; exact IH].
Qed.

Lemma silent_print_folders (converter : Converter) (items : dict DicomFolder) :
  silent (print_folders os cwd converter items).
Proof.
  induction items as [|[folder_path info] items IH]; cbn [print_folders].
  - apply silent_ret.
  - apply silent_bind; [apply silent_raise_result|intros rel_path].
    repeat (apply silent_bind; [apply silent_print|intros _]).
    apply silent_bind; [apply silent_print_series|intros _; exact IH].
Qed.

Lemma silent_print_folder_structure (converter : Converter) :
  silent (print_folder_structure os cwd converter).
Proof.
  unfold print_folder_structure.
  repeat (apply silent_bind; [apply silent_print|intros _]).
  apply silent_bind; [apply silent_print_folders|intros _].
  apply silent_print.
Qed.

Section Console.

Hypothesis console : console_ok os.





End Console.



End MainFacts.



(** X18: with [--info-only], [main] leaves the machine as the constructor
    left it: no destination is created, no converter is run. *)
Theorem main_info_only (World : Type) (host : Host World) (os : OS World)
    (cwd : str) (fs : FileSystem) (tree : Dir) (args : Args) (s : St World) :
  info_only args = true ->
  fst (main host os cwd fs tree args s) = fst (construct host os args s).
Proof.
  intros Hinfo. unfold main.
  destruct (construct host os args s) as [s1 [converter|e]]; [|reflexivity].
  destruct (Dict.is_empty (dicom_folders (scanned fs tree converter)));
    [reflexivity|].
  pose proof (silent_print_folder_structure os cwd (scanned fs tree converter)
                s1) as Hs.
  destruct (print_folder_structure os cwd (scanned fs tree converter) s1)
    as [s2 [[]|e]]; cbn [fst] in Hs; subst s2; [|reflexivity].
  now rewrite Hinfo.
Qed.

Lemma main_info_only_witness :
  fst (main Cases.host Cases.os Toy.cwd Demo.fs Demo.tree (Cases.args true)
            Toy.start)
  = fst (construct Cases.host Cases.os (Cases.args true) Toy.start).
Proof.
  apply (@main_info_only Toy.World Cases.host Cases.os Toy.cwd Demo.fs
           Demo.tree (Cases.args true) Toy.start).
  reflexivity.
Defined.

Example main_demo :
  main Cases.host Cases.os Toy.cwd Demo.fs Demo.tree (Cases.args false)
       Toy.start
  = (mkSt [(lit "/data/out", []);
           (lit "/data/out/P001/ScanA", [lit "ScanA.nii.gz"; lit "ScanA.json"])]
          [InfoConverting 1 1 (lit "ScanA");
           DebugCommand
             [lit "dcm2niix"; lit "-z"; lit "y"; lit "-f"; lit "%p_%s_%d";
              lit "-o"; lit "/data/out/P001/ScanA"; lit "-b"; lit "y";
              lit "/data/in/P001/ScanA"];
           InfoSuccess 1],
     0%Z).
Proof. vm_compute. reflexivity. Qed.

(** A [print] call that raises in [print_folder_structure] ends [main]
    with status 1 before any conversion. *)
Example main_print_raises :
  main Cases.host Cases.os_strict Toy.cwd Demo.fs Demo.tree (Cases.args false)
       Toy.start
  = (mkSt [(lit "/data/out", [])] [], 1%Z).
Proof. vm_compute. reflexivity. Qed.

(** X19: when the input directory does not exist, [main] exits with
    status 1 and leaves the machine untouched: the output directory is not
    created and no process is started. *)
Theorem main_missing_input (World : Type) (host : Host World) (os : OS World)
    (cwd : str) (fs : FileSystem) (tree : Dir) (args : Args) (s : St World) :
  path_exists host (resolve host (arg_input args) (world s)) (world s) = false ->
  main host os cwd fs tree args s = (s, 1%Z).
Proof.
  intros H. unfold main, construct, __init__. cbn [input_dir].
  now rewrite H.
Qed.

Lemma main_missing_input_witness :
  main Cases.host Cases.os Toy.cwd Demo.fs Demo.tree
       (mkArgs (lit "/nowhere") (lit "/data/out") false false false false
               false false)
       Toy.start
  = (Toy.start, 1%Z).
Proof.
  apply (@main_missing_input Toy.World Cases.host Cases.os Toy.cwd Demo.fs
           Demo.tree).
  reflexivity.
Defined.

(** X20: a converter that the constructor returns has the resolved input
    and output directories, the options as given and an empty folder
    mapping; its input directory exists and its output directory was
    created; and it uses the external converter exactly when that was
    requested and the version probe could be started: the exit status of
    the probe is not looked at. *)
Theorem init_converter (World : Type) (host : Host World) (os : OS World)
    (input output : str) (c u o i : bool) (s s' : St World)
    (self : Converter) :
  __init__ host os input output c u o i s = (s', Ok self) ->
  path_exists host (input_dir self) (world s) = true
  /\ input_dir self = resolve host input (world s)
  /\ output_dir self = resolve host output (world s)
  /\ compress self = c /\ organize_by_folder self = o
  /\ include_patient_info self = i /\ dicom_folders self = []
  /\ exists w1,
       mkdir os (output_dir self) (world s) = (w1, Ok tt)
       /\ (use_dcm2niix self = true
           <-> u = true
               /\ exists w2 completed,
                    subprocess_run os probe_cmd w1 = (w2, Ok completed)).
Proof.
  unfold __init__. cbn [input_dir output_dir].
  destruct (path_exists host (resolve host input (world s)) (world s)) eqn:Hex;
    [|discriminate].
  cbn [negb]. unfold bind, lift, ret.
  destruct (mkdir os (resolve host output (world s)) (world s))
    as [w1 [[]|e]] eqn:Hmk; [|discriminate].
  destruct u.
  - unfold _check_dcm2niix. cbn [world log].
    destruct (subprocess_run os probe_cmd w1) as [w2 [completed|e]] eqn:Hrun.
    + intros [= <- <-]. cbn. repeat split; try assumption.
      exists w1. split; [exact Hmk|]. split; [|reflexivity].
      intros _. split; [reflexivity|]. now exists w2, completed.
    + destruct (is_FileNotFoundError host e); [|discriminate].
      intros [= <- <-]. cbn. repeat split; try assumption.
      exists w1. split; [exact Hmk|]. split; [discriminate|].
      intros [_ [w2' [cp H]]]. congruence.
  - intros [= <- <-]. cbn. repeat split; try assumption.
    exists w1. split; [exact Hmk|]. split; [discriminate|].
    intros [H _]. discriminate.
Qed.

Lemma init_converter_witness :
  use_dcm2niix (Toy.converter true []) = true
  <-> true = true
      /\ exists w2 completed,
           subprocess_run Cases.os probe_cmd [(lit "/data/out", [])]
           = (w2, Ok completed).
Proof.
  destruct (@init_converter Toy.World Cases.host Cases.os
              (lit "/data/in") (lit "/data/out") true true true true
              Toy.start (mkSt [(lit "/data/out", [])] [])
              (Toy.converter true []) eq_refl)
    as [_ [_ [_ [_ [_ [_ [_ [w1 [Hmk Hiff]]]]]]]]].
  injection Hmk as <-. exact Hiff.
Defined.

(** ** The fallback strategy *)

Example format_03d_examples :
  Fallback.format_03d 5 = lit "005"
  /\ Fallback.format_03d 1234 = lit "1234"
  /\ Fallback.format_03d (-5) = lit "-05"
  /\ Fallback.decimal 0 = lit "0" /\ Fallback.decimal 120 = lit "120".
Proof. repeat split; reflexivity. Qed.

Example replace_str_examples :
  Fallback.replace_str (lit ".nii") [] (lit "/out/a.nii") = lit "/out/a"
  /\ Fallback.replace_str (lit ".nii") [] (lit "/o.nii/a.nii") = lit "/o/a"
  /\ Fallback.replace_str (lit "aa") (lit "b") (lit "aaa") = lit "ba".
Proof. repeat split; reflexivity. Qed.

Lemma group_files_get (fs : FileSystem) (uid : str) (paths : list str) :
  forall acc,
    Dict.get uid (fold_left (Fallback.group_file fs) paths acc)
    = match Dict.get uid acc, Fallback.series_members fs uid paths with
      | Some l, m => Some (l ++ m)
      | None, [] => None
      | None, m => Some m
      end.
Proof.
  induction paths as [|p paths IH]; intros acc.
  - simpl. destruct (Dict.get uid acc); [now rewrite app_nil_r|reflexivity].
  - cbn [fold_left]. rewrite IH. clear IH.
    unfold Fallback.series_members. cbn [flat_map].
    fold (Fallback.series_members fs uid paths).
    unfold Fallback.group_file.
    destruct (dcmread fs p) as [dcm|]; [|reflexivity].
    destruct (SeriesInstanceUID dcm) as [u|]; [|reflexivity].
    destruct (str_eqb u uid) eqn:E.
    + apply str_eqb_eq in E. subst u. rewrite get_set_eq.
      destruct (Dict.get uid acc) as [l|].
      * now rewrite <- app_assoc.
      * reflexivity.
    + assert (Hne : uid <> u).
      { intros ->. rewrite str_eqb_refl in E. discriminate. }
      now rewrite (get_set_ne _ _ Hne).
Qed.

(** X21: the first loop of the fallback strategy groups the files by
    series: after it, the group stored under a series identifier holds
    exactly the files (with their headers) whose header parses and carries
    that identifier, in the order of the walk; an identifier no file
    carries has no group, so no group is empty, and a file without a
    parseable header or without identifier is in no group. *)
Theorem fallback_groups_by_series (fs : FileSystem) (uid : str)
    (paths : list str) :
  Dict.get uid (fold_left (Fallback.group_file fs) paths [])
  = match Fallback.series_members fs uid paths with
    | [] => None
    | members => Some members
    end.
Proof. now rewrite group_files_get. Qed.

Section FallbackFacts.

Context {World : Type}.
Variable img : Fallback.Imaging World.

Lemma free_path_first_free (w : World) (base_path ext : str) (k : nat) :
  forall fuel counter output_path,
    (forall j, j < k ->
       Fallback.exists_ img
         (Fallback.round_path base_path ext counter output_path j) w = true) ->
    Fallback.exists_ img
      (Fallback.round_path base_path ext counter output_path k) w = false ->
    k <= fuel ->
    Fallback.free_path img w base_path ext fuel counter output_path
    = Some (Fallback.round_path base_path ext counter output_path k).
Proof.
  induction k as [|k IH]; intros fuel counter output_path Htaken Hfree Hfuel.
  - simpl in Hfree. destruct fuel; simpl; now rewrite Hfree.
  - destruct fuel as [|fuel]; [lia|].
    pose proof (Htaken 0 ltac:(lia)) as H0. simpl in H0.
    cbn [Fallback.free_path]. rewrite H0.
    rewrite (IH fuel (S counter)
               (base_path ++ lit "_" ++ Fallback.decimal counter ++ ext)).
    + destruct k; simpl; [now rewrite Nat.add_0_r|].
      now rewrite Nat.add_succ_r.
    + intros j Hj. specialize (Htaken (S j) ltac:(lia)).
      destruct j; simpl in *; [now rewrite Nat.add_0_r in Htaken|].
      now rewrite Nat.add_succ_r in Htaken.
    + destruct k; simpl in *; [now rewrite Nat.add_0_r in Hfree|].
      now rewrite Nat.add_succ_r in Hfree.
    + lia.
Qed.

Lemma free_path_sound (w : World) (base_path ext : str) (fuel : nat) :
  forall counter output_path p,
    Fallback.free_path img w base_path ext fuel counter output_path = Some p ->
    Fallback.exists_ img p w = false
    /\ (p = output_path
        \/ exists c, p = base_path ++ lit "_" ++ Fallback.decimal c ++ ext).
Proof.
  induction fuel as [|fuel IH]; intros counter output_path p; simpl.
  - destruct (Fallback.exists_ img output_path w) eqn:E; [discriminate|].
    intros [= <-]. split; [exact E|now left].
  - destruct (Fallback.exists_ img output_path w) eqn:E.
    + intros H. destruct (IH _ _ _ H) as [Hp [->|Hc]].
      * split; [exact Hp|]. right. now exists counter.
      * split; [exact Hp|now right].
    + intros [= <-]. split; [exact E|now left].
Qed.

End FallbackFacts.

(** X22: the collision loop of the fallback strategy picks the first free
    path: when the paths of its rounds 0 to [k-1] exist and the path of
    round [k] does not, it ends (within [k] rounds) with the path of
    round [k]; round 0 is the path as first built, round [j] the base path
    followed by an underscore, [j] in decimal and the extension.  So a
    path that does not exist yet is used unchanged. *)
Theorem fallback_collision_first_free (World : Type)
    (img : Fallback.Imaging World) (w : World) (base_path ext : str)
    (output_path : str) (k fuel : nat) :
  (forall j, j < k ->
     Fallback.exists_ img (Fallback.candidate base_path ext output_path j) w
     = true) ->
  Fallback.exists_ img (Fallback.candidate base_path ext output_path k) w
  = false ->
  k <= fuel ->
  Fallback.free_path img w base_path ext fuel 1 output_path
  = Some (Fallback.candidate base_path ext output_path k).
Proof.
  intros Htaken Hfree Hfuel.
  assert (Hc : forall j, Fallback.round_path base_path ext 1 output_path j
                         = Fallback.candidate base_path ext output_path j).
  { intros [|j]; reflexivity. }
  rewrite <- Hc. apply free_path_first_free; [|now rewrite Hc|exact Hfuel].
  intros j Hj. rewrite Hc. now apply Htaken.
Qed.

Lemma fallback_collision_first_free_witness :
  Fallback.free_path Cases.img Cases.taken (lit "/data/out/S003_T1")
                     (lit ".nii.gz") 5 1 (lit "/data/out/S003_T1.nii.gz")
  = Some (lit "/data/out/S003_T1_2.nii.gz").
Proof.
  apply (@fallback_collision_first_free Toy.World Cases.img Cases.taken
           (lit "/data/out/S003_T1") (lit ".nii.gz")
           (lit "/data/out/S003_T1.nii.gz") 2 5).
  - intros j Hj. destruct j as [|[|j]]; [reflexivity|reflexivity|lia].
  - reflexivity.
  - lia.
Defined.

Lemma endswith_app (p ext : str) : endswith ext (p ++ ext) = true.
Proof. unfold endswith. rewrite rev_app_distr. apply startswith_app. Qed.

Lemma join_suffix (a b : str) : exists prefix, OsPath.join a b = prefix ++ b.
Proof.
  unfold OsPath.join. destruct (startswith [OsPath.sep] b); [now exists []|].
  destruct (negb (truthy a) || endswith [OsPath.sep] a).
  - now exists a.
  - exists (a ++ [OsPath.sep]). now rewrite <- app_assoc.
Qed.

Lemma candidate_suffix (a name ext : str) (k : nat) :
  endswith ext
    (Fallback.candidate
       (Fallback.replace_str ext [] (OsPath.join a (name ++ ext))) ext
       (OsPath.join a (name ++ ext)) k) = true.
Proof.
  destruct k as [|k]; cbn [Fallback.candidate].
  - destruct (join_suffix a (name ++ ext)) as [prefix ->].
    rewrite app_assoc. apply endswith_app.
  - rewrite !app_assoc. apply endswith_app.
Qed.

(** X23: a series whose series number counts as true and cannot be
    formatted as an integer gets no output name: it is skipped, nothing is
    written and the machine is left as it is.  For a series that gets an
    output name, when rounds 0 to [k-1] of the collision loop meet existing
    paths and round [k] a free one, the volume is written to the path of
    round [k], which ends with the expected extension; the series is
    reported with that path when the writing returns, and is skipped,
    without raising, when the writing raises.  So no existing file is ever
    written over. *)
Theorem fallback_series_written_to_free_path (World : Type)
    (img : Fallback.Imaging World) (self : Converter) (fuel k : nat)
    (output_folder series_uid first_path : str) (dcm : Dataset)
    (rest : list (str * Dataset)) (w : World) :
  let ext := if compress self then lit ".nii.gz" else lit ".nii" in
  (Fallback.output_name img series_uid first_path dcm = None
   <-> Fallback.SeriesNumber img first_path = Fallback.Unformattable)
  /\ (Fallback.output_name img series_uid first_path dcm = None ->
      Fallback.convert_series img self fuel output_folder
        (series_uid, (first_path, dcm) :: rest) w
      = Some (w, None))
  /\ forall output_name,
       Fallback.output_name img series_uid first_path dcm = Some output_name ->
       let output_path := OsPath.join output_folder (output_name ++ ext) in
       let base_path := Fallback.replace_str ext [] output_path in
       let chosen := Fallback.candidate base_path ext output_path k in
       (forall j, j < k ->
          Fallback.exists_ img (Fallback.candidate base_path ext output_path j) w
          = true) ->
       Fallback.exists_ img chosen w = false ->
       k <= fuel ->
       Fallback.convert_series img self fuel output_folder
         (series_uid, (first_path, dcm) :: rest) w
       = Some (match Fallback.write_series img
                       (sorted (first_path :: map fst rest)) chosen w with
               | (w', Ok _) => (w', Some chosen)
               | (w', Raise _) => (w', None)
               end)
       /\ endswith ext chosen = true.
Proof.
  intros ext. split; [|split].
  - unfold Fallback.output_name.
    destruct (Fallback.SeriesNumber img first_path) as [z| |];
      cbn [Fallback.is_true Fallback.format_series_num].
    + destruct (negb (z =? 0)%Z); split; discriminate.
    + split; discriminate.
    + split; reflexivity.
  - intros Hname. unfold Fallback.convert_series. now rewrite Hname.
  - intros output_name Hname output_path base_path chosen Htaken Hfree Hfuel.
    split; [|apply candidate_suffix].
    unfold Fallback.convert_series. rewrite Hname.
    change (nifti_suffix self) with ext.
    fold output_path. fold base_path.
    assert (Hc : forall j, Fallback.round_path base_path ext 1 output_path j
                           = Fallback.candidate base_path ext output_path j).
    { intros [|j]; reflexivity. }
    rewrite (@free_path_first_free World img w base_path ext k fuel 1
               output_path);
      [| intros j Hj; rewrite Hc; now apply Htaken
       | rewrite Hc; exact Hfree
       | exact Hfuel].
    rewrite Hc. fold chosen. cbn [map fst].
    destruct (Fallback.write_series img (sorted (first_path :: map fst rest))
                chosen w) as [w' [[]|e]]; reflexivity.
Qed.

Lemma fallback_series_written_witness :
  (Fallback.convert_series Cases.img (Toy.converter true []) 5
     (lit "/data/out") Cases.series_t1 Cases.taken
   = Some ([(lit "/data/out",
             [lit "S003_T1.nii.gz"; lit "S003_T1_1.nii.gz";
              lit "S003_T1_2.nii.gz"])],
           Some (lit "/data/out/S003_T1_2.nii.gz"))
   /\ endswith (lit ".nii.gz") (lit "/data/out/S003_T1_2.nii.gz") = true)
  /\ Fallback.convert_series Cases.img_multi (Toy.converter true []) 5
       (lit "/data/out") Cases.series_t1 Cases.taken
     = Some (Cases.taken, None).
Proof.
  split.
  - apply (proj2 (proj2
             (@fallback_series_written_to_free_path Toy.World Cases.img
                (Toy.converter true []) 5 2 (lit "/data/out") (lit "1.2.840.1")
                (lit "/data/in/P001/ScanA/2.dcm") (Demo.header (lit "T1"))
                [(lit "/data/in/P001/ScanA/3.dcm", Demo.header (lit "T1"))]
                Cases.taken)) (lit "S003_T1")).
    + reflexivity.
    + intros j Hj. destruct j as [|[|j]]; [reflexivity|reflexivity|lia].
    + reflexivity.
    + lia.
  - apply (proj1 (proj2
             (@fallback_series_written_to_free_path Toy.World Cases.img_multi
                (Toy.converter true []) 5 0 (lit "/data/out") (lit "1.2.840.1")
                (lit "/data/in/P001/ScanA/2.dcm") (Demo.header (lit "T1"))
                [(lit "/data/in/P001/ScanA/3.dcm", Demo.header (lit "T1"))]
                Cases.taken))).
    reflexivity.
Defined.

Section FallbackRun.

Context {World : Type}.
Variable img : Fallback.Imaging World.
Variable self : Converter.

Lemma convert_series_suffix (fuel : nat) (output_folder : str)
    (series : str * list (str * Dataset)) (w w' : World) (p : str) :
  Fallback.convert_series img self fuel output_folder series w
  = Some (w', Some p) ->
  endswith (nifti_suffix self) p = true /\ Fallback.exists_ img p w = false.
Proof.
  destruct series as [series_uid [|[first_path dcm] rest]]; [discriminate|].
  unfold Fallback.convert_series.
  destruct (Fallback.output_name img series_uid first_path dcm)
    as [output_name|]; [|discriminate].
  destruct (Fallback.free_path img w _ _ fuel 1 _) as [q|] eqn:Hfree;
    [|discriminate].
  apply free_path_sound in Hfree as [Hq Hform].
  destruct (Fallback.write_series img _ q w) as [w1 [[]|e]];
    [|discriminate].
  intros [= <- <-]. split; [|exact Hq].
  destruct Hform as [->|[c ->]].
  - destruct (join_suffix output_folder (output_name ++ nifti_suffix self))
      as [prefix ->].
    rewrite app_assoc. apply endswith_app.
  - rewrite !app_assoc. apply endswith_app.
Qed.

Lemma convert_each_reports (fuel : nat) (output_folder : str)
    (series : dict (list (str * Dataset))) :
  forall w converted w' result,
    Fallback.convert_each img self fuel output_folder series w converted
    = Some (w', result) ->
    exists added,
      result = converted ++ added
      /\ length added <= length series
      /\ Forall (fun p => endswith (nifti_suffix self) p = true) added.
Proof.
  induction series as [|one series IH]; intros w converted w' result; simpl.
  - intros [= <- <-]. exists []. rewrite app_nil_r. repeat split; auto.
  - destruct (Fallback.convert_series img self fuel output_folder one w)
      as [[w1 [p|]]|] eqn:Hone; [| |discriminate].
    + intros H. destruct (IH _ _ _ _ H) as [added [-> [Hlen Hall]]].
      exists (p :: added). rewrite <- app_assoc. repeat split.
      * simpl. lia.
      * constructor; [|exact Hall].
        now apply (convert_series_suffix _ _ _ _ Hone).
    + intros H. destruct (IH _ _ _ _ H) as [added [-> [Hlen Hall]]].
      exists added. repeat split; [lia|exact Hall].
Qed.

End FallbackRun.

(** X24: without SimpleITK the fallback strategy returns the empty list and
    leaves the machine untouched.  Whenever it returns, it reports at most
    one file per series found under the input folder, and every reported
    path ends with the expected extension. *)
Theorem fallback_reports (World : Type) (img : Fallback.Imaging World)
    (fs : FileSystem) (self : Converter) (fuel : nat)
    (input_folder : str) (tree : Dir) (output_folder : str) (w : World) :
  (Fallback.simpleitk img = false ->
   Fallback._convert_with_python img fs self fuel input_folder tree
     output_folder w = Some (w, []))
  /\ forall w' converted,
       Fallback._convert_with_python img fs self fuel input_folder tree
         output_folder w = Some (w', converted) ->
       length converted
       <= length (fold_left (Fallback.group_file fs)
                    (Fallback.walk_files input_folder tree) [])
       /\ forall p, In p converted ->
            endswith (if compress self then lit ".nii.gz" else lit ".nii") p
            = true.
Proof.
  unfold Fallback._convert_with_python. split.
  - intros ->. reflexivity.
  - intros w' converted. destruct (Fallback.simpleitk img); cbn [negb].
    + intros H. apply convert_each_reports in H as [added [-> [Hlen Hall]]].
      split; [exact Hlen|]. rewrite Forall_forall in Hall. exact Hall.
    + intros [= <- <-]. split; [simpl; lia|intros p []].
Qed.

Lemma replace_from_skip_all (old new s : str) :
  Fallback.replace_from old new (length s) s = [].
Proof. induction s as [|c s IH]; simpl; [reflexivity|exact IH]. Qed.

(** Removing the extension from a path that holds it only at its end gives
    the path without it. *)
Lemma replace_str_final (ext s : str) :
  ext <> [] ->
  (forall i, i < length s -> startswith ext (skipn i (s ++ ext)) = false) ->
  Fallback.replace_str ext [] (s ++ ext) = s.
Proof.
  intros Hext. unfold Fallback.replace_str.
  induction s as [|c s IH]; intros Hno.
  - destruct ext as [|e ext]; [contradiction|].
    cbn [app Fallback.replace_from].
    assert (Hs : startswith (e :: ext) (e :: ext) = true).
    { rewrite <- (app_nil_r (e :: ext)) at 2. apply startswith_app. }
    rewrite Hs. cbn [length Nat.sub app]. rewrite Nat.sub_0_r.
    apply replace_from_skip_all.
  - change ((c :: s) ++ ext) with (c :: (s ++ ext)).
    cbn [Fallback.replace_from].
    pose proof (Hno 0 ltac:(simpl; lia)) as H0. cbn [skipn app] in H0.
    change ((c :: s) ++ ext) with (c :: (s ++ ext)) in H0. rewrite H0.
    f_equal. apply IH. intros i Hi.
    exact (Hno (S i) ltac:(simpl; lia)).
Qed.

Lemma join_name_ext (a name : str) (self : Converter) :
  OsPath.join a (name ++ nifti_suffix self)
  = OsPath.join a name ++ nifti_suffix self.
Proof.
  unfold OsPath.join.
  assert (Hs : startswith [OsPath.sep] (name ++ nifti_suffix self)
               = startswith [OsPath.sep] name).
  { destruct name as [|c name]; [|reflexivity].
    unfold nifti_suffix. now destruct (compress self). }
  rewrite Hs. destruct (startswith [OsPath.sep] name); [reflexivity|].
  destruct (negb (truthy a) || endswith [OsPath.sep] a);
    now rewrite <- !app_assoc.
Qed.

(** X25: the numbered alternatives of the collision loop keep the folder
    and the base name: when the extension occurs in the first path only at
    its end, the base path is the output folder joined with the output
    name, and round [k] tries that path followed by an underscore, [k] in
    decimal and the extension. *)
Theorem fallback_alternatives_keep_base_name (self : Converter)
    (output_folder output_name : str) (k : nat) :
  let ext := nifti_suffix self in
  let stem := OsPath.join output_folder output_name in
  let output_path := OsPath.join output_folder (output_name ++ ext) in
  (forall i, i < length stem ->
     startswith ext (skipn i (stem ++ ext)) = false) ->
  output_path = stem ++ ext
  /\ Fallback.replace_str ext [] output_path = stem
  /\ Fallback.candidate (Fallback.replace_str ext [] output_path) ext
       output_path (S k)
     = stem ++ lit "_" ++ Fallback.decimal (S k) ++ ext.
Proof.
  intros ext stem output_path Hno.
  assert (E : output_path = stem ++ ext) by apply join_name_ext.
  assert (Hext : ext <> []).
  { unfold ext, nifti_suffix. destruct (compress self); discriminate. }
  split; [exact E|]. rewrite E, (@replace_str_final ext stem Hext Hno).
  split; reflexivity.
Qed.

Lemma fallback_alternatives_witness :
  lit "/data/out/S003_T1.nii.gz" = lit "/data/out/S003_T1" ++ lit ".nii.gz"
  /\ Fallback.replace_str (lit ".nii.gz") [] (lit "/data/out/S003_T1.nii.gz")
     = lit "/data/out/S003_T1"
  /\ Fallback.candidate
       (Fallback.replace_str (lit ".nii.gz") []
          (lit "/data/out/S003_T1.nii.gz"))
       (lit ".nii.gz") (lit "/data/out/S003_T1.nii.gz") 2
     = lit "/data/out/S003_T1" ++ lit "_" ++ Fallback.decimal 2
       ++ lit ".nii.gz".
Proof.
  apply (@fallback_alternatives_keep_base_name (Toy.converter true [])
           (lit "/data/out") (lit "S003_T1") 1).
  intros i Hi. vm_compute in Hi.
  do 17 (destruct i as [|i]; [reflexivity|]). lia.
Defined.

Lemma strip_result (s : str) : strip s = [] \/ head_is_word (strip s) = true.
Proof.
  unfold strip. destruct (rstrip_prefix (lstrip s)) as [sp E].
  destruct (rstrip (lstrip s)) as [|c r]; [now left|right].
  destruct (lstrip_result s) as [H|H]; rewrite E in H; [discriminate|exact H].
Qed.

(** X26: the output name of a series in the fallback strategy is empty only
    when the series number is false, the trimmed series description is
    empty and the series identifier is empty; otherwise the volume gets a
    name before its extension. *)
Theorem fallback_output_name_empty_iff (World : Type)
    (img : Fallback.Imaging World) (series_uid first_path : str)
    (dcm : Dataset) :
  Fallback.output_name img series_uid first_path dcm = Some []
  <-> Fallback.is_true (Fallback.SeriesNumber img first_path) = false
      /\ strip (getattr (SeriesDescription dcm) (lit "")) = []
      /\ series_uid = [].
Proof.
  unfold Fallback.output_name.
  destruct (Fallback.is_true (Fallback.SeriesNumber img first_path)) eqn:Hz.
  - split; [|intros [H _]; discriminate].
    destruct (Fallback.format_series_num (Fallback.SeriesNumber img first_path))
      as [part|] eqn:Hpart; [|discriminate].
    destruct (Fallback.SeriesNumber img first_path); [|discriminate..].
    injection Hpart as <-. cbn [app PyStr.join]. discriminate.
  - cbn [app PyStr.join].
    destruct (strip_result (getattr (SeriesDescription dcm) (lit "")))
      as [Hs|Hs].
    + rewrite Hs. cbn [truthy]. split.
      * intros [= H]. repeat split. now destruct series_uid.
      * now intros [_ [_ ->]].
    + destruct (strip (getattr (SeriesDescription dcm) (lit "")))
        as [|c desc] eqn:E; [discriminate|].
      cbn [truthy]. split.
      * intros [= H]. apply clean_path_name_nil in H.
        simpl in Hs, H. apply negb_true_iff in Hs. rewrite Hs in H.
        discriminate.
      * intros [_ [H _]]. discriminate.
Qed.

(** ** The destination mirrors the source *)

Lemma join_app_segments (sep : str) (t u : list str) :
  t <> [] -> u <> [] ->
  PyStr.join sep (t ++ u) = PyStr.join sep t ++ sep ++ PyStr.join sep u.
Proof.
  intros Ht Hu. induction t as [|x t IH]; [contradiction|].
  destruct t as [|y t].
  - destruct u as [|z u]; [contradiction|]. reflexivity.
  - change (PyStr.join sep ((x :: y :: t) ++ u))
      with (x ++ sep ++ PyStr.join sep ((y :: t) ++ u)).
    rewrite IH by discriminate.
    change (PyStr.join sep (x :: y :: t)) with (x ++ sep ++ PyStr.join sep (y :: t)).
    now rewrite <- !app_assoc.
Qed.

Lemma resolved_spec (p : Path) :
  resolved p = true ->
  root p = [OsPath.sep] /\ forallb segment (tail p) = true
  /\ Forall (fun x => x <> OsPath.pardir) (tail p).
Proof.
  unfold resolved. intros H. apply andb_true_iff in H as [Hr Ht].
  apply str_eqb_eq in Hr. split; [exact Hr|].
  rewrite forallb_forall in Ht. split.
  - apply forallb_forall. intros x Hx. specialize (Ht x Hx).
    now apply andb_true_iff in Ht as [Hs _].
  - apply Forall_forall. intros x Hx E. specialize (Ht x Hx).
    apply andb_true_iff in Ht as [_ Hp]. subst x. discriminate.
Qed.

Lemma resolved_wf (p : Path) : resolved p = true -> wf_path p = true.
Proof.
  intros H. destruct (resolved_spec p H) as [Hr [Ht _]].
  unfold wf_path. rewrite Hr, Ht. reflexivity.
Qed.

Lemma to_str_resolved (p : Path) :
  root p = [OsPath.sep] ->
  to_str p = OsPath.sep :: PyStr.join [OsPath.sep] (tail p).
Proof. intros Hr. unfold to_str. now rewrite Hr. Qed.

Lemma plain_name_spec (x : str) :
  plain_name x = true ->
  segment x = true /\ x <> OsPath.pardir /\ forallb plain_char x = true.
Proof.
  unfold plain_name. intros H. apply andb_true_iff in H as [H Hc].
  apply andb_true_iff in H as [Hs Hp]. repeat split; try assumption.
  intros ->. discriminate.
Qed.

Lemma plain_names_segments (names : list str) :
  forallb plain_name names = true -> forallb segment names = true.
Proof.
  intros H. apply forallb_forall. intros x Hx.
  rewrite forallb_forall in H. specialize (H x Hx).
  now apply plain_name_spec in H as [Hs _].
Qed.

(** The text of an absolute path extended by segments. *)
Lemma to_str_extended (r : Path) (names : list str) :
  root r = [OsPath.sep] -> forallb segment (tail r) = true ->
  forallb segment names = true -> names <> [] ->
  to_str (mkPath [OsPath.sep] (tail r ++ names))
  = to_str r ++ joiner (to_str r) ++ PyStr.join [OsPath.sep] names.
Proof.
  intros Hr Ht Hn Hne. rewrite (@to_str_resolved r Hr).
  rewrite (@to_str_resolved (mkPath [OsPath.sep] (tail r ++ names)) eq_refl).
  cbn [tail]. destruct (tail r) as [|x t] eqn:E.
  - reflexivity.
  - change (OsPath.sep :: PyStr.join [OsPath.sep] (x :: t))
      with ([OsPath.sep] ++ PyStr.join [OsPath.sep] (x :: t)).
    rewrite (joiner_segments [OsPath.sep] (t := x :: t) ltac:(discriminate) Ht).
    rewrite (join_app_segments [OsPath.sep] (t := x :: t) (u := names)
               ltac:(discriminate) Hne).
    now rewrite <- !app_assoc.
Qed.

Lemma join_segments_not_abs (names : list str) :
  forallb segment names = true ->
  startswith [OsPath.sep] (PyStr.join [OsPath.sep] names) = false.
Proof.
  intros H. destruct names as [|x names]; [reflexivity|].
  destruct (join_segments_head (t := x :: names) ltac:(discriminate) H)
    as [c [b [-> Hc]]].
  change (startswith [OsPath.sep] (c :: b))
    with (char_eqb OsPath.sep c && startswith [] b).
  unfold char_eqb in *. rewrite N.eqb_sym, Hc. reflexivity.
Qed.

(** Joining an absolute path with a relative path of segments. *)
Lemma join_extended (r : Path) (names : list str) :
  root r = [OsPath.sep] -> forallb segment (tail r) = true ->
  forallb segment names = true -> names <> [] ->
  OsPath.join (to_str r) (PyStr.join [OsPath.sep] names)
  = to_str (mkPath [OsPath.sep] (tail r ++ names)).
Proof.
  intros Hr Ht Hn Hne. rewrite (@to_str_extended r names Hr Ht Hn Hne).
  unfold OsPath.join, joiner. rewrite (@join_segments_not_abs names Hn).
  destruct (negb (truthy (to_str r)) || endswith [OsPath.sep] (to_str r));
    reflexivity.
Qed.

(** The path [os.walk] gives the directory reached through [names]. *)
Lemma walk_path_extended (names : list str) :
  forall r,
    root r = [OsPath.sep] -> forallb segment (tail r) = true ->
    forallb segment names = true ->
    fold_left OsPath.join names (to_str r)
    = to_str (mkPath [OsPath.sep] (tail r ++ names)).
Proof.
  induction names as [|n names IH]; intros r Hr Ht Hn.
  - simpl. rewrite app_nil_r. destruct r as [rr rt]. simpl in Hr. now subst rr.
  - simpl in Hn. apply andb_true_iff in Hn as [Hs Hn].
    cbn [fold_left].
    assert (E : OsPath.join (to_str r) n
                = to_str (mkPath [OsPath.sep] (tail r ++ [n]))).
    { rewrite <- (@join_extended r [n] Hr Ht); [reflexivity| |discriminate].
      simpl. now rewrite Hs. }
    rewrite E, IH; cbn [root tail].
    + now rewrite <- app_assoc.
    + reflexivity.
    + rewrite forallb_app, Ht. simpl. now rewrite Hs.
    + exact Hn.
Qed.

Lemma norm_steps_keep (n : nat) (t : list str) :
  forall acc,
    forallb (fun x => segment x && negb (str_eqb x OsPath.pardir)) t = true ->
    fold_left (OsPath.norm_step n) t acc = acc ++ t.
Proof.
  induction t as [|x t IH]; intros acc H; [now rewrite app_nil_r|].
  simpl in H. apply andb_true_iff in H as [Hx Ht].
  apply andb_true_iff in Hx as [Hs Hp].
  cbn [fold_left].
  assert (E : OsPath.norm_step n acc x = acc ++ [x]).
  { unfold OsPath.norm_step. unfold segment, valid_name in Hs.
    apply andb_true_iff in Hs as [Hv Hd]. apply andb_true_iff in Hv as [Hn _].
    apply negb_true_iff in Hd. rewrite Hn, Hd, Hp. reflexivity. }
  rewrite E, IH by exact Ht. now rewrite <- app_assoc.
Qed.

Lemma components_resolved (p : Path) :
  resolved p = true ->
  split_on OsPath.sep (to_str p)
  = [] :: match tail p with [] => [[]] | t => t end.
Proof.
  intros H. destruct (resolved_spec p H) as [Hr [Ht _]].
  rewrite (@to_str_resolved p Hr).
  change (split_on OsPath.sep (OsPath.sep :: PyStr.join [OsPath.sep] (tail p)))
    with ([] :: split_on OsPath.sep (PyStr.join [OsPath.sep] (tail p))).
  f_equal. destruct (tail p) as [|x t] eqn:E; [reflexivity|].
  apply split_on_join; [discriminate|exact Ht].
Qed.

(** A resolved path is already normal. *)
Lemma normpath_resolved (p : Path) :
  resolved p = true -> OsPath.normpath (to_str p) = to_str p.
Proof.
  intros H. pose proof (components_resolved p H) as Hc.
  destruct (resolved_spec p H) as [Hr [Ht _]].
  unfold OsPath.normpath. rewrite Hc. rewrite (@to_str_resolved p Hr).
  cbn [truthy negb].
  assert (H1 : startswith [OsPath.sep]
                 (OsPath.sep :: PyStr.join [OsPath.sep] (tail p)) = true)
    by reflexivity.
  assert (H2 : startswith [OsPath.sep; OsPath.sep]
                 (OsPath.sep :: PyStr.join [OsPath.sep] (tail p)) = false).
  { change (char_eqb OsPath.sep OsPath.sep
            && startswith [OsPath.sep] (PyStr.join [OsPath.sep] (tail p))
            = false).
    now rewrite (@join_segments_not_abs (tail p) Ht). }
  rewrite H1, H2. cbn [andb repeat].
  destruct (tail p) as [|x t] eqn:E.
  - reflexivity.
  - change (fold_left (OsPath.norm_step 1) ([] :: x :: t) [])
      with (fold_left (OsPath.norm_step 1) (x :: t) []).
    unfold resolved in H. apply andb_true_iff in H as [_ H]. rewrite E in H.
    rewrite (norm_steps_keep 1 (x :: t) [] H). reflexivity.
Qed.

Lemma filter_truthy_segments (l : list str) :
  forallb segment l = true -> filter truthy l = l.
Proof.
  induction l as [|y l IH]; [reflexivity|]. intros H.
  simpl in H. apply andb_true_iff in H as [Hy Hl].
  apply segment_spec in Hy as [Hne _].
  cbn [filter]. destruct y; [contradiction|]. cbn [truthy]. now rewrite IH.
Qed.

Lemma parts_resolved (cwd : str) (p : Path) :
  resolved p = true ->
  filter truthy (split_on OsPath.sep (OsPath.abspath cwd (to_str p))) = tail p.
Proof.
  intros H. unfold OsPath.abspath.
  destruct (resolved_spec p H) as [Hr [Ht _]].
  assert (Habs : OsPath.isabs (to_str p) = true).
  { rewrite (@to_str_resolved p Hr). reflexivity. }
  rewrite Habs, (normpath_resolved p H), (components_resolved p H).
  destruct (tail p) as [|x t] eqn:E; [reflexivity|].
  change (filter truthy ([] :: x :: t)) with (filter truthy (x :: t)).
  now apply filter_truthy_segments.
Qed.

Lemma common_len_prefix (l m : list str) :
  OsPath.common_len l (l ++ m) = length l.
Proof.
  induction l as [|x l IH]; simpl; [now destruct m|].
  now rewrite str_eqb_refl, IH.
Qed.

Lemma join_all_names (names : list str) :
  forall pre n,
    valid_name n = true -> forallb segment names = true ->
    fold_left OsPath.join names (pre ++ n)
    = pre ++ PyStr.join [OsPath.sep] (n :: names).
Proof.
  induction names as [|x names IH]; intros pre n Hn Hs; [reflexivity|].
  simpl in Hs. apply andb_true_iff in Hs as [Hx Hs].
  assert (Hv : valid_name x = true).
  { unfold segment in Hx. now apply andb_true_iff in Hx as [Hv _]. }
  cbn [fold_left].
  rewrite (join_valid_name _ _ Hv), (joiner_after_name pre _ Hn).
  replace ((pre ++ n) ++ [OsPath.sep] ++ x)
    with ((pre ++ n ++ [OsPath.sep]) ++ x) by now rewrite <- !app_assoc.
  rewrite (IH _ _ Hv Hs).
  change (PyStr.join [OsPath.sep] (n :: x :: names))
    with (n ++ [OsPath.sep] ++ PyStr.join [OsPath.sep] (x :: names)).
  now rewrite <- !app_assoc.
Qed.

(** The path of a directory relative to the resolved directory it lies
    under, through the sub-directories [names]. *)
Lemma relpath_extended (cwd : str) (r : Path) (names : list str) :
  resolved r = true ->
  forallb (fun x => segment x && negb (str_eqb x OsPath.pardir)) names = true ->
  OsPath.relpath cwd (to_str (mkPath [OsPath.sep] (tail r ++ names))) (to_str r)
  = Some (match names with
          | [] => OsPath.curdir
          | _ => PyStr.join [OsPath.sep] names
          end).
Proof.
  intros Hr Hn.
  assert (Hr' : resolved (mkPath [OsPath.sep] (tail r ++ names)) = true).
  { unfold resolved in *. cbn [root tail].
    apply andb_true_iff in Hr as [_ Ht]. now rewrite forallb_app, Ht, Hn. }
  unfold OsPath.relpath.
  rewrite (parts_resolved cwd r Hr), (parts_resolved cwd _ Hr').
  cbn [tail]. rewrite common_len_prefix, Nat.sub_diag, skipn_app.
  rewrite skipn_all, Nat.sub_diag. cbn [repeat app skipn].
  assert (Ht : truthy (to_str (mkPath [OsPath.sep] (tail r ++ names))) = true).
  { rewrite (@to_str_resolved (mkPath [OsPath.sep] (tail r ++ names))
               eq_refl). reflexivity. }
  rewrite Ht. cbn [negb].
  destruct names as [|n names]; [reflexivity|].
  f_equal. unfold OsPath.join_all.
  simpl in Hn. apply andb_true_iff in Hn as [Hx Hn].
  apply andb_true_iff in Hx as [Hs _].
  assert (Hv : valid_name n = true).
  { unfold segment in Hs. now apply andb_true_iff in Hs as [Hv _]. }
  assert (Hsegs : forallb segment names = true).
  { apply forallb_forall. intros x Hx. rewrite forallb_forall in Hn.
    specialize (Hn x Hx). now apply andb_true_iff in Hn as [H _]. }
  exact (join_all_names names [] n Hv Hsegs).
Qed.

Lemma plain_char_sanitize (c : char) :
  plain_char c = true -> sanitize_char c = c.
Proof.
  unfold plain_char, sanitize_char. intros H.
  apply andb_true_iff in H as [_ H]. apply negb_true_iff in H. now rewrite H.
Qed.

Lemma plain_join (names : list str) :
  forallb (forallb plain_char) names = true ->
  forallb plain_char (PyStr.join [OsPath.sep] names) = true.
Proof.
  induction names as [|x names IH]; [reflexivity|]. intros H.
  simpl in H. apply andb_true_iff in H as [Hx Hn].
  destruct names as [|y names]; [exact Hx|].
  change (PyStr.join [OsPath.sep] (x :: y :: names))
    with (x ++ [OsPath.sep] ++ PyStr.join [OsPath.sep] (y :: names)).
  rewrite !forallb_app, Hx, (IH Hn). reflexivity.
Qed.

(** [_clean_path_name] leaves a name of plain characters as it is. *)
Lemma clean_plain (s : str) :
  forallb plain_char s = true -> _clean_path_name s = s.
Proof.
  intros H. rewrite clean_path_name_eq.
  rewrite map_fixed.
  2: { intros c Hc. rewrite forallb_forall in H.
       now apply plain_char_sanitize, H. }
  destruct s as [|c s]; [reflexivity|].
  rewrite split_word; [reflexivity|].
  split; [discriminate|]. apply forallb_forall. intros x Hx.
  rewrite forallb_forall in H. specialize (H x Hx).
  unfold plain_char in H. now apply andb_true_iff in H as [H _].
Qed.

Lemma split_on_join_then (t : list str) (s : str) :
  t <> [] -> forallb segment t = true ->
  split_on OsPath.sep (PyStr.join [OsPath.sep] t ++ OsPath.sep :: s)
  = t ++ split_on OsPath.sep s.
Proof.
  induction t as [|x t IH]; [contradiction|]. intros _ H.
  simpl in H. apply andb_true_iff in H as [Hx Ht].
  apply segment_spec in Hx as [_ [Hs _]].
  destruct t as [|y t].
  - exact (split_on_name_sep x s Hs).
  - change (PyStr.join [OsPath.sep] (x :: y :: t) ++ OsPath.sep :: s)
      with ((x ++ OsPath.sep :: PyStr.join [OsPath.sep] (y :: t))
            ++ OsPath.sep :: s).
    rewrite <- app_assoc.
    change ((OsPath.sep :: PyStr.join [OsPath.sep] (y :: t)) ++ OsPath.sep :: s)
      with (OsPath.sep :: (PyStr.join [OsPath.sep] (y :: t) ++ OsPath.sep :: s)).
    rewrite (split_on_name_sep x _ Hs), IH; [reflexivity|discriminate|exact Ht].
Qed.

(** Joining a resolved path with the dot gives the path itself. *)
Lemma truediv_dot (p : Path) :
  resolved p = true -> truediv p OsPath.curdir = p.
Proof.
  intros H. destruct (resolved_spec p H) as [Hr [Ht _]].
  unfold truediv.
  rewrite (join_valid_name (to_str p) OsPath.curdir eq_refl).
  rewrite (@to_str_resolved p Hr).
  destruct p as [r t]. cbn [root tail] in *. subst r.
  destruct t as [|x t]; [reflexivity|].
  change (OsPath.sep :: PyStr.join [OsPath.sep] (x :: t))
    with ([OsPath.sep] ++ PyStr.join [OsPath.sep] (x :: t)).
  rewrite (joiner_segments [OsPath.sep] (t := x :: t) ltac:(discriminate) Ht).
  destruct (join_segments_head (t := x :: t) ltac:(discriminate) Ht)
    as [c [b [Ej Ec]]].
  unfold parse. rewrite <- app_assoc.
  assert (Esplit : splitroot ([OsPath.sep]
                     ++ PyStr.join [OsPath.sep] (x :: t)
                     ++ [OsPath.sep] ++ OsPath.curdir)
                   = ([OsPath.sep],
                      PyStr.join [OsPath.sep] (x :: t)
                      ++ OsPath.sep :: OsPath.curdir)).
  { rewrite Ej. unfold splitroot. cbn [app].
    assert (Es : char_eqb OsPath.sep OsPath.sep = true) by reflexivity.
    now rewrite Es, Ec. }
  rewrite Esplit.
  rewrite (split_on_join_then (t := x :: t) OsPath.curdir
             ltac:(discriminate) Ht).
  rewrite filter_app, (filter_segments _ Ht). cbn. now rewrite app_nil_r.
Qed.

Lemma mirrored_destination_path (cwd : str) (self : Converter)
    (info : DicomFolder) (names : list str) :
  organize_by_folder self = true ->
  resolved (input_dir self) = true ->
  resolved (output_dir self) = true ->
  forallb plain_name names = true ->
  folder_path info = fold_left OsPath.join names (to_str (input_dir self)) ->
  include_patient_info self = false
  \/ patient_id info = []
  \/ contains (patient_id info)
       (match names with
        | [] => OsPath.curdir
        | _ => PyStr.join [OsPath.sep] names
        end) = true ->
  exists dest,
    _get_output_subdir cwd self info = Ok dest
    /\ dest = mkPath [OsPath.sep] (tail (output_dir self) ++ names)
    /\ to_str dest = fold_left OsPath.join names (to_str (output_dir self)).
Proof.
  intros Horg Hin Hout Hnames Hpath Hpatient.
  destruct (resolved_spec _ Hin) as [Hri [Hti _]].
  destruct (resolved_spec _ Hout) as [Hro [Hto _]].
  pose proof (plain_names_segments names Hnames) as Hsegs.
  assert (Hnorm : forallb (fun x => segment x && negb (str_eqb x OsPath.pardir))
                    names = true).
  { apply forallb_forall. intros x Hx. rewrite forallb_forall in Hnames.
    specialize (Hnames x Hx). unfold plain_name in Hnames.
    now apply andb_true_iff in Hnames as [H _]. }
  assert (Hplain : forallb (forallb plain_char) names = true).
  { apply forallb_forall. intros x Hx. rewrite forallb_forall in Hnames.
    specialize (Hnames x Hx). now apply plain_name_spec in Hnames as [_ [_ H]]. }
  exists (mkPath [OsPath.sep] (tail (output_dir self) ++ names)).
  split; [|split; [reflexivity|]].
  - unfold _get_output_subdir. rewrite Horg, Hpath.
    rewrite (walk_path_extended names (input_dir self) Hri Hti Hsegs).
    rewrite (relpath_extended cwd (input_dir self) names Hin Hnorm).
    set (rel := match names with
                | [] => OsPath.curdir
                | _ :: _ => PyStr.join [OsPath.sep] names
                end) in *.
    assert (Hclean : _clean_path_name rel = rel).
    { apply clean_plain. unfold rel. destruct names; [reflexivity|].
      now apply plain_join. }
    assert (Hdest : truediv (output_dir self) rel
                    = mkPath [OsPath.sep] (tail (output_dir self) ++ names)).
    { unfold rel. destruct names as [|n names].
      - rewrite app_nil_r. rewrite (truediv_dot _ Hout).
        destruct (output_dir self) as [r t]. cbn [root tail] in *. now subst r.
      - unfold truediv.
        rewrite (@join_extended (output_dir self) (n :: names) Hro Hto Hsegs
                   ltac:(discriminate)).
        apply parse_to_str. unfold wf_path. cbn [root tail].
        now rewrite forallb_app, Hto, Hsegs. }
    cbv zeta. rewrite !Hclean.
    destruct Hpatient as [H|[H|H]].
    + rewrite H. cbn [andb]. now rewrite Hdest.
    + rewrite H. cbn [truthy]. rewrite andb_false_r. now rewrite Hdest.
    + rewrite H. cbn [negb].
      destruct (include_patient_info self && truthy (patient_id info));
        now rewrite Hdest.
  - symmetry. exact (walk_path_extended names (output_dir self) Hro Hto Hsegs).
Qed.

(** X27: in mirrored mode the destination mirrors the source.  For resolved
    input and output directories and a folder reached from the input
    directory through sub-directories whose names contain no whitespace and
    none of the seven invalid characters (and are neither dot nor double
    dot), when no patient information is added (the option is off, the
    patient id is empty, or it already occurs in the relative path), the
    destination is the output directory followed by the same sub-directory
    names. *)
Theorem mirrored_destination (cwd : str) (self : Converter)
    (info : DicomFolder) (names : list str) :
  organize_by_folder self = true ->
  resolved (input_dir self) = true ->
  resolved (output_dir self) = true ->
  forallb plain_name names = true ->
  folder_path info = fold_left OsPath.join names (to_str (input_dir self)) ->
  include_patient_info self = false
  \/ patient_id info = []
  \/ contains (patient_id info)
       (match names with
        | [] => OsPath.curdir
        | _ => PyStr.join [OsPath.sep] names
        end) = true ->
  exists dest,
    _get_output_subdir cwd self info = Ok dest
    /\ dest = mkPath [OsPath.sep] (tail (output_dir self) ++ names)
    /\ to_str dest = fold_left OsPath.join names (to_str (output_dir self)).
Proof.
  intros Horg Hin Hout Hnames Hpath Hpatient.
  exact (mirrored_destination_path cwd self info names Horg Hin Hout Hnames
           Hpath Hpatient).
Qed.

Lemma mirrored_destination_witness :
  exists dest,
    _get_output_subdir Toy.cwd (Toy.converter true []) Toy.scan_b_info = Ok dest
    /\ dest = mkPath [OsPath.sep] ([lit "data"; lit "out"]
                                   ++ [lit "P001"; lit "ScanB"])
    /\ to_str dest = lit "/data/out/P001/ScanB".
Proof.
  apply (@mirrored_destination Toy.cwd (Toy.converter true [])
           Toy.scan_b_info [lit "P001"; lit "ScanB"]).
  - reflexivity.
  - reflexivity.
  - reflexivity.
  - reflexivity.
  - reflexivity.
  - right. right. reflexivity.
Defined.

(** ** The patient information in the destination *)

Lemma valid_name_intro (n : str) :
  n <> [] -> ~ In OsPath.sep n -> valid_name n = true.
Proof.
  intros Hn Hsep. unfold valid_name. destruct n as [|c n]; [contradiction|].
  cbn [truthy andb].
  destruct (existsb (char_eqb OsPath.sep) (c :: n)) eqn:E; [|reflexivity].
  apply existsb_exists in E as [x [Hx E]]. apply char_eqb_eq in E. subst x.
  contradiction.
Qed.

(** Sanitizing brings no slash into a name. *)
Lemma clean_path_name_no_sep (s : str) :
  ~ In OsPath.sep s -> ~ In OsPath.sep (_clean_path_name s).
Proof.
  intros Hs Hin. rewrite clean_path_name_eq in Hin.
  apply in_join_space in Hin as [E|Hin]; [discriminate|].
  rewrite concat_split in Hin. apply filter_In in Hin as [Hin _].
  apply in_map_iff in Hin as [c [E Hc]]. unfold sanitize_char in E.
  destruct (existsb (char_eqb c) invalid_chars); [discriminate|].
  subst c. contradiction.
Qed.

(** The text of a non-empty list of segments ends with a character that
    is no slash. *)
Lemma join_segments_last (t : list str) :
  t <> [] -> forallb segment t = true ->
  exists p c, PyStr.join [OsPath.sep] t = p ++ [c] /\ c <> OsPath.sep.
Proof.
  intros Ht Hsegs.
  destruct (exists_last Ht) as [ws [w ->]].
  rewrite forallb_app in Hsegs. apply andb_true_iff in Hsegs as [_ Hw].
  cbn [forallb] in Hw. rewrite andb_true_r in Hw.
  apply segment_spec in Hw as [Hne [Hsep _]].
  destruct (exists_last Hne) as [w' [c ->]].
  destruct (join_ends_with_last [OsPath.sep] ws (w' ++ [c])) as [prefix ->].
  exists (prefix ++ w'), c. split; [now rewrite app_assoc|].
  intros ->. apply Hsep. apply in_or_app. right. now left.
Qed.

(** The new leaf is one segment when the patient id and the study date
    hold no slash. *)
Lemma patient_leaf_segment (pid date leaf : str) :
  ~ In OsPath.sep pid -> ~ In OsPath.sep date -> segment leaf = true ->
  segment (PyStr.join (lit "_")
             ([_clean_path_name pid]
              ++ (if truthy date then [date] else [])
              ++ [leaf])) = true.
Proof.
  intros Hpid Hdate Hleaf.
  apply segment_spec in Hleaf as [Hne [Hsep _]].
  pose proof (clean_path_name_no_sep pid Hpid) as Hclean.
  set (a := _clean_path_name pid) in *.
  assert (Hform : exists m,
            PyStr.join (lit "_")
              ([a] ++ (if truthy date then [date] else []) ++ [leaf])
            = a ++ [underscore] ++ m ++ leaf
            /\ ~ In OsPath.sep m).
  { destruct (truthy date).
    - exists (date ++ [underscore]). split.
      + cbn [app PyStr.join]. now rewrite <- !app_assoc.
      + intros H. apply in_app_or in H as [H|[H|[]]];
          [contradiction|discriminate].
    - exists []. split; [reflexivity|intros []]. }
  destruct Hform as [m [-> Hm]].
  unfold segment. apply andb_true_iff. split.
  - apply valid_name_intro.
    + destruct a; discriminate.
    + intros H. apply in_app_or in H as [H|H]; [contradiction|].
      apply in_app_or in H as [[H|[]]|H]; [discriminate|].
      apply in_app_or in H as [H|H]; contradiction.
  - apply negb_true_iff. apply str_eqb_neq. intros H.
    destruct a as [|c a].
    + discriminate.
    + injection H as _ H. destruct a; discriminate.
Qed.

(** X29: in mirrored mode with patient information, for resolved input and
    output directories and a folder reached from the input directory
    through sub-directories with plain names (no whitespace, none of the
    seven invalid characters, neither dot nor double dot), the last of
    them being [leaf]: when the patient id is not empty, does not occur in
    the relative path and holds no slash, and the study date holds no
    slash, the destination is the output directory followed by the same
    sub-directory names, except that the last one is replaced by the
    underscore-join of the sanitized patient id, the study date when it is
    not empty, and [leaf].  The destination keeps the parents and is below
    the output directory. *)
Theorem patient_leaf_destination (cwd : str) (self : Converter)
    (info : DicomFolder) (front : list str) (leaf : str) :
  organize_by_folder self = true ->
  include_patient_info self = true ->
  resolved (input_dir self) = true ->
  resolved (output_dir self) = true ->
  forallb plain_name (front ++ [leaf]) = true ->
  folder_path info
  = fold_left OsPath.join (front ++ [leaf]) (to_str (input_dir self)) ->
  patient_id info <> [] ->
  contains (patient_id info) (PyStr.join [OsPath.sep] (front ++ [leaf]))
  = false ->
  ~ In OsPath.sep (patient_id info) ->
  ~ In OsPath.sep (study_date info) ->
  let new_leaf :=
    PyStr.join (lit "_")
      ([_clean_path_name (patient_id info)]
       ++ (if truthy (study_date info) then [study_date info] else [])
       ++ [leaf]) in
  _get_output_subdir cwd self info
  = Ok (mkPath [OsPath.sep] (tail (output_dir self) ++ front ++ [new_leaf]))
  /\ to_str (mkPath [OsPath.sep] (tail (output_dir self) ++ front ++ [new_leaf]))
     = fold_left OsPath.join (front ++ [new_leaf]) (to_str (output_dir self)).
Proof.
  intros Horg Hinc Hin Hout Hnames Hpath Hpid Hnot Hpsep Hdsep new_leaf.
  destruct (resolved_spec _ Hin) as [Hri [Hti _]].
  destruct (resolved_spec _ Hout) as [Hro [Hto _]].
  pose proof (plain_names_segments _ Hnames) as Hsegs.
  assert (Hnorm : forallb (fun x => segment x && negb (str_eqb x OsPath.pardir))
                    (front ++ [leaf]) = true).
  { apply forallb_forall. intros x Hx. rewrite forallb_forall in Hnames.
    specialize (Hnames x Hx). unfold plain_name in Hnames.
    now apply andb_true_iff in Hnames as [H _]. }
  assert (Hplain : forallb (forallb plain_char) (front ++ [leaf]) = true).
  { apply forallb_forall. intros x Hx. rewrite forallb_forall in Hnames.
    specialize (Hnames x Hx). now apply plain_name_spec in Hnames as [_ [_ H]]. }
  assert (Hfront : forallb segment front = true /\ segment leaf = true).
  { rewrite forallb_app in Hsegs. apply andb_true_iff in Hsegs as [H1 H2].
    cbn [forallb] in H2. now rewrite andb_true_r in H2. }
  destruct Hfront as [Hfront Hleaf].
  pose proof (segment_spec _ Hleaf) as [Hne [Hlsep _]].
  pose proof (patient_leaf_segment (patient_id info) (study_date info) leaf
                Hpsep Hdsep Hleaf) as Hnew.
  fold new_leaf in Hnew.
  assert (Hsegs' : forallb segment (front ++ [new_leaf]) = true).
  { rewrite forallb_app, Hfront. cbn [forallb]. now rewrite Hnew. }
  set (rel := PyStr.join [OsPath.sep] (front ++ [leaf])) in *.
  assert (Hrel : OsPath.relpath cwd (folder_path info) (to_str (input_dir self))
                 = Some rel).
  { rewrite Hpath.
    rewrite (walk_path_extended (front ++ [leaf]) (input_dir self) Hri Hti Hsegs).
    rewrite (relpath_extended cwd (input_dir self) (front ++ [leaf]) Hin Hnorm).
    unfold rel. now destruct front. }
  assert (Hclean : _clean_path_name rel = rel)
    by (apply clean_plain; now apply plain_join).
  assert (Hbase : OsPath.basename rel = leaf
                  /\ (if truthy (OsPath.dirname rel)
                      then OsPath.join (OsPath.dirname rel) new_leaf
                      else new_leaf)
                     = PyStr.join [OsPath.sep] (front ++ [new_leaf])).
  { unfold rel. destruct front as [|n front].
    - cbn [app PyStr.join]. unfold OsPath.basename, OsPath.dirname.
      rewrite (rsplit_name leaf Hlsep). cbn. split; reflexivity.
    - rewrite !(join_snoc [OsPath.sep] (t := n :: front)) by discriminate.
      destruct (join_segments_last (t := n :: front) ltac:(discriminate) Hfront)
        as [p [c [Hjoin Hc]]].
      split.
      + now apply basename_parent_name.
      + change ([OsPath.sep] ++ leaf) with (OsPath.sep :: leaf).
        rewrite Hjoin, (dirname_parent_name p leaf Hlsep Hc), <- Hjoin.
        destruct (join_segments_head (t := n :: front) ltac:(discriminate) Hfront)
          as [c0 [b [Hhead _]]].
        rewrite Hhead at 1. cbn [truthy].
        apply andb_true_iff in Hnew as [Hvalid _].
        rewrite (join_valid_name _ _ Hvalid).
        pose proof (joiner_segments [] (t := n :: front) ltac:(discriminate)
                      Hfront) as Hj.
        cbn [app] in Hj. now rewrite Hj. }
  destruct Hbase as [Hbase Hjoined].
  split.
  - destruct (get_output_subdir_branches cwd self info Horg Hinc Hrel)
      as [Hbranch _].
    cbv zeta in Hbranch. rewrite Hclean, Hbase in Hbranch.
    rewrite (Hbranch Hpid Hnot). fold new_leaf. rewrite Hjoined.
    f_equal. unfold truediv.
    rewrite (@join_extended (output_dir self) (front ++ [new_leaf]) Hro Hto
               Hsegs' ltac:(now destruct front)).
    apply parse_to_str. unfold wf_path. cbn [root tail].
    now rewrite forallb_app, Hto, Hsegs'.
  - symmetry.
    exact (walk_path_extended (front ++ [new_leaf]) (output_dir self) Hro Hto
             Hsegs').
Qed.

Lemma patient_leaf_destination_witness :
  _get_output_subdir Toy.cwd (Toy.converter true []) Toy.other_info
  = Ok (mkPath [OsPath.sep]
          ([lit "data"; lit "out"] ++ [lit "P001"]
           ++ [lit "X_9_20240101_ScanA"]))
  /\ to_str (mkPath [OsPath.sep]
               ([lit "data"; lit "out"] ++ [lit "P001"]
                ++ [lit "X_9_20240101_ScanA"]))
     = lit "/data/out/P001/X_9_20240101_ScanA".
Proof.
  apply (@patient_leaf_destination Toy.cwd (Toy.converter true [])
           Toy.other_info [lit "P001"] (lit "ScanA")).
  - reflexivity.
  - reflexivity.
  - reflexivity.
  - reflexivity.
  - reflexivity.
  - reflexivity.
  - discriminate.
  - reflexivity.
  - intros H. vm_compute in H. intuition discriminate.
  - intros H. vm_compute in H. intuition discriminate.
Defined.

(** X28: in mirrored mode, under the conditions of X27, two folders
    reached through different lists of sub-directory names get different
    destinations: their conversions are stored under different keys and
    written to different directories. *)
Theorem mirrored_destinations_distinct (cwd : str) (self : Converter)
    (info1 info2 : DicomFolder) (names1 names2 : list str)
    (dest1 dest2 : Path) :
  organize_by_folder self = true ->
  resolved (input_dir self) = true ->
  resolved (output_dir self) = true ->
  include_patient_info self = false ->
  forallb plain_name names1 = true ->
  forallb plain_name names2 = true ->
  folder_path info1 = fold_left OsPath.join names1 (to_str (input_dir self)) ->
  folder_path info2 = fold_left OsPath.join names2 (to_str (input_dir self)) ->
  names1 <> names2 ->
  _get_output_subdir cwd self info1 = Ok dest1 ->
  _get_output_subdir cwd self info2 = Ok dest2 ->
  to_str dest1 <> to_str dest2.
Proof.
  intros Horg Hin Hout Hinc Hn1 Hn2 Hp1 Hp2 Hne Hd1 Hd2 E.
  destruct (mirrored_destination_path cwd self info1 names1 Horg Hin Hout Hn1
              Hp1 (or_introl Hinc)) as [d1 [Hd1' [E1 _]]].
  destruct (mirrored_destination_path cwd self info2 names2 Horg Hin Hout Hn2
              Hp2 (or_introl Hinc)) as [d2 [Hd2' [E2 _]]].
  rewrite Hd1 in Hd1'. injection Hd1' as <-.
  rewrite Hd2 in Hd2'. injection Hd2' as <-.
  destruct (resolved_spec _ Hout) as [Hro [Hto _]].
  assert (W1 : wf_path dest1 = true).
  { rewrite E1. unfold wf_path. cbn [root tail].
    now rewrite forallb_app, Hto, (plain_names_segments names1 Hn1). }
  assert (W2 : wf_path dest2 = true).
  { rewrite E2. unfold wf_path. cbn [root tail].
    now rewrite forallb_app, Hto, (plain_names_segments names2 Hn2). }
  apply (f_equal parse) in E.
  rewrite (parse_to_str dest1 W1), (parse_to_str dest2 W2), E1, E2 in E.
  injection E as E. apply app_inv_head in E. contradiction.
Qed.

Lemma mirrored_destinations_distinct_witness :
  to_str (parse (lit "/data/out/P001/ScanA"))
  <> to_str (parse (lit "/data/out/P001/ScanB")).
Proof.
  apply (@mirrored_destinations_distinct Toy.cwd Cases.plain
           Demo.scan_a_info Toy.scan_b_info
           [lit "P001"; lit "ScanA"] [lit "P001"; lit "ScanB"]
           (parse (lit "/data/out/P001/ScanA"))
           (parse (lit "/data/out/P001/ScanB")));
    try reflexivity.
  discriminate.
Defined.

(** The path [os.walk] gives a reachable directory is the root path joined
    with the names of the sub-directories that lead to it. *)
Lemma reaches_path (top : str) (d : Dir) (p : str) (d' : Dir) :
  reaches top d p d' -> exists names, p = fold_left OsPath.join names top.
Proof.
  induction 1 as [top d|top d sd p d' Hsd _ [names IH]].
  - now exists [].
  - exists (dname sd :: names). exact IH.
Qed.
